(** * jitsi-whisper-bridge: the per-connection session engine

    A shallow embedding of [jitsi-whisper-bridge.py]: the framed binary
    protocol of [handle_client], the [AudioBuffer] accumulator, the
    [WhisperClient.transcribe] request cycle, the [HallucinationFilter] and
    the [JWTAuthenticator] gate, followed by the properties the
    specification states about them.

    Python values are modelled as the interpreter has them: [str] is a
    sequence of code points, [bytes] a sequence of octets, [int] is
    unbounded and [float] is IEEE binary64 with round-to-nearest-even. *)

From Stdlib Require Import ZArith NArith Lia FunInd.
From Stdlib Require Import Strings.Ascii Strings.String Strings.Byte.
From Stdlib Require Import Floats.SpecFloat.
From stdpp Require Import base option list gmap.

Local Open Scope Z_scope.
Set Warnings "-register-all".

(** ** Exceptions

    Code that may raise returns a [res]; [try/except] is a [match]. *)

Inductive exn : Set :=
| ZeroDivisionError
| OverflowError
| AttributeError
| StructError
| WaveError.

Inductive res (A : Type) : Type :=
| Ok (a : A)
| Raise (e : exn).
Arguments Ok {A} a.
Arguments Raise {A} e.

Definition res_bind {A B : Type} (r : res A) (k : A -> res B) : res B :=
  match r with
  | Ok a => k a
  | Raise e => Raise e
  end.

Notation "x <- r ;;; k" := (res_bind r (fun x => k))
  (at level 100, r at next level, right associativity).

(** ** Python strings *)

Module PyStr.

(** A [str]: its code points, in order. *)
Abbreviation pystr := (list N).

(** An ASCII literal as a [str]. *)
Definition str (s : string) : pystr :=
  map N_of_ascii (list_ascii_of_string s).

(** An ASCII literal as [bytes]. *)
Definition bytes_lit (s : string) : list byte :=
  list_byte_of_string s.

Definition eqb (a b : pystr) : bool := bool_decide (a = b).

(** Truth value of a [str]: non-empty. *)
Definition truthy (s : pystr) : bool :=
  match s with
  | [] => false
  | _ :: _ => true
  end.

(** [str.isspace] on one code point, the set [str.strip()] removes. *)
Definition isspace (c : N) : bool :=
  (((0x09 <=? c) && (c <=? 0x0D)) || ((0x1C <=? c) && (c <=? 0x20))
   || (c =? 0x85) || (c =? 0xA0) || (c =? 0x1680)
   || ((0x2000 <=? c) && (c <=? 0x200A))
   || (c =? 0x2028) || (c =? 0x2029) || (c =? 0x202F)
   || (c =? 0x205F) || (c =? 0x3000))%N.

Fixpoint lstrip_by (p : N -> bool) (s : pystr) : pystr :=
  match s with
  | [] => []
  | c :: r => if p c then lstrip_by p r else s
  end.

Definition rstrip_by (p : N -> bool) (s : pystr) : pystr :=
  rev (lstrip_by p (rev s)).

(** [s.strip()] *)
Definition strip (s : pystr) : pystr :=
  rstrip_by isspace (lstrip_by isspace s).

(** [s.rstrip(chars)] *)
Definition rstrip_chars (chars : pystr) (s : pystr) : pystr :=
  rstrip_by (fun c => existsb (N.eqb c) chars) s.

(** [s.split(sep)] for a one-character separator: never empty. *)
Fixpoint split (sep : N) (s : pystr) : list pystr :=
  match s with
  | [] => [[]]
  | c :: r =>
      if (c =? sep)%N then [] :: split sep r
      else match split sep r with
           | [] => [[c]]
           | w :: ws => (c :: w) :: ws
           end
  end.

(** [s.startswith(prefix)] *)
Fixpoint startswith (prefix s : pystr) : bool :=
  match prefix, s with
  | [], _ => true
  | _ :: _, [] => false
  | a :: p, c :: r => (a =? c)%N && startswith p r
  end.

(** [s.replace(old, '')] for a non-empty [old]: every occurrence, scanning
    from the left, is removed. *)
Fixpoint remove_all (old : pystr) (s : pystr) (fuel : nat) : pystr :=
  match fuel with
  | O => s
  | S fuel' =>
      match s with
      | [] => []
      | c :: r =>
          if startswith old s
          then remove_all old (drop (length old) s) fuel'
          else c :: remove_all old r fuel'
      end
  end.

Definition replace_empty (old s : pystr) : pystr :=
  remove_all old s (length s).

End PyStr.
Export PyStr.

(** ** UTF-8 decoding with [errors='ignore']

    CPython's decoder: a well-formed sequence yields its code point; an
    invalid start byte is skipped alone; a truncated or ill-continued
    sequence is skipped up to the offending byte, which is looked at again;
    a sequence cut off by the end of the input is dropped. *)

Module Utf8.

Definition is_continuation (c : N) : bool := ((0x80 <=? c) && (c <? 0xC0))%N.

Definition low6 (c : N) : N := N.land c 0x3F.

Fixpoint decode_ignore (bs : list byte) : pystr :=
  match bs with
  | [] => []
  | b0 :: r0 =>
    let c0 := Byte.to_N b0 in
    if (c0 <? 0x80)%N then c0 :: decode_ignore r0
    else if (c0 <? 0xC2)%N then decode_ignore r0
    else if (c0 <? 0xE0)%N then
      match r0 with
      | [] => []
      | b1 :: r1 =>
        let c1 := Byte.to_N b1 in
        if is_continuation c1
        then (N.land c0 0x1F * 64 + low6 c1)%N :: decode_ignore r1
        else decode_ignore r0
      end
    else if (c0 <? 0xF0)%N then
      match r0 with
      | [] => []
      | b1 :: r1 =>
        let c1 := Byte.to_N b1 in
        if negb (is_continuation c1)
           || (if (c1 <? 0xA0)%N then (c0 =? 0xE0)%N else (c0 =? 0xED)%N)
        then decode_ignore r0
        else
          match r1 with
          | [] => []
          | b2 :: r2 =>
            let c2 := Byte.to_N b2 in
            if is_continuation c2
            then (N.land c0 0x0F * 4096 + low6 c1 * 64 + low6 c2)%N
                 :: decode_ignore r2
            else decode_ignore r1
          end
      end
    else if (c0 <? 0xF5)%N then
      match r0 with
      | [] => []
      | b1 :: r1 =>
        let c1 := Byte.to_N b1 in
        if negb (is_continuation c1)
           || (if (c1 <? 0x90)%N then (c0 =? 0xF0)%N else (c0 =? 0xF4)%N)
        then decode_ignore r0
        else
          match r1 with
          | [] => []
          | b2 :: r2 =>
            let c2 := Byte.to_N b2 in
            if negb (is_continuation c2) then decode_ignore r1
            else
              match r2 with
              | [] => []
              | b3 :: r3 =>
                let c3 := Byte.to_N b3 in
                if is_continuation c3
                then (N.land c0 0x07 * 262144 + low6 c1 * 4096
                      + low6 c2 * 64 + low6 c3)%N :: decode_ignore r3
                else decode_ignore r2
              end
          end
      end
    else decode_ignore r0
  end.

End Utf8.


(** ** Numbers

    Python's [int] is [Z]; its [float] is binary64, computed here with the
    Standard Library's executable IEEE specification. *)

Module PyNum.

Abbreviation float := spec_float.

Definition prec : Z := 53.
Definition emax : Z := 1024.

Definition float_div : float -> float -> float := SFdiv prec emax.
Definition float_mul : float -> float -> float := SFmul prec emax.

(** [float(z)] for an [int] that converts without overflow. *)
Definition float_of_int (z : Z) : float := binary_normalize prec emax z 0 false.

(** [a / b] on two [int]s: the correctly rounded quotient; division by
    zero and a quotient beyond the range of [float] raise. *)
Definition int_true_div (a b : Z) : res float :=
  match b with
  | Z0 => Raise ZeroDivisionError
  | _ =>
      match a with
      | Z0 => Ok (S754_zero (b <? 0))
      | _ =>
          let q := float_div (S754_finite (a <? 0) (Z.to_pos (Z.abs a)) 0)
                             (S754_finite (b <? 0) (Z.to_pos (Z.abs b)) 0) in
          match q with
          | S754_infinity _ => Raise OverflowError
          | _ => Ok q
          end
      end
  end.

(** A number read from the configuration or computed from it. *)
Inductive pynum : Type :=
| PyInt (z : Z)
| PyFloat (f : float).

(** The value of a number on the extended dyadic line. *)
Inductive dyadic : Type :=
| DNaN
| DNegInf
| DPosInf
| DFin (m e : Z).

Definition dyadic_of_float (f : float) : dyadic :=
  match f with
  | S754_nan => DNaN
  | S754_infinity true => DNegInf
  | S754_infinity false => DPosInf
  | S754_zero _ => DFin 0 0
  | S754_finite s m e => DFin (if s then Z.neg m else Z.pos m) e
  end.

Definition dyadic_of (x : pynum) : dyadic :=
  match x with
  | PyInt z => DFin z 0
  | PyFloat f => dyadic_of_float f
  end.

(** Exact comparison, as Python compares [int] with [float]; [None] when a
    NaN is involved. *)
Definition dyadic_compare (x y : dyadic) : option comparison :=
  match x, y with
  | DNaN, _ | _, DNaN => None
  | DNegInf, DNegInf => Some Eq
  | DNegInf, _ => Some Lt
  | _, DNegInf => Some Gt
  | DPosInf, DPosInf => Some Eq
  | DPosInf, _ => Some Gt
  | _, DPosInf => Some Lt
  | DFin m1 e1, DFin m2 e2 =>
      let e := Z.min e1 e2 in
      Some (Z.compare (m1 * 2 ^ (e1 - e)) (m2 * 2 ^ (e2 - e)))
  end.

Definition py_compare (x y : pynum) : option comparison :=
  dyadic_compare (dyadic_of x) (dyadic_of y).

(** [x < y] *)
Definition py_lt (x y : pynum) : bool :=
  match py_compare x y with
  | Some Lt => true
  | _ => false
  end.

(** [x >= y] *)
Definition py_ge (x y : pynum) : bool :=
  match py_compare x y with
  | Some Gt | Some Eq => true
  | _ => false
  end.

End PyNum.
Export PyNum.

(** ** Dynamic values

    What [response.json()] and [jwt.decode] hand back, and what the handler
    passes to [json.dumps]. A [dict] is the list of its items. *)

Inductive pyval : Type :=
| VNone
| VBool (b : bool)
| VInt (z : Z)
| VFloat (f : float)
| VStr (s : pystr)
| VList (l : list pyval)
| VDict (d : list (pystr * pyval)).

Abbreviation pydict := (list (pystr * pyval)).

(** Truth value, as [if v:] takes it. *)
Definition py_truthy (v : pyval) : bool :=
  match v with
  | VNone => false
  | VBool b => b
  | VInt z => negb (z =? 0)
  | VFloat (S754_zero _) => false
  | VFloat _ => true
  | VStr s => truthy s
  | VList l => match l with [] => false | _ => true end
  | VDict d => match d with [] => false | _ => true end
  end.

Fixpoint dict_lookup (key : pystr) (d : pydict) : option pyval :=
  match d with
  | [] => None
  | (k, v) :: r => if eqb k key then Some v else dict_lookup key r
  end.

(** [d.get(key, dflt)] *)
Definition dict_get (key : pystr) (d : pydict) (dflt : pyval) : pyval :=
  default dflt (dict_lookup key d).

(** The entry of a [dict] under a key, if there is one. *)
Definition field (key : string) (v : pyval) : option pyval :=
  match v with
  | VDict d => dict_lookup (str key) d
  | _ => None
  end.

(** ** The host: library code the bridge calls

    [libm_pow_half x] is the C library's [pow(x, 0.5)], [str_lower] is
    [str.lower], [re_match p s] tells whether
    [re.compile(p, re.IGNORECASE).match(s)] finds a match, and
    [jwt_decode token key audience] is PyJWT's RS256 [jwt.decode]. *)

Inductive jwt_outcome : Type :=
| JwtPayload (claims : pydict)
| ExpiredSignatureError
| InvalidAudienceError
| InvalidTokenError
| JwtOtherError.

Class Host : Type := {
  libm_pow_half : float -> float;
  str_lower : pystr -> pystr;
  re_match : pystr -> pystr -> bool;
  jwt_decode : pystr -> option pystr -> pystr -> jwt_outcome
}.

(** ** Configuration (read-only for the lifetime of a session)

    The two settings [handle_client] reads, as the default configuration
    and a well-typed file give them: an [int] and a number. A file can also
    make [config.get] return None or a string; the first duration or
    comparison of such a session raises TypeError, and such sessions are
    outside this record. *)

Record Config : Type := {
  whisper_sample_rate : Z;
  whisper_chunk_duration_ms : pynum
}.

Section Bridge.

Context `{Host}.

(** ** JWT authentication *)

Record JWTAuthenticator : Type := {
  jwt_enabled : bool;
  audience : pystr;
  public_key : option pystr
}.

Definition no_auth_payload : pydict := [(str "iss", VStr (str "no-auth-mode"))].

(** [JWTAuthenticator.verify]: the payload, or [None]. *)
Definition verify (auth : JWTAuthenticator) (token : pystr) : option pydict :=
  if negb (jwt_enabled auth) then Some no_auth_payload
  else
    match jwt_decode token (public_key auth) (audience auth) with
    | JwtPayload payload => Some payload
    | ExpiredSignatureError => None
    | InvalidAudienceError => None
    | InvalidTokenError => None
    | JwtOtherError => None
    end.

(** ** Hallucination filtering *)

Record HallucinationFilter : Type := {
  filter_enabled : bool;
  min_length : Z;
  compiled_patterns : gmap (list N) (list pystr)
}.

(** The patterns registered under a language code, none if the code is
    unknown. *)
Definition registered (f : HallucinationFilter) (code : pystr) : list pystr :=
  default [] (compiled_patterns f !! code).

Definition any_match (patterns : list pystr) (text_lower : pystr) : bool :=
  existsb (fun pattern => re_match pattern text_lower) patterns.

(** [HallucinationFilter.is_hallucination]; [language] is whatever the
    backend sent, and anything but a [str] has no [split]. *)
Definition is_hallucination (f : HallucinationFilter) (text : pystr)
    (language : pyval) : res bool :=
  if negb (filter_enabled f) then Ok false
  else if negb (truthy text) || (Z.of_nat (length (strip text)) =? 0) then Ok true
  else
    let text_lower := strip (str_lower text) in
    if Z.of_nat (length text_lower) <? min_length f then Ok true
    else
      match language with
      | VStr language =>
          let lang_code := hd [] (split 45 language) in
          if match compiled_patterns f !! lang_code with
             | Some patterns => any_match patterns text_lower
             | None => false
             end
          then Ok true
          else
            match compiled_patterns f !! str "common" with
            | Some patterns => Ok (any_match patterns text_lower)
            | None => Ok false
            end
      | _ => Raise AttributeError
      end.

(** ** Audio processing *)

Record AudioBuffer : Type := {
  sample_rate : Z;
  buffer : list byte;
  client_id : option pystr;
  language : pystr
}.

Definition AudioBuffer_init (sample_rate : Z) : AudioBuffer :=
  {| sample_rate := sample_rate; buffer := [];
     client_id := None; language := str "en" |}.

Definition with_buffer (ab : AudioBuffer) (b : list byte) : AudioBuffer :=
  {| sample_rate := sample_rate ab; buffer := b;
     client_id := client_id ab; language := language ab |}.

Definition add_chunk (ab : AudioBuffer) (audio_data : list byte) : AudioBuffer :=
  with_buffer ab (buffer ab ++ audio_data).

Definition clear (ab : AudioBuffer) : AudioBuffer := with_buffer ab [].

Definition len (b : list byte) : Z := Z.of_nat (length b).

(** [(num_samples / self.sample_rate) * 1000] *)
Definition get_duration_ms (ab : AudioBuffer) : res float :=
  let num_samples := len (buffer ab) / 2 in
  q <- int_true_div num_samples (sample_rate ab) ;;;
  Ok (float_mul q (float_of_int 1000)).

(** One ['h'] item: two octets as a signed 16-bit value, low octet first,
    the native order of a little-endian machine. *)
Definition int16_le (lo hi : byte) : Z :=
  let u := Z.of_N (Byte.to_N lo) + 256 * Z.of_N (Byte.to_N hi) in
  if u <? 32768 then u else u - 65536.

Fixpoint unpack_pairs (data : list byte) : list Z :=
  match data with
  | lo :: hi :: r => int16_le lo hi :: unpack_pairs r
  | _ => []
  end.

(** [struct.unpack(f'{count}h', data)]: the data must be exactly [count]
    items long. *)
Definition struct_unpack_h (count : Z) (data : list byte) : res (list Z) :=
  if len data =? 2 * count then Ok (unpack_pairs data) else Raise StructError.

Definition sum_of_squares (samples : list Z) : Z :=
  fold_right (fun s acc => s * s + acc) 0 samples.

(** [x ** 0.5]: CPython answers a zero base itself and leaves the rest to
    the C library. *)
Definition float_pow_half (x : float) : float :=
  match x with
  | S754_zero _ => S754_zero false
  | _ => libm_pow_half x
  end.

Definition get_rms_energy (ab : AudioBuffer) : pynum :=
  if len (buffer ab) <? 2 then PyInt 0
  else
    match
      (samples <- struct_unpack_h (len (buffer ab) / 2) (buffer ab) ;;;
       let sum_squares := sum_of_squares samples in
       mean <- int_true_div sum_squares (Z.of_nat (length samples)) ;;;
       Ok (float_pow_half mean))
    with
    | Ok rms => PyFloat rms
    | Raise _ => PyInt 0
    end.

Definition byte_of (z : Z) : byte :=
  default x00 (Byte.of_N (Z.to_N (z mod 256))).

Definition le16 (z : Z) : list byte := [byte_of z; byte_of (z / 256)].

Definition le32 (z : Z) : list byte :=
  [byte_of z; byte_of (z / 256); byte_of (z / 65536); byte_of (z / 16777216)].

(** The [wave] module's writer for one channel of 16-bit frames: a 44-byte
    RIFF header whose length fields are patched to the bytes written. *)
Definition wave_write (framerate : Z) (frames : list byte) : res (list byte) :=
  if framerate <=? 0 then Raise WaveError
  else if (4294967295 <? 2 * framerate) || (4294967295 <? 36 + len frames)
  then Raise StructError
  else Ok (bytes_lit "RIFF" ++ le32 (36 + len frames)
           ++ bytes_lit "WAVEfmt " ++ le32 16 ++ le16 1 ++ le16 1
           ++ le32 framerate ++ le32 (2 * framerate) ++ le16 2 ++ le16 16
           ++ bytes_lit "data" ++ le32 (len frames) ++ frames).

Definition to_wav (ab : AudioBuffer) : res (option (list byte)) :=
  if len (buffer ab) =? 0 then Ok None
  else
    wav <- wave_write (sample_rate ab) (buffer ab) ;;;
    Ok (Some wav).

(** ** Whisper transcription *)

Record WhisperClient : Type := {
  url : pystr;
  timeout : pynum;
  auto_detect_code : pystr;
  default_language : pystr;
  silence_threshold : pynum;
  filter : HallucinationFilter
}.

(** What [requests.post] is given. *)
Record request : Type := {
  req_url : pystr;
  req_file : list byte;
  req_data : list (pystr * pystr);
  req_timeout : pynum
}.

(** What the backend does with one request: [requests.post] raises, or a
    response arrives whose [json()] gives a value or raises. *)
Inductive request_error : Set :=
| ConnectionFailure
| RequestTimeout
| OtherRequestError.

Inductive http_reply : Type :=
| PostRaised (e : request_error)
| Response (status_code : Z) (json : option pyval).

(** The inner [sync_request]: its [try] turns every exception into [None]. *)
Definition sync_request (reply : http_reply) : pyval :=
  match reply with
  | PostRaised _ => VNone
  | Response status_code json =>
      if status_code =? 200
      then match json with
           | Some v => v
           | None => VNone
           end
      else VNone
  end.

(** A payload the bridge cannot read a text from: not a JSON object, or an
    object whose ["text"] is not a string. *)
Definition malformed_payload (v : pyval) : bool :=
  match v with
  | VDict d =>
      match dict_lookup (str "text") d with
      | Some (VStr _) | None => false
      | Some _ => true
      end
  | _ => true
  end.

(** The ways a backend request fails: no response (connection failure,
    timeout), a status other than 200, a body that is not JSON, a malformed
    payload. *)
Definition backend_failed (reply : http_reply) : bool :=
  match reply with
  | PostRaised _ => true
  | Response status_code json =>
      negb (status_code =? 200)
      || match json with
         | None => true
         | Some v => malformed_payload v
         end
  end.

(** A JSON object without a ["text"] entry: read as an empty text. *)
Definition lacks_text (reply : http_reply) : bool :=
  match reply with
  | Response status_code (Some (VDict d)) =>
      (status_code =? 200)
      && match dict_lookup (str "text") d with
         | None => true
         | Some _ => false
         end
  | _ => false
  end.

(** The part of [transcribe] after the request has returned. *)
Definition read_result (wc : WhisperClient) (detect_language : pystr)
    (result : pyval) : res (option pystr) :=
  if py_truthy result then
    match result with
    | VDict d =>
        match dict_get (str "text") d (VStr []) with
        | VStr t =>
            let text := strip t in
            let detected_lang := dict_get (str "language") d (VStr detect_language) in
            hallucination <- is_hallucination (filter wc) text detected_lang ;;;
            if hallucination then Ok None else Ok (Some text)
        | _ => Raise AttributeError
        end
    | _ => Raise AttributeError
    end
  else Ok None.

(** [except Exception: return None] *)
Definition or_none (r : res (option pystr)) : option pystr :=
  match r with
  | Ok v => v
  | Raise _ => None
  end.

Definition form_data (language_param : option pystr) : list (pystr * pystr) :=
  [(str "temperature", str "0.0"); (str "response-format", str "json")]
  ++ match language_param with
     | Some l => if truthy l then [(str "language", l)] else []
     | None => []
     end.

(** [WhisperClient.transcribe]: the text or [None], and the requests sent
    to the backend on the way. [reply] is what the backend answers if it is
    asked. *)
Definition transcribe (wc : WhisperClient) (audio_buffer : AudioBuffer)
    (reply : http_reply) : option pystr * list request :=
  let energy := get_rms_energy audio_buffer in
  if py_lt energy (silence_threshold wc) then (None, [])
  else
    match to_wav audio_buffer with
    | Raise _ => (None, [])
    | Ok None => (None, [])
    | Ok (Some wav_bytes) =>
        let language :=
          if truthy (language audio_buffer)
          then hd [] (split 45 (language audio_buffer))
          else default_language wc in
        let language_param :=
          if eqb language (auto_detect_code wc) then None else Some language in
        let detect_language := language in
        let sent := {| req_url := url wc; req_file := wav_bytes;
                       req_data := form_data language_param;
                       req_timeout := timeout wc |} in
        let result := sync_request reply in
        (or_none (read_result wc detect_language result), [sent])
    end.

(** ** WebSocket handler *)

Inductive message : Type :=
| Binary (data : list byte)
| Text (s : pystr).

Record session : Type := {
  audio_buffer : AudioBuffer;
  message_count : Z;
  transcript_count : Z;
  last_transcript : pystr
}.

Definition session_init (cfg : Config) : session :=
  {| audio_buffer := AudioBuffer_init (whisper_sample_rate cfg);
     message_count := 0; transcript_count := 0; last_transcript := [] |}.

Definition with_audio (s : session) (ab : AudioBuffer) : session :=
  {| audio_buffer := ab; message_count := message_count s;
     transcript_count := transcript_count s;
     last_transcript := last_transcript s |}.

Definition count_message (s : session) : session :=
  {| audio_buffer := audio_buffer s; message_count := message_count s + 1;
     transcript_count := transcript_count s;
     last_transcript := last_transcript s |}.

Definition accept_transcript (s : session) (text : pystr) : session :=
  {| audio_buffer := audio_buffer s; message_count := message_count s;
     transcript_count := transcript_count s + 1;
     last_transcript := text |}.

Definition of_client_id (c : option pystr) : pyval :=
  match c with
  | Some p => VStr p
  | None => VNone
  end.

Definition final_response (c : option pystr) (text : pystr) : pyval :=
  VDict [(str "type", VStr (str "final"));
         (str "participant_id", of_client_id c);
         (str "text", VStr text);
         (str "variance", VFloat (S754_zero false))].

Definition partial_response (c : option pystr) : pyval :=
  VDict [(str "type", VStr (str "partial"));
         (str "participant_id", of_client_id c);
         (str "text", VStr []);
         (str "variance", VFloat (float_of_int 1))].

(** The header of a frame: ["CLIENT_ID|LANGUAGE"], NUL or space padded. *)
Definition header_parts (data : list byte) : list pystr :=
  let header_bytes := take 60 data in
  let header := rstrip_chars [0%N; 32%N] (Utf8.decode_ignore header_bytes) in
  split 124 header.

Definition parse_header (ab : AudioBuffer) (data : list byte) : AudioBuffer :=
  let parts := header_parts data in
  if 2 <=? Z.of_nat (length parts) then
    let participant_id := strip (nth 0 parts []) in
    {| sample_rate := sample_rate ab; buffer := buffer ab;
       client_id := Some participant_id;
       language := strip (nth 1 parts []) |}
  else ab.

Definition buffer_audio (ab : AudioBuffer) (data : list byte) : AudioBuffer :=
  let audio_data := drop 60 data in
  if 0 <? len audio_data then add_chunk ab audio_data else ab.

(** A frame of 60 bytes or more arrives: header, then payload. *)
Definition receive (s : session) (data : list byte) : session :=
  with_audio s (buffer_audio (parse_header (audio_buffer s) data) data).

(** The response chosen for a transcription result. *)
Definition respond (s : session) (text : option pystr) : session * pyval :=
  match text with
  | Some t =>
      if truthy t && negb (eqb t (last_transcript s))
      then (accept_transcript s t, final_response (client_id (audio_buffer s)) t)
      else (s, partial_response (client_id (audio_buffer s)))
  | None => (s, partial_response (client_id (audio_buffer s)))
  end.

(** What handling messages did: the session afterwards, the responses
    handed to [websocket.send], the results [transcribe] returned, the
    backend requests made, and the exception, if one left the loop body. *)
Record step : Type := {
  after : session;
  sent : list pyval;
  texts : list (option pystr);
  calls : list request;
  raised : option exn
}.

Definition quiet (s : session) : step :=
  {| after := s; sent := []; texts := []; calls := []; raised := None |}.

Definition failed (s : session) (e : exn) : step :=
  {| after := s; sent := []; texts := []; calls := []; raised := Some e |}.

(** A drain: transcribe the chunk, hand the response to [websocket.send],
    clear the buffer. [sent] is what was handed over. The handler re-raises
    a send that fails, before the buffer is cleared, and the session ends:
    what the send does is the connection's doing, and a run ends at a send
    that fails. *)
Definition drain (wc : WhisperClient) (s : session) (reply : http_reply) : step :=
  let '(text, requests) := transcribe wc (audio_buffer s) reply in
  let '(s', response) := respond s text in
  {| after := with_audio s' (clear (audio_buffer s'));
     sent := [response]; texts := [text]; calls := requests; raised := None |}.

(** "Process when threshold reached". *)
Definition process_threshold (cfg : Config) (wc : WhisperClient)
    (s : session) (reply : http_reply) : step :=
  match get_duration_ms (audio_buffer s) with
  | Raise e => failed s e
  | Ok duration =>
      if py_ge (PyFloat duration) (whisper_chunk_duration_ms cfg)
      then drain wc s reply
      else quiet s
  end.

(** One turn of the [async for message in websocket] loop. *)
Definition handle_message (cfg : Config) (wc : WhisperClient)
    (s : session) (m : message) (reply : http_reply) : step :=
  let s := count_message s in
  match m with
  | Binary data =>
      if len data <? 60 then quiet s
      else process_threshold cfg wc (receive s data) reply
  | Text _ => quiet s
  end.

(** The session over the messages that arrive, each paired with the
    backend's answer should the message lead to a request. The loop ends
    with the messages, or at the first exception. [websocket.send] is taken
    to deliver: a send that fails ends the session there, as a connection
    that closes does. *)
Fixpoint run_session (cfg : Config) (wc : WhisperClient) (s : session)
    (events : list (message * http_reply)) : step :=
  match events with
  | [] => quiet s
  | (m, reply) :: rest =>
      let st := handle_message cfg wc s m reply in
      match raised st with
      | Some _ => st
      | None =>
          let st' := run_session cfg wc (after st) rest in
          {| after := after st'; sent := sent st ++ sent st';
             texts := texts st ++ texts st';
             calls := calls st ++ calls st'; raised := raised st' |}
      end
  end.

(** The connection as [handle_client] sees it on entry. *)
Record connection : Type := {
  authorization : option pystr;
  path : pystr
}.

Inductive outcome : Type :=
| Closed (code : Z) (reason : pystr)
| Served (log : step).

(** The JWT gate: [Some] close reason when the connection is turned away. *)
Definition authenticate (jwt_auth : JWTAuthenticator) (conn : connection)
    : option outcome :=
  if jwt_enabled jwt_auth then
    let auth_header := default [] (authorization conn) in
    if negb (startswith (str "Bearer ") auth_header)
    then Some (Closed 1008 (str "Unauthorized - Missing Bearer token"))
    else
      let token := strip (replace_empty (str "Bearer ") auth_header) in
      match verify jwt_auth token with
      | None => Some (Closed 1008 (str "Unauthorized - Invalid token"))
      | Some [] => Some (Closed 1008 (str "Unauthorized - Invalid token"))
      | Some (_ :: _) => None
      end
  else None.

Definition handle_client (cfg : Config) (jwt_auth : JWTAuthenticator)
    (wc : WhisperClient) (conn : connection)
    (events : list (message * http_reply)) : outcome :=
  match authenticate jwt_auth conn with
  | Some closed => closed
  | None =>
      if negb (startswith (str "/streaming-whisper/ws/") (path conn))
      then Closed 1008 (str "Invalid path")
      else Served (run_session cfg wc (session_init cfg) events)
  end.

End Bridge.

(** The text of a response of type ["final"]. *)
Definition final_text (r : pyval) : option pystr :=
  match field "type" r, field "text" r with
  | Some (VStr ty), Some (VStr t) => if eqb ty (str "final") then Some t else None
  | _, _ => None
  end.

Definition same_final (r1 r2 : pyval) : bool :=
  match final_text r1, final_text r2 with
  | Some a, Some b => eqb a b
  | _, _ => false
  end.

(** No two responses in a row are finals with the same text. *)
Fixpoint no_repeated_final (l : list pyval) : bool :=
  match l with
  | [] => true
  | r1 :: tl =>
      match tl with
      | [] => true
      | r2 :: _ => negb (same_final r1 r2)
      end && no_repeated_final tl
  end.

(** The energy in the words of the specification: the samples are the
    complete 16-bit words of the buffer, low byte first, each read in two's
    complement, and the energy is the root of the mean of their squares. *)
Definition sample_value (lo hi : byte) : Z :=
  let word := Z.of_N (Byte.to_N lo) + 256 * Z.of_N (Byte.to_N hi) in
  if Z.testbit word 15 then word - 65536 else word.

Fixpoint complete_samples (data : list byte) : list Z :=
  match data with
  | lo :: hi :: rest => sample_value lo hi :: complete_samples rest
  | _ => []
  end.

Definition square_sum (samples : list Z) : Z :=
  fold_left (fun total v => total + v * v) samples 0.

(** The messages that carry no usable header: text frames, frames shorter
    than the header, and frames whose header does not split in two. *)
Inductive sets_no_participant : message -> Prop :=
| text_frame (t : pystr) : sets_no_participant (Text t)
| short_frame (data : list byte) :
    len data < 60 -> sets_no_participant (Binary data)
| malformed_header (data : list byte) :
    (length (header_parts data) < 2)%nat -> sets_no_participant (Binary data).

(** A message that sets the participant: a binary frame of at least 60
    bytes whose header splits into at least two fields. What the first 59
    bytes of a shorter frame hold does not count. *)
Definition sets_participant (m : message) : bool :=
  match m with
  | Binary data =>
      (60 <=? len data) && (2 <=? Z.of_nat (length (header_parts data)))
  | Text _ => false
  end.

(** ** A host to run the bridge on

    Test doubles for the library code: the correctly rounded square root
    for [pow(x, 0.5)], ASCII lower-casing, a matcher for the regular
    expressions of the default pattern table (literals, escapes, [.],
    bracket sets, [*], [^] and [$]), and a token check that knows three
    tokens. *)

Module SampleHost.

Inductive atom : Type :=
| ALit (c : N)
| ASpace
| ADot
| ASet (members : list atom).

Inductive item : Type :=
| Bol
| Eol
| One (a : atom)
| Star (a : atom).

Definition fold_case (c : N) : N :=
  if ((65 <=? c) && (c <=? 90))%N then (c + 32)%N else c.

Definition is_alnum (c : N) : bool :=
  let c := fold_case c in
  (((48 <=? c) && (c <=? 57)) || ((97 <=? c) && (c <=? 122)))%N.

(** An escape: [\s], or a punctuation character standing for itself. *)
Definition escape (c : N) : option atom :=
  if (c =? 115)%N then Some ASpace
  else if is_alnum c then None
  else Some (ALit c).

(** The inside of a bracket set, up to the closing bracket; ranges and
    negation are not supported. *)
Fixpoint parse_set (s : pystr) : option (list atom * pystr) :=
  match s with
  | [] => None
  | 93%N :: r => Some ([], r)
  | 92%N :: r =>
      match r with
      | [] => None
      | c :: r' =>
          match escape c, parse_set r' with
          | Some a, Some (ms, rest) => Some (a :: ms, rest)
          | _, _ => None
          end
      end
  | c :: r =>
      if ((c =? 45) || (c =? 94))%N then None
      else match parse_set r with
           | Some (ms, rest) => Some (ALit c :: ms, rest)
           | None => None
           end
  end.

Definition quantify (a : atom) (rest : pystr) : item * pystr :=
  match rest with
  | 42%N :: rest' => (Star a, rest')
  | _ => (One a, rest)
  end.

Definition is_operator (c : N) : bool :=
  existsb (N.eqb c) [40; 41; 42; 43; 63; 123; 124; 125; 93]%N.

Fixpoint parse (fuel : nat) (s : pystr) : option (list item) :=
  match fuel with
  | O => match s with [] => Some [] | _ => None end
  | S fuel' =>
      match s with
      | [] => Some []
      | c :: r =>
          let continue '(it, rest) := option_map (cons it) (parse fuel' rest) in
          if (c =? 94)%N then continue (Bol, r)
          else if (c =? 36)%N then continue (Eol, r)
          else if (c =? 46)%N then continue (quantify ADot r)
          else if (c =? 92)%N then
            match r with
            | [] => None
            | e :: r' =>
                match escape e with
                | Some a => continue (quantify a r')
                | None => None
                end
            end
          else if (c =? 91)%N then
            match parse_set r with
            | Some (ms, rest) => continue (quantify (ASet ms) rest)
            | None => None
            end
          else if is_operator c then None
          else continue (quantify (ALit c) r)
      end
  end.

Fixpoint atom_matches (a : atom) (c : N) : bool :=
  match a with
  | ALit p => (fold_case p =? fold_case c)%N
  | ASpace => isspace c
  | ADot => negb (c =? 10)%N
  | ASet ms => existsb (fun m => atom_matches m c) ms
  end.

(** Does a prefix of [s] match the items? [at_start] says whether [s] is
    still the whole subject. *)
Fixpoint match_items (items : list item) : bool -> pystr -> bool :=
  match items with
  | [] => fun _ _ => true
  | Bol :: rest => fun at_start s => at_start && match_items rest at_start s
  | Eol :: rest => fun at_start s =>
      match s with
      | [] | [10%N] => match_items rest at_start s
      | _ => false
      end
  | One a :: rest => fun _ s =>
      match s with
      | c :: s' => atom_matches a c && match_items rest false s'
      | [] => false
      end
  | Star a :: rest =>
      fix star (at_start : bool) (s : pystr) {struct s} : bool :=
        match_items rest at_start s
        || match s with
           | c :: s' => atom_matches a c && star false s'
           | [] => false
           end
  end.

Definition sample_match (pattern text : pystr) : bool :=
  match parse (length pattern) pattern with
  | Some items => match_items items true text
  | None => false
  end.

Definition sample_jwt (token : pystr) (key : option pystr) (aud : pystr)
    : jwt_outcome :=
  if eqb token (str "valid-token")
  then JwtPayload [(str "iss", VStr (str "jitsi")); (str "aud", VStr aud)]
  else if eqb token (str "expired-token") then ExpiredSignatureError
  else if eqb token (str "other-audience") then InvalidAudienceError
  else InvalidTokenError.

Definition host : Host :=
  {| libm_pow_half := SFsqrt prec emax;
     str_lower := map fold_case;
     re_match := sample_match;
     jwt_decode := sample_jwt |}.

End SampleHost.

(** ** The default configuration *)

Definition tail_class : string := "[\s!.]*$".

Definition default_patterns : gmap (list N) (list pystr) :=
  list_to_map
    [(str "en", [str "^thank you[\s!.]*$"; str "^thanks[\s!.]*$"]);
     (str "de", [str "^danke[\s!.]*$"; str "^vielen dank[\s!.]*$"]);
     (str "fr", [str "^merci[\s!.]*$"]);
     (str "es", [str "^gracias[\s!.]*$"]);
     (str "nl", [str "^dank je[\s!.]*$"; str "^bedankt[\s!.]*$";
                 str "^dank u wel[\s!.]*$"]);
     (str "sk", [str "^" ++ [0x10F%N] ++ str "akujem[\s!.]*$"]);
     (str "pl", [str "^dziekuje.[\s!.]*$"]);
     (str "sv", [str "^tack[\s!.]*$"]);
     (str "cn", [str "^" ++ [0x8C22%N; 0x8C22%N] ++ str tail_class;
                 str "^" ++ [0x591A%N; 0x8C22%N] ++ str tail_class]);
     (str "common",
      [str "^thanks for watching[\s!.]*$";
       str "^please subscribe[\s!.]*$";
       str "^like and subscribe[\s!.]*$";
       str "^\[music\][\s.]*$";
       str "^\[applause\][\s.]*$";
       str "^subtitles by[\s.]*$";
       str "^www\..*\.com[\s.]*$";
       str "^off[\s.]*$"])].

Definition default_filter : HallucinationFilter :=
  {| filter_enabled := true; min_length := 3;
     compiled_patterns := default_patterns |}.

Definition default_whisper : WhisperClient :=
  {| url := str "http://localhost:8080/inference";
     timeout := PyInt 30;
     auto_detect_code := str "auto";
     default_language := str "en";
     silence_threshold := PyInt 50;
     filter := default_filter |}.

Definition default_config : Config :=
  {| whisper_sample_rate := 16000; whisper_chunk_duration_ms := PyInt 3000 |}.

Definition default_jwt : JWTAuthenticator :=
  {| jwt_enabled := true; audience := str "whisper-service";
     public_key := Some (str "-----BEGIN PUBLIC KEY-----") |}.

(** ** Sample traffic *)

(** A 60-byte header: the text, NUL padded. *)
Definition header_of (text : string) : list byte :=
  take 60 (bytes_lit text ++ repeat x00 60).

(** [n] samples of value [0x1000]. *)
Definition tone (n : Z) : list byte :=
  concat (repeat [x00; x10] (Z.to_nat n)).

(** The backend's JSON answer with a text and a language. *)
Definition answer (text language : string) : http_reply :=
  Response 200 (Some (VDict [(str "text", VStr (str text));
                             (str "language", VStr (str language))])).

(** One second at 16 kHz: the chunk of the end-to-end scenarios. *)
Definition second_config : Config :=
  {| whisper_sample_rate := 16000; whisper_chunk_duration_ms := PyInt 1000 |}.

(** A threshold of 1001 ms at 16 kHz: 16016 samples. *)
Definition odd_config : Config :=
  {| whisper_sample_rate := 16000; whisper_chunk_duration_ms := PyInt 1001 |}.

(** A frame from alice, speaking English, with [n] samples. *)
Definition alice_frame (n : Z) : message :=
  Binary (header_of "alice|en-US" ++ tone n).

(** A frame whose header has no separator. *)
Definition nameless_frame (n : Z) : message :=
  Binary (header_of "no separator here" ++ tone n).

Definition hello : http_reply := answer "hello world" "en".

Definition silence (n : nat) : AudioBuffer :=
  {| sample_rate := 16000; buffer := repeat x00 n;
     client_id := None; language := str "en" |}.

Definition no_auth : JWTAuthenticator :=
  {| jwt_enabled := false; audience := str "whisper-service";
     public_key := None |}.

Definition bearer (token : string) : connection :=
  {| authorization := Some (str "Bearer " ++ str token);
     path := str "/streaming-whisper/ws/meeting1" |}.

(** ** Session accounting *)

(** Is the response of type ["final"]? *)
Definition is_final (r : pyval) : bool :=
  match final_text r with
  | Some _ => true
  | None => false
  end.

(** How many of the responses are finals. *)
Definition finals (l : list pyval) : Z := Z.of_nat (length (List.filter is_final l)).

(** The audio bytes a message brings: what follows the header. *)
Definition payload (m : message) : Z :=
  match m with
  | Binary data => len (drop 60 data)
  | Text _ => 0
  end.

Definition received (events : list (message * http_reply)) : Z :=
  fold_right (fun ev total => payload ev.1 + total) 0 events.

(** Would the threshold check drain this buffer? *)
Definition chunk_ready (cfg : Config) (ab : AudioBuffer) : bool :=
  match get_duration_ms ab with
  | Ok duration => py_ge (PyFloat duration) (whisper_chunk_duration_ms cfg)
  | Raise _ => false
  end.

(** The language [transcribe] settles on before it asks the backend. *)
Definition resolved_language (wc : WhisperClient) (ab : AudioBuffer) : pystr :=
  if truthy (language ab) then hd [] (split 45 (language ab))
  else default_language wc.

(** The text of the most recent final response, if any. *)
Definition last_final (l : list pyval) : option pystr :=
  fold_left (fun found r => match final_text r with
                            | Some t => Some t
                            | None => found
                            end) l None.

(** ** Configuration

    A configuration is the [dict] that [yaml.safe_load] and [DEFAULT_CONFIG]
    give: sections of settings. Keys that are not strings cannot be reached
    by a dotted path and are left out. *)

Definition DEFAULT_CONFIG : pydict :=
  [(str "server",
    VDict [(str "host", VStr (str "127.0.0.1"));
           (str "port", VInt 9000);
           (str "ping_interval", VInt 20);
           (str "ping_timeout", VInt 20);
           (str "max_size", VInt 10485760)]);
   (str "whisper",
    VDict [(str "url", VStr (str "http://localhost:8080/inference"));
           (str "timeout", VInt 30);
           (str "sample_rate", VInt 16000);
           (str "chunk_duration_ms", VInt 3000);
           (str "silence_threshold", VInt 50)]);
   (str "jwt",
    VDict [(str "enabled", VBool true);
           (str "public_key_path",
            VStr (str "/etc/whisper-bridge/whisper-public-key.pem"));
           (str "audience", VStr (str "whisper-service"))]);
   (str "language",
    VDict [(str "auto_detect_code", VStr (str "auto"));
           (str "default", VStr (str "en"))]);
   (str "hallucination_filter",
    VDict [(str "enabled", VBool true);
           (str "min_length", VInt 3);
           (str "patterns",
            VDict [(str "en", VList [VStr (str "^thank you[\s!.]*$");
                                     VStr (str "^thanks[\s!.]*$")]);
                   (str "de", VList [VStr (str "^danke[\s!.]*$");
                                     VStr (str "^vielen dank[\s!.]*$")]);
                   (str "fr", VList [VStr (str "^merci[\s!.]*$")]);
                   (str "es", VList [VStr (str "^gracias[\s!.]*$")]);
                   (str "nl", VList [VStr (str "^dank je[\s!.]*$");
                                     VStr (str "^bedankt[\s!.]*$");
                                     VStr (str "^dank u wel[\s!.]*$")]);
                   (str "sk", VList [VStr (str "^" ++ [0x10F%N]
                                           ++ str "akujem[\s!.]*$")]);
                   (str "pl", VList [VStr (str "^dziekuje.[\s!.]*$")]);
                   (str "sv", VList [VStr (str "^tack[\s!.]*$")]);
                   (str "cn", VList [VStr (str "^" ++ [0x8C22%N; 0x8C22%N]
                                           ++ str tail_class);
                                     VStr (str "^" ++ [0x591A%N; 0x8C22%N]
                                           ++ str tail_class)]);
                   (str "common",
                    VList [VStr (str "^thanks for watching[\s!.]*$");
                           VStr (str "^please subscribe[\s!.]*$");
                           VStr (str "^like and subscribe[\s!.]*$");
                           VStr (str "^\[music\][\s.]*$");
                           VStr (str "^\[applause\][\s.]*$");
                           VStr (str "^subtitles by[\s.]*$");
                           VStr (str "^www\..*\.com[\s.]*$");
                           VStr (str "^off[\s.]*$")])])])].

(** The loop of [Config.get] over the keys of a path. *)
Fixpoint walk (keys : list pystr) (value : pyval) (dflt : pyval) : pyval :=
  match keys with
  | [] => value
  | key :: rest =>
      match value with
      | VDict d =>
          match dict_get key d VNone with
          | VNone => dflt
          | found => walk rest found dflt
          end
      | _ => dflt
      end
  end.

(** [Config(data).get(path, dflt)] *)
Definition Config_get (data : pydict) (path : pystr) (dflt : pyval) : pyval :=
  walk (split 46 path) (VDict data) dflt.

(** [key in d] *)
Definition contains (key : pystr) (d : pydict) : bool :=
  match dict_lookup key d with
  | Some _ => true
  | None => false
  end.

(** [d[key] = value]: an entry keeps its place, a new key goes last. *)
Fixpoint dict_set (key : pystr) (value : pyval) (d : pydict) : pydict :=
  match d with
  | [] => [(key, value)]
  | (k, v) :: r =>
      if eqb k key then (k, value) :: r else (k, v) :: dict_set key value r
  end.

(** [_deep_merge(base, update)] for an [update] that is a [dict]; the
    changed [base] is returned. *)
Fixpoint merge_into (update : pyval) (base : pydict) {struct update} : pydict :=
  match update with
  | VDict items =>
      (fix each (items : pydict) (base : pydict) {struct items} : pydict :=
         match items with
         | [] => base
         | (key, value) :: rest =>
             each rest
               match dict_lookup key base, value with
               | Some (VDict sub), VDict _ =>
                   dict_set key (VDict (merge_into value sub)) base
               | _, _ => dict_set key value base
               end
         end) items base
  | _ => base
  end.

Definition deep_merge (base update : pydict) : pydict :=
  merge_into (VDict update) base.

(** One turn of the loop of [_deep_merge]. *)
Definition merge_entry (base : pydict) (key : pystr) (value : pyval) : pydict :=
  match dict_lookup key base, value with
  | Some (VDict sub), VDict u => dict_set key (VDict (deep_merge sub u)) base
  | _, _ => dict_set key value base
  end.

(** [_deep_merge(base, update)]: anything but a [dict] has no [items]. *)
Definition _deep_merge (base : pydict) (update : pyval) : res pydict :=
  match update with
  | VDict items => Ok (deep_merge base items)
  | _ => Raise AttributeError
  end.

(** What [load_config] finds at a path: nothing, a file that cannot be
    opened or is not YAML, or a YAML document. *)
Inductive config_file : Type :=
| NoSuchFile
| Unreadable
| Document (user_config : pyval).

(** [load_config(config_path)], the [dict] of the [Config] it returns. The
    copy of [DEFAULT_CONFIG] is shallow, so a merge also changes the
    sections of [DEFAULT_CONFIG] itself; nothing reads them afterwards. *)
Definition load_config (files : pystr -> config_file)
    (config_path : option pystr) : pydict :=
  let config := DEFAULT_CONFIG in
  match config_path with
  | Some p =>
      if truthy p then
        match files p with
        | NoSuchFile => config
        | Unreadable => config
        | Document user_config =>
            match _deep_merge config user_config with
            | Ok merged => merged
            | Raise _ => config
            end
        end
      else config
  | None => config
  end.

(** ** Command line *)

Record arguments : Type := {
  arg_config : pystr;
  arg_host : option pystr;
  arg_port : option Z;
  arg_whisper_url : option pystr;
  arg_no_jwt : bool
}.

(** What can end [main] before the server starts; [OtherError] stands for
    an exception of any other class. *)
Inductive startup_error : Set :=
| KeyError
| TypeError
| ValueError
| FileNotFoundError
| OtherError.

(** [data[section][key] = value] *)
Definition set_item (data : pydict) (section key : pystr) (value : pyval)
    : pydict + startup_error :=
  match dict_lookup section data with
  | None => inr KeyError
  | Some (VDict d) => inl (dict_set section (VDict (dict_set key value d)) data)
  | Some _ => inr TypeError
  end.

Definition override (given : bool) (section key : pystr) (value : pyval)
    (data : pydict + startup_error) : pydict + startup_error :=
  match data with
  | inl d => if given then set_item d section key value else inl d
  | inr e => inr e
  end.

(** The overrides [main] applies to the loaded configuration. *)
Definition apply_overrides (data : pydict) (args : arguments)
    : pydict + startup_error :=
  let host := default [] (arg_host args) in
  let port := default 0 (arg_port args) in
  let whisper_url := default [] (arg_whisper_url args) in
  override (arg_no_jwt args) (str "jwt") (str "enabled") (VBool false)
    (override (truthy whisper_url) (str "whisper") (str "url") (VStr whisper_url)
       (override (negb (port =? 0)) (str "server") (str "port") (VInt port)
          (override (truthy host) (str "server") (str "host") (VStr host)
             (inl data)))).

(** The configuration [main] starts the components with. *)
Definition main_config (files : pystr -> config_file) (args : arguments)
    : pydict + startup_error :=
  apply_overrides (load_config files (Some (arg_config args))) args.

(** The setting under [section.key], as stored. *)
Definition setting (data : pydict) (section key : pystr) : option pyval :=
  match dict_lookup section data with
  | Some (VDict d) => dict_lookup key d
  | _ => None
  end.

(** ** Reading a WAV header *)

(** [int.from_bytes(bs, 'little')] *)
Definition int_from_bytes (bs : list byte) : Z :=
  fold_right (fun b acc => Z.of_N (Byte.to_N b) + 256 * acc) 0 bs.

(** ** Starting the authenticator *)

(** What [open(key_path).read()] does: it gives the text of the file or
    raises, FileNotFoundError for a file that is not there, ValueError for a
    path with a NUL in it or a file that is not text, TypeError for a path
    that is no path, and so on. *)
Inductive key_file : Type :=
| KeyRaises (e : startup_error)
| KeyText (text : pystr).

(** The attributes [JWTAuthenticator.__init__] sets, as the configuration
    has them. *)
Record authenticator : Type := {
  auth_enabled : pyval;
  auth_audience : pyval;
  auth_public_key : option pystr
}.

Definition JWTAuthenticator_init (config : pydict)
    (open_key : pyval -> key_file) : authenticator + startup_error :=
  let enabled := Config_get config (str "jwt.enabled") (VBool true) in
  let audience :=
    Config_get config (str "jwt.audience") (VStr (str "whisper-service")) in
  if py_truthy enabled then
    let key_path := Config_get config (str "jwt.public_key_path") VNone in
    if negb (py_truthy key_path) then inr ValueError
    else
      match open_key key_path with
      | KeyRaises e => inr e
      | KeyText text =>
          inl {| auth_enabled := enabled; auth_audience := audience;
                 auth_public_key := Some text |}
      end
  else inl {| auth_enabled := enabled; auth_audience := audience;
              auth_public_key := None |}.

(** The authenticator as [verify] and [handle_client] use it: [enabled] by
    its truth value, the audience a string. *)
Definition as_JWTAuthenticator (a : authenticator) : option JWTAuthenticator :=
  match auth_audience a with
  | VStr aud =>
      Some {| jwt_enabled := py_truthy (auth_enabled a); audience := aud;
              public_key := auth_public_key a |}
  | _ => None
  end.

(** A client whose hallucination filter is switched off. *)
Definition unfiltered_whisper : WhisperClient :=
  {| url := str "http://localhost:8080/inference";
     timeout := PyInt 30;
     auto_detect_code := str "auto";
     default_language := str "en";
     silence_threshold := PyInt 50;
     filter := {| filter_enabled := false; min_length := 3;
                  compiled_patterns := default_patterns |} |}.

(** Four samples of value [0x1000]: a chunk that is not silent. *)
Definition loud : AudioBuffer :=
  {| sample_rate := 16000; buffer := tone 4;
     client_id := None; language := str "en" |}.

(** The backend answers 200 with a JSON object that has no text. *)
Definition no_text_answer : http_reply :=
  Response 200 (Some (VDict [(str "language", VStr (str "en"))])).

(** * Properties *)

Section Properties.

Context `{Host}.

(** ** Records and small facts *)

Lemma with_buffer_same (ab : AudioBuffer) : with_buffer ab (buffer ab) = ab.
Proof. destruct ab; reflexivity. Qed.

Lemma len_app (a b : list byte) : len (a ++ b) = len a + len b.
Proof. unfold len. rewrite length_app. lia. Qed.

Lemma len_drop (n : nat) (a : list byte) :
  Z.of_nat n <= len a -> len (drop n a) = len a - Z.of_nat n.
Proof. unfold len. rewrite length_drop. lia. Qed.

Lemma len_zero (a : list byte) : len a = 0 -> a = [].
Proof. unfold len. destruct a; [reflexivity | simpl; lia]. Qed.

(** Appending the payload: the bytes after offset 60, once. *)
Lemma buffer_audio_appends (ab : AudioBuffer) (data : list byte) :
  buffer_audio ab data = with_buffer ab (buffer ab ++ drop 60 data).
Proof.
  unfold buffer_audio, add_chunk.
  destruct (Z.ltb_spec 0 (len (drop 60 data))) as [Hpos | Hnone].
  - reflexivity.
  - assert (Hnil : drop 60 data = []).
    { apply len_zero. unfold len in *. lia. }
    rewrite Hnil, app_nil_r. symmetry. apply with_buffer_same.
Qed.

Lemma handle_binary_long (cfg : Config) (wc : WhisperClient) (s : session)
    (data : list byte) (reply : http_reply) :
  60 <= len data ->
  handle_message cfg wc s (Binary data) reply
  = process_threshold cfg wc (receive (count_message s) data) reply.
Proof.
  intros Hlen. unfold handle_message.
  destruct (Z.ltb_spec (len data) 60); [lia | reflexivity].
Qed.

Lemma handle_message_cases (cfg : Config) (wc : WhisperClient) (s : session)
    (m : message) (reply : http_reply) :
  let st := handle_message cfg wc s m reply in
  st = quiet (count_message s)
  \/ (exists data, m = Binary data /\ 60 <= len data
       /\ st = process_threshold cfg wc (receive (count_message s) data) reply).
Proof.
  destruct m as [data | t]; simpl; [| left; reflexivity].
  destruct (Z.ltb_spec (len data) 60); [left; reflexivity |].
  right. exists data. auto.
Qed.

(** ** Binary64 division stays finite *)

Lemma digits2_pos_size (p : positive) : digits2_pos p = Pos.size p.
Proof. induction p; simpl; congruence. Qed.

Lemma Zdigits2_nonneg (a : Z) : 0 <= Zdigits2 a.
Proof. destruct a; simpl; lia. Qed.

Lemma Zdigits2_le (a k : Z) :
  0 <= a -> 0 <= k -> (Zdigits2 a <= k <-> a < 2 ^ k).
Proof.
  intros Ha Hk. destruct a as [| p | p]; [| | lia].
  - simpl. split; [intros _; apply Z.pow_pos_nonneg; lia | lia].
  - simpl. rewrite digits2_pos_size.
    pose proof (Pos.size_gt p) as Hgt. pose proof (Pos.size_le p) as Hle.
    apply Pos2Z.pos_lt_pos in Hgt. apply Pos2Z.pos_le_pos in Hle.
    rewrite Pos2Z.inj_pow in Hgt, Hle.
    change (Z.pos p~0) with (2 * Z.pos p) in Hle.
    split.
    + intros Hd. eapply Z.lt_le_trans; [exact Hgt |].
      apply Z.pow_le_mono_r; lia.
    + intros Hlt. destruct (Z.le_gt_cases (Z.pos (Pos.size p)) k) as [| Hbig]; [assumption |].
      exfalso.
      assert (Hpow : 2 ^ Z.pos (Pos.size p) = 2 * 2 ^ (Z.pos (Pos.size p) - 1)).
      { rewrite <- Z.pow_succ_r by lia. f_equal. lia. }
      assert (2 ^ k <= 2 ^ (Z.pos (Pos.size p) - 1)) by (apply Z.pow_le_mono_r; lia).
      lia.
Qed.

Lemma Zdigits2_mono (a b : Z) : 0 <= a <= b -> Zdigits2 a <= Zdigits2 b.
Proof.
  intros Hab. apply Zdigits2_le; [lia | apply Zdigits2_nonneg |].
  eapply Z.le_lt_trans; [apply Hab |].
  apply Zdigits2_le; [lia | apply Zdigits2_nonneg | lia].
Qed.

Lemma Zdigits2_succ (a : Z) : 0 <= a -> Zdigits2 (a + 1) <= Zdigits2 a + 1.
Proof.
  intros Ha. pose proof (Zdigits2_nonneg a).
  apply Zdigits2_le; [lia | lia |].
  assert (a < 2 ^ Zdigits2 a) by (apply Zdigits2_le; lia).
  replace (Zdigits2 a + 1) with (Z.succ (Zdigits2 a)) by lia.
  rewrite Z.pow_succ_r by lia. lia.
Qed.

Lemma Zdigits2_div (a k : Z) :
  0 <= a -> 0 <= k -> Zdigits2 (a / 2 ^ k) <= Z.max 0 (Zdigits2 a - k).
Proof.
  intros Ha Hk. pose proof (Zdigits2_nonneg a).
  assert (0 < 2 ^ k) by (apply Z.pow_pos_nonneg; lia).
  apply Zdigits2_le; [apply Z.div_pos; lia | lia |].
  apply Z.div_lt_upper_bound; [lia |].
  assert (Ha' : a < 2 ^ Zdigits2 a) by (apply Zdigits2_le; lia).
  eapply Z.lt_le_trans; [exact Ha' |].
  rewrite <- Z.pow_add_r by lia.
  apply Z.pow_le_mono_r; lia.
Qed.

Lemma shr_1_m (mrs : shr_record) :
  0 <= shr_m mrs -> shr_m (shr_1 mrs) = shr_m mrs / 2.
Proof.
  destruct mrs as [m r s]. simpl. intros Hm.
  destruct m as [| [p | p |] | p]; simpl; try lia; try reflexivity.
  - rewrite Pos2Z.inj_xI. apply Z.div_unique with 1; lia.
  - rewrite Pos2Z.inj_xO. apply Z.div_unique with 0; lia.
Qed.

Lemma iter_shr_1_m (p : positive) :
  forall mrs, 0 <= shr_m mrs ->
  shr_m (SpecFloat.iter_pos shr_1 p mrs) = shr_m mrs / 2 ^ Z.pos p.
Proof.
  assert (Hstep : forall mrs, 0 <= shr_m mrs -> 0 <= shr_m (shr_1 mrs)).
  { intros mrs Hm. rewrite shr_1_m by assumption. apply Z.div_pos; lia. }
  assert (Hpow : forall q, 0 < 2 ^ Z.pos q) by (intros; apply Z.pow_pos_nonneg; lia).
  induction p as [p IH | p IH |]; intros mrs Hm; simpl.
  - assert (H1 : 0 <= shr_m (shr_1 mrs)) by auto.
    assert (H2 : 0 <= shr_m (SpecFloat.iter_pos shr_1 p (shr_1 mrs))).
    { rewrite IH by assumption. apply Z.div_pos; auto. }
    rewrite IH, IH, shr_1_m by assumption.
    pose proof (Hpow p).
    rewrite !Z.div_div by lia.
    assert (E : Z.pos p~1 = 1 + Z.pos p + Z.pos p) by lia.
    rewrite E, !Z.pow_add_r by lia. f_equal; lia.
  - assert (H2 : 0 <= shr_m (SpecFloat.iter_pos shr_1 p mrs)).
    { rewrite IH by assumption. apply Z.div_pos; auto. }
    rewrite IH, IH by assumption.
    pose proof (Hpow p).
    rewrite !Z.div_div by lia.
    assert (E : Z.pos p~0 = Z.pos p + Z.pos p) by lia.
    rewrite E, !Z.pow_add_r by lia. f_equal; lia.
  - rewrite shr_1_m by assumption. reflexivity.
Qed.

Lemma shr_exponent (mrs : shr_record) (e n : Z) :
  snd (shr mrs e n) = e + Z.max n 0.
Proof. destruct n; simpl; lia. Qed.

Lemma shr_mantissa (mrs : shr_record) (e n : Z) :
  0 <= shr_m mrs ->
  shr_m (fst (shr mrs e n)) = shr_m mrs / 2 ^ Z.max n 0.
Proof.
  intros Hm. destruct n as [| p | p]; simpl.
  - rewrite Z.div_1_r. reflexivity.
  - rewrite iter_shr_1_m by assumption. reflexivity.
  - rewrite Z.div_1_r. reflexivity.
Qed.

Lemma shr_record_of_loc_m (m : Z) (l : location) :
  shr_m (shr_record_of_loc m l) = m.
Proof. destruct l as [| []]; reflexivity. Qed.

(** After [shr_fexp], mantissa and exponent stay within the bound the
    input satisfied. *)
Lemma shr_fexp_bound (m e : Z) (l : location) (B : Z) :
  0 <= m -> Zdigits2 m + e <= B -> e <= B - prec -> emin prec emax <= B - prec ->
  let r := shr_fexp prec emax m e l in
  0 <= shr_m (fst r)
  /\ Zdigits2 (shr_m (fst r)) + snd r <= B
  /\ snd r <= B - prec.
Proof.
  intros Hm Hd He Hmin r. subst r. unfold shr_fexp.
  set (n := fexp prec emax (Zdigits2 m + e) - e).
  rewrite shr_exponent, shr_mantissa by (rewrite shr_record_of_loc_m; assumption).
  rewrite shr_record_of_loc_m.
  assert (Hn : n <= B - prec - e).
  { subst n. unfold fexp. lia. }
  assert (0 < 2 ^ Z.max n 0) by (apply Z.pow_pos_nonneg; lia).
  split; [apply Z.div_pos; lia |].
  pose proof (Zdigits2_div m (Z.max n 0) Hm ltac:(lia)).
  pose proof (Zdigits2_nonneg m).
  split; [| lia].
  destruct (Z.max_spec 0 (Zdigits2 m - Z.max n 0)) as [[? Hmx] | [? Hmx]];
    rewrite Hmx in *; try lia.
  unfold prec in *. lia.
Qed.

Lemma round_nearest_even_bound (m : Z) (l : location) :
  0 <= m -> m <= round_nearest_even m l <= m + 1.
Proof.
  intros Hm. destruct l as [| []]; simpl; try lia.
  destruct (Z.even m); lia.
Qed.

(** Rounding a quotient below [2 ^ 1023] never reaches infinity. *)
Lemma binary_round_aux_finite (sx : bool) (mx ex : Z) (lx : location) :
  0 <= mx -> Zdigits2 mx + ex <= 1023 -> ex <= 970 ->
  forall s, binary_round_aux prec emax sx mx ex lx <> S754_infinity s.
Proof.
  intros Hm Hd He s. unfold binary_round_aux.
  pose proof (shr_fexp_bound mx ex lx 1023 Hm Hd) as H1.
  destruct (shr_fexp prec emax mx ex lx) as [mrs' e'].
  cbn [fst snd] in H1.
  destruct H1 as (Hm' & Hd' & He'); [unfold prec; lia | unfold emin, prec, emax; lia |].
  pose proof (round_nearest_even_bound (shr_m mrs') (loc_of_shr_record mrs') Hm') as Hr.
  set (m1 := round_nearest_even (shr_m mrs') (loc_of_shr_record mrs')) in *.
  assert (Hd1 : Zdigits2 m1 + e' <= 1024).
  { pose proof (Zdigits2_mono m1 (shr_m mrs' + 1) ltac:(lia)).
    pose proof (Zdigits2_succ (shr_m mrs') Hm'). lia. }
  pose proof (shr_fexp_bound m1 e' loc_Exact 1024 ltac:(lia) Hd1) as H2.
  destruct (shr_fexp prec emax m1 e' loc_Exact) as [mrs'' e''].
  cbn [fst snd] in H2.
  destruct H2 as (_ & _ & He''); [unfold prec in *; lia | unfold emin, prec, emax; lia |].
  destruct (shr_m mrs''); try discriminate.
  destruct (Z.leb_spec e'' (emax - prec)); [discriminate |].
  unfold emax, prec in *. lia.
Qed.

Lemma div_core_bound (a b : positive) :
  Z.pos a < Z.pos b * 2 ^ 1023 ->
  let '(q, e, l) := SFdiv_core_binary prec emax (Z.pos a) 0 (Z.pos b) 0 in
  0 <= q /\ Zdigits2 q + e <= 1023 /\ e <= 970.
Proof.
  intros Hab. unfold SFdiv_core_binary.
  set (e' := Z.min (fexp prec emax (Zdigits2 (Z.pos a) + 0 - (Zdigits2 (Z.pos b) + 0))) (0 - 0)).
  assert (He' : e' <= 0) by (subst e'; lia).
  set (m' := match 0 - 0 - e' with
             | 0 => Z.pos a
             | Z.pos _ => Z.shiftl (Z.pos a) (0 - 0 - e')
             | Z.neg _ => 0
             end).
  assert (Hm' : m' = Z.pos a * 2 ^ (- e')).
  { subst m'. replace (0 - 0 - e') with (- e') by lia.
    destruct (- e') as [| p | p] eqn:Hs; [simpl; lia | | lia].
    rewrite Z.shiftl_mul_pow2 by lia. reflexivity. }
  pose proof (Z_div_mod m' (Z.pos b) ltac:(lia)) as Hdiv.
  destruct (Z.div_eucl m' (Z.pos b)) as [q r]. destruct Hdiv as [Heq Hr].
  assert (Hpow : 0 < 2 ^ (- e')) by (apply Z.pow_pos_nonneg; lia).
  assert (Hq : 0 <= q) by nia.
  split; [exact Hq |]. split; [| lia].
  enough (Zdigits2 q <= 1023 - e') by lia.
  apply Zdigits2_le; [exact Hq | lia |].
  replace (1023 - e') with (1023 + - e') by lia.
  rewrite Z.pow_add_r by lia. nia.
Qed.

(** [a / b] raises only for a zero divisor, as long as the quotient stays
    below [2 ^ 1023]. *)
Lemma int_true_div_ok (a b : Z) :
  0 <= a -> 0 < b -> a < b * 2 ^ 1023 ->
  exists q, int_true_div a b = Ok q.
Proof.
  intros Ha Hb Hab. unfold int_true_div.
  destruct b as [| pb | pb]; try lia.
  destruct a as [| pa | pa]; try lia; [eexists; reflexivity |].
  unfold float_div, SFdiv.
  change (Z.to_pos (Z.abs (Z.pos pa))) with pa.
  change (Z.to_pos (Z.abs (Z.pos pb))) with pb.
  pose proof (div_core_bound pa pb Hab) as Hcore.
  destruct (SFdiv_core_binary prec emax (Z.pos pa) 0 (Z.pos pb) 0) as [[q e] l].
  destruct Hcore as (Hq & Hd & He).
  pose proof (binary_round_aux_finite
                (xorb (Z.pos pa <? 0) (Z.pos pb <? 0)) q e l Hq Hd He) as Hfin.
  destruct (binary_round_aux prec emax _ q e l) eqn:Hres;
    try (eexists; reflexivity).
  exfalso. eapply Hfin. reflexivity.
Qed.

(** ** Responses and drains *)

Lemma eqb_true (a b : pystr) : eqb a b = true <-> a = b.
Proof. unfold eqb. apply bool_decide_eq_true. Qed.

Lemma eqb_false (a b : pystr) : eqb a b = false <-> a <> b.
Proof. unfold eqb. apply bool_decide_eq_false. Qed.

Lemma truthy_true (t : pystr) : truthy t = true <-> t <> [].
Proof. destruct t; simpl; split; congruence. Qed.

Lemma final_text_final (c : option pystr) (t : pystr) :
  final_text (final_response c t) = Some t.
Proof. reflexivity. Qed.

Lemma final_text_partial (c : option pystr) :
  final_text (partial_response c) = None.
Proof. reflexivity. Qed.

Lemma participant_final (c : option pystr) (t : pystr) :
  field "participant_id" (final_response c t) = Some (of_client_id c).
Proof. reflexivity. Qed.

Lemma participant_partial (c : option pystr) :
  field "participant_id" (partial_response c) = Some (of_client_id c).
Proof. reflexivity. Qed.

(** The two ways [respond] answers. *)
Lemma respond_cases (s : session) (text : option pystr) :
  let c := client_id (audio_buffer s) in
  (respond s text = (s, partial_response c)
   /\ (text = None \/ text = Some [] \/ text = Some (last_transcript s)))
  \/ (exists t, text = Some t /\ t <> [] /\ t <> last_transcript s
      /\ respond s text = (accept_transcript s t, final_response c t)).
Proof.
  intros c. unfold respond. destruct text as [t |].
  - destruct (truthy t) eqn:Ht; simpl.
    + destruct (eqb t (last_transcript s)) eqn:He; simpl.
      * left. apply eqb_true in He. subst t. auto.
      * right. exists t. apply eqb_false in He. apply truthy_true in Ht. auto.
    + left. destruct t; [auto | discriminate].
  - left. auto.
Qed.

Lemma drain_unfold (wc : WhisperClient) (s : session) (reply : http_reply) :
  let text := (transcribe wc (audio_buffer s) reply).1 in
  let s' := (respond s text).1 in
  drain wc s reply
  = {| after := with_audio s' (clear (audio_buffer s'));
       sent := [(respond s text).2]; texts := [text];
       calls := (transcribe wc (audio_buffer s) reply).2; raised := None |}.
Proof.
  unfold drain. destruct (transcribe wc (audio_buffer s) reply) as [text requests].
  simpl. destruct (respond s text) as [s' response]. reflexivity.
Qed.

(** [transcribe] asks the backend at most once. *)
Lemma transcribe_calls (wc : WhisperClient) (ab : AudioBuffer) (reply : http_reply) :
  (length (transcribe wc ab reply).2 <= 1)%nat.
Proof.
  unfold transcribe.
  destruct (py_lt _ _); [simpl; lia |].
  destruct (to_wav ab) as [[wav |] | e]; simpl; lia.
Qed.

(** What a drain leaves behind. *)
Lemma drain_facts (wc : WhisperClient) (s : session) (reply : http_reply) :
  let st := drain wc s reply in
  let text := (transcribe wc (audio_buffer s) reply).1 in
  let c := client_id (audio_buffer s) in
  texts st = [text] /\ raised st = None
  /\ buffer (audio_buffer (after st)) = []
  /\ client_id (audio_buffer (after st)) = c
  /\ language (audio_buffer (after st)) = language (audio_buffer s)
  /\ sample_rate (audio_buffer (after st)) = sample_rate (audio_buffer s)
  /\ message_count (after st) = message_count s
  /\ (length (calls st) <= 1)%nat
  /\ ((sent st = [partial_response c]
       /\ last_transcript (after st) = last_transcript s
       /\ transcript_count (after st) = transcript_count s
       /\ (text = None \/ text = Some [] \/ text = Some (last_transcript s)))
      \/ (exists t, text = Some t /\ t <> [] /\ t <> last_transcript s
          /\ sent st = [final_response c t]
          /\ last_transcript (after st) = t
          /\ transcript_count (after st) = transcript_count s + 1)).
Proof.
  intros st text c. subst st. rewrite drain_unfold. fold text.
  pose proof (transcribe_calls wc (audio_buffer s) reply) as Hcalls.
  destruct (respond_cases s text) as [[Hr Hwhy] | (t & Ht & Hne & Hnew & Hr)];
    rewrite Hr; cbn.
  - repeat split; try assumption. left. repeat split; auto.
  - repeat split; try assumption. right. exists t. repeat split; auto.
Qed.

(** The three ways the threshold check ends. *)
Lemma process_threshold_cases (cfg : Config) (wc : WhisperClient)
    (s : session) (reply : http_reply) :
  let st := process_threshold cfg wc s reply in
  (exists e, get_duration_ms (audio_buffer s) = Raise e /\ st = failed s e)
  \/ (exists d, get_duration_ms (audio_buffer s) = Ok d
      /\ py_ge (PyFloat d) (whisper_chunk_duration_ms cfg) = false
      /\ st = quiet s)
  \/ (exists d, get_duration_ms (audio_buffer s) = Ok d
      /\ py_ge (PyFloat d) (whisper_chunk_duration_ms cfg) = true
      /\ st = drain wc s reply).
Proof.
  intros st. subst st. unfold process_threshold.
  destruct (get_duration_ms (audio_buffer s)) as [d | e].
  - destruct (py_ge (PyFloat d) (whisper_chunk_duration_ms cfg)) eqn:Hge.
    + right. right. exists d. auto.
    + right. left. exists d. auto.
  - left. exists e. auto.
Qed.

(** ** Header parsing *)

Functional Scheme decode_ignore_ind := Induction for Utf8.decode_ignore Sort Prop.

Lemma to_N_pipe (b : byte) : Byte.to_N b = 124%N <-> b = x7c.
Proof.
  split; [| intros ->; reflexivity].
  intros Hb. apply (f_equal Byte.of_N) in Hb. rewrite Byte.of_to_N in Hb.
  injection Hb as ->. reflexivity.
Qed.

Lemma high_byte_not_pipe (b : byte) : (Byte.to_N b <? 128)%N = false -> b <> x7c.
Proof. intros Hb ->. discriminate. Qed.

Ltac each_byte b :=
  destruct b; vm_compute; intros;
  first [discriminate | tauto | (left; reflexivity) | (right; discriminate)].

Lemma lead2 (b : byte) :
  (Byte.to_N b <? 194)%N = false -> (Byte.to_N b <? 224)%N = true ->
  (2 <= N.land (Byte.to_N b) 31)%N.
Proof. each_byte b. Qed.

Lemma lead3 (b : byte) :
  (Byte.to_N b <? 224)%N = false -> (Byte.to_N b <? 240)%N = true ->
  (Byte.to_N b =? 224)%N = true \/ (1 <= N.land (Byte.to_N b) 15)%N.
Proof. each_byte b. Qed.

Lemma lead4 (b : byte) :
  (Byte.to_N b <? 240)%N = false -> (Byte.to_N b <? 245)%N = true ->
  (Byte.to_N b =? 240)%N = true \/ (1 <= N.land (Byte.to_N b) 7)%N.
Proof. each_byte b. Qed.

Lemma trail3 (b : byte) :
  Utf8.is_continuation (Byte.to_N b) = true -> (Byte.to_N b <? 160)%N = false ->
  (32 <= Utf8.low6 (Byte.to_N b))%N.
Proof. each_byte b. Qed.

Lemma trail4 (b : byte) :
  Utf8.is_continuation (Byte.to_N b) = true -> (Byte.to_N b <? 144)%N = false ->
  (16 <= Utf8.low6 (Byte.to_N b))%N.
Proof. each_byte b. Qed.

Lemma continuation_not_pipe (b : byte) :
  Utf8.is_continuation (Byte.to_N b) = true -> b <> x7c.
Proof. intros Hb ->. discriminate. Qed.

(** Decoding neither drops nor makes up a vertical bar: it is ASCII, and
    every byte the decoder skips or folds into a longer sequence is not. *)
Lemma decode_ignore_pipe (bs : list byte) :
  In 124%N (Utf8.decode_ignore bs) <-> In x7c bs.
Proof.
  functional induction (Utf8.decode_ignore bs);
    try rewrite IHl; cbn [In];
    repeat match goal with
      | H : (negb _ || _) = false |- _ => apply orb_false_iff in H as [? ?]
      | H : negb _ = false |- _ => apply negb_false_iff in H
      | H : (if ?c then _ else _) = false |- _ => destruct c eqn:?
      end;
    repeat match goal with
      | H : (Byte.to_N ?b <? 128)%N = false |- _ =>
          lazymatch goal with
          | _ : b <> x7c |- _ => fail
          | _ => pose proof (high_byte_not_pipe b H)
          end
      | H : Utf8.is_continuation (Byte.to_N ?b) = true |- _ =>
          lazymatch goal with
          | _ : b <> x7c |- _ => fail
          | _ => pose proof (continuation_not_pipe b H)
          end
      end;
    try match goal with
      | H1 : (Byte.to_N ?b <? 194)%N = false,
        H2 : (Byte.to_N ?b <? 224)%N = true |- _ => pose proof (lead2 b H1 H2)
      | H1 : (Byte.to_N ?b <? 224)%N = false,
        H2 : (Byte.to_N ?b <? 240)%N = true |- _ => pose proof (lead3 b H1 H2)
      | H1 : (Byte.to_N ?b <? 240)%N = false,
        H2 : (Byte.to_N ?b <? 245)%N = true |- _ => pose proof (lead4 b H1 H2)
      end;
    try match goal with
      | H1 : Utf8.is_continuation (Byte.to_N ?b) = true,
        H2 : (Byte.to_N ?b <? 160)%N = false |- _ => pose proof (trail3 b H1 H2)
      | H1 : Utf8.is_continuation (Byte.to_N ?b) = true,
        H2 : (Byte.to_N ?b <? 144)%N = false |- _ => pose proof (trail4 b H1 H2)
      end;
    try rewrite to_N_pipe;
    try solve [intuition (try congruence; try lia)].
Qed.

Lemma split_nonempty (sep : N) (s : pystr) : split sep s <> [].
Proof.
  destruct s as [| c r]; simpl; [discriminate |].
  destruct (c =? sep)%N; [discriminate |].
  destruct (split sep r); discriminate.
Qed.

(** A string splits in two or more exactly when it holds the separator. *)
Lemma split_twice (sep : N) (s : pystr) :
  (2 <= length (split sep s))%nat <-> In sep s.
Proof.
  induction s as [| c r IH]; simpl; [split; [lia | tauto] |].
  pose proof (split_nonempty sep r) as Hne.
  destruct (N.eqb_spec c sep) as [-> | Hc].
  - split; [auto |]. intros _. simpl.
    destruct (split sep r); [contradiction | simpl; lia].
  - destruct (split sep r) as [| w ws] eqn:Hs; [contradiction |].
    simpl in *. rewrite IH. split; [auto | intros [? | ?]; [contradiction | assumption]].
Qed.

Lemma lstrip_by_keeps (p : N -> bool) (x : N) (s : pystr) :
  p x = false -> In x (lstrip_by p s) <-> In x s.
Proof.
  intros Hx. induction s as [| c r IH]; simpl; [tauto |].
  destruct (p c) eqn:Hc; [| reflexivity].
  rewrite IH. split; [auto |]. intros [-> | Hin]; [congruence | exact Hin].
Qed.

Lemma rstrip_by_keeps (p : N -> bool) (x : N) (s : pystr) :
  p x = false -> In x (rstrip_by p s) <-> In x s.
Proof.
  intros Hx. unfold rstrip_by.
  rewrite <- in_rev, lstrip_by_keeps, <- in_rev by exact Hx. reflexivity.
Qed.

(** A header splits in two or more fields exactly when one of the first 60
    bytes of the frame is a vertical bar. *)
Lemma header_splits (data : list byte) :
  (2 <= length (header_parts data))%nat <-> In x7c (take 60 data).
Proof.
  unfold header_parts, rstrip_chars.
  rewrite split_twice, rstrip_by_keeps by reflexivity.
  apply decode_ignore_pipe.
Qed.

Lemma parse_header_malformed (ab : AudioBuffer) (data : list byte) :
  (length (header_parts data) < 2)%nat -> parse_header ab data = ab.
Proof.
  intros Hparts. unfold parse_header.
  destruct (Z.leb_spec 2 (Z.of_nat (length (header_parts data))));
    [lia | reflexivity].
Qed.

Lemma receive_buffer (s : session) (data : list byte) :
  buffer (audio_buffer (receive s data)) = buffer (audio_buffer s) ++ drop 60 data.
Proof.
  unfold receive. cbn [with_audio audio_buffer].
  rewrite buffer_audio_appends. cbn [with_buffer buffer].
  unfold parse_header. destruct (2 <=? _); reflexivity.
Qed.

Lemma receive_last (s : session) (data : list byte) :
  last_transcript (receive s data) = last_transcript s.
Proof. reflexivity. Qed.

(** ** The drain threshold *)

(** On a frame of at least 60 bytes the handler compares the duration as it
    computes it, the binary64 product of the quotient samples / rate and
    1000, the samples being the complete pairs of bytes in the buffer, with
    the configured threshold, after the payload, if any, is appended. When
    the computed duration equals or exceeds the threshold there is exactly
    one drain on that frame: one transcription, one response, at most one
    backend request, and the buffer is emptied. When it is below, nothing is
    sent and the buffer keeps the appended bytes. *)
Theorem drain_at_threshold (cfg : Config) (wc : WhisperClient) (s : session)
    (data : list byte) (reply : http_reply) :
  60 <= len data ->
  let s' := receive (count_message s) data in
  let st := handle_message cfg wc s (Binary data) reply in
  buffer (audio_buffer s') = buffer (audio_buffer s) ++ drop 60 data /\
  get_duration_ms (audio_buffer s')
  = (q <- int_true_div (len (buffer (audio_buffer s) ++ drop 60 data) / 2)
            (sample_rate (audio_buffer s)) ;;;
     Ok (float_mul q (float_of_int 1000))) /\
  match get_duration_ms (audio_buffer s') with
  | Raise e => st = failed s' e
  | Ok d =>
      match py_compare (PyFloat d) (whisper_chunk_duration_ms cfg) with
      | Some Eq | Some Gt =>
          st = drain wc s' reply
          /\ length (texts st) = 1%nat /\ length (sent st) = 1%nat
          /\ (length (calls st) <= 1)%nat
          /\ buffer (audio_buffer (after st)) = []
      | Some Lt | None =>
          st = quiet s'
          /\ buffer (audio_buffer (after st))
             = buffer (audio_buffer s) ++ drop 60 data
      end
  end.
Proof.
  intros Hlen s' st.
  assert (Hbuf : buffer (audio_buffer s') = buffer (audio_buffer s) ++ drop 60 data).
  { subst s'. rewrite receive_buffer. reflexivity. }
  split; [exact Hbuf |].
  split.
  { assert (Hrate : sample_rate (audio_buffer s') = sample_rate (audio_buffer s)).
    { subst s'. unfold receive. cbn [with_audio audio_buffer count_message].
      rewrite buffer_audio_appends. cbn [with_buffer sample_rate].
      unfold parse_header. destruct (2 <=? _); reflexivity. }
    unfold get_duration_ms. rewrite Hbuf, Hrate. reflexivity. }
  subst st. rewrite handle_binary_long by assumption. fold s'.
  unfold process_threshold, py_ge.
  destruct (get_duration_ms (audio_buffer s')) as [d | e]; [| reflexivity].
  destruct (py_compare (PyFloat d) (whisper_chunk_duration_ms cfg)) as [[| |] |].
  - pose proof (drain_facts wc s' reply) as (Ht & _ & Hb & _ & _ & _ & _ & Hc & Hs).
    split; [reflexivity |]. rewrite Ht. repeat split; try assumption.
    destruct Hs as [(Hs & _) | (t & _ & _ & _ & Hs & _)]; rewrite Hs; reflexivity.
  - split; [reflexivity | exact Hbuf].
  - pose proof (drain_facts wc s' reply) as (Ht & _ & Hb & _ & _ & _ & _ & Hc & Hs).
    split; [reflexivity |]. rewrite Ht. repeat split; try assumption.
    destruct Hs as [(Hs & _) | (t & _ & _ & _ & Hs & _)]; rewrite Hs; reflexivity.
  - split; [reflexivity | exact Hbuf].
Qed.

(** ** The participant id *)

Lemma process_threshold_client (cfg : Config) (wc : WhisperClient)
    (s : session) (reply : http_reply) :
  let st := process_threshold cfg wc s reply in
  let c := client_id (audio_buffer s) in
  client_id (audio_buffer (after st)) = c
  /\ Forall (fun r => r = partial_response c \/ exists t, r = final_response c t)
       (sent st).
Proof.
  intros st c.
  destruct (process_threshold_cases cfg wc s reply)
    as [(e & _ & Hst) | [(d & _ & _ & Hst) | (d & _ & _ & Hst)]];
    fold st in Hst; rewrite Hst.
  - split; [reflexivity | constructor].
  - split; [reflexivity | constructor].
  - pose proof (drain_facts wc s reply) as (_ & _ & _ & Hc & _ & _ & _ & _ & Hs).
    split; [exact Hc |].
    destruct Hs as [(Hs & _) | (t & _ & _ & _ & Hs & _)]; rewrite Hs.
    + constructor; [left; reflexivity | constructor].
    + constructor; [right; exists t; reflexivity | constructor].
Qed.

(** What the threshold step leaves of the buffer it is given. *)
Lemma process_threshold_keeps (cfg : Config) (wc : WhisperClient)
    (s : session) (reply : http_reply) :
  let st := process_threshold cfg wc s reply in
  language (audio_buffer (after st)) = language (audio_buffer s)
  /\ sample_rate (audio_buffer (after st)) = sample_rate (audio_buffer s)
  /\ (texts st = [] -> buffer (audio_buffer (after st)) = buffer (audio_buffer s))
  /\ (texts st <> [] -> buffer (audio_buffer (after st)) = []).
Proof.
  intros st.
  destruct (process_threshold_cases cfg wc s reply)
    as [(e & _ & Hst) | [(d & _ & _ & Hst) | (d & _ & _ & Hst)]];
    fold st in Hst; rewrite Hst.
  - cbn. repeat split; auto. intros Hne. contradiction.
  - cbn. repeat split; auto. intros Hne. contradiction.
  - pose proof (drain_facts wc s reply) as (Ht & _ & Hb & _ & Hl & Hr & _).
    cbn zeta in Ht, Hb, Hl, Hr.
    split; [exact Hl |]. split; [exact Hr |].
    split; [rewrite Ht; discriminate | intros _; exact Hb].
Qed.

Lemma to_wav_payload (ab : AudioBuffer) (wav : list byte) :
  to_wav ab = Ok (Some wav) ->
  drop 44 wav = buffer ab /\ len wav = 44 + len (buffer ab).
Proof.
  unfold to_wav, wave_write.
  destruct (len (buffer ab) =? 0); [discriminate |].
  destruct (sample_rate ab <=? 0); [discriminate |].
  destruct (_ || _); [discriminate |].
  cbn [res_bind]. intros Heq. injection Heq as Heq. subst wav.
  split; [reflexivity |].
  unfold len. cbn [length]. lia.
Qed.

Lemma transcribe_request_file (wc : WhisperClient) (ab : AudioBuffer)
    (reply : http_reply) :
  Forall (fun q => to_wav ab = Ok (Some (req_file q)))
    (transcribe wc ab reply).2.
Proof.
  unfold transcribe. destruct (py_lt _ _); [constructor |].
  destruct (to_wav ab) as [[wav |] | e]; try constructor; [| constructor].
  reflexivity.
Qed.

(** The requests of the threshold step carry the whole buffer, after the
    44 bytes of the WAV header. *)
Lemma process_threshold_requests (cfg : Config) (wc : WhisperClient)
    (s : session) (reply : http_reply) :
  Forall (fun q => drop 44 (req_file q) = buffer (audio_buffer s))
    (calls (process_threshold cfg wc s reply)).
Proof.
  destruct (process_threshold_cases cfg wc s reply)
    as [(e & _ & Hst) | [(d & _ & _ & Hst) | (d & _ & _ & Hst)]];
    cbn zeta in Hst; rewrite Hst; try (cbn; constructor).
  assert (Hcalls : calls (drain wc s reply)
                   = (transcribe wc (audio_buffer s) reply).2).
  { unfold drain. destruct (transcribe wc (audio_buffer s) reply).
    destruct (respond s o). reflexivity. }
  rewrite Hcalls.
  eapply Forall_impl; [apply transcribe_request_file |].
  intros q Hq. cbn beta in Hq. apply to_wav_payload in Hq. apply Hq.
Qed.

(** What a frame of 60 bytes or more leaves in the session, by the fields
    its header gave. *)
Lemma receive_fields (s : session) (data : list byte) :
  let ab := audio_buffer s in
  let ab1 := audio_buffer (receive s data) in
  sample_rate ab1 = sample_rate ab
  /\ buffer ab1 = buffer ab ++ drop 60 data
  /\ ((length (header_parts data) < 2)%nat ->
      client_id ab1 = client_id ab /\ language ab1 = language ab)
  /\ ((2 <= length (header_parts data))%nat ->
      client_id ab1 = Some (strip (nth 0 (header_parts data) []))
      /\ language ab1 = strip (nth 1 (header_parts data) [])).
Proof.
  intros ab ab1. subst ab ab1. unfold receive.
  cbn [with_audio audio_buffer]. rewrite buffer_audio_appends.
  cbn [with_buffer sample_rate buffer client_id language].
  unfold parse_header.
  destruct (Z.leb_spec 2 (Z.of_nat (length (header_parts data))));
    cbn [sample_rate buffer client_id language];
    (split; [reflexivity |]); (split; [reflexivity |]);
    split; intros Hparts; try lia; split; reflexivity.
Qed.

(** ** Headers *)

(** C1. A frame of at least 60 bytes whose header does not split into two
    fields leaves the participant and the language of the session as they
    were, and its payload, the bytes from offset 60 on, is still appended:
    the buffer afterwards is the old buffer followed by exactly those
    bytes, and if the frame brings a drain the backend is sent that whole
    buffer and the response names the previous participant. Decoding drops
    invalid bytes and cannot fail, so a header is malformed only by not
    splitting, which is to say by holding no vertical bar. *)
Theorem malformed_header_keeps_audio (cfg : Config) (wc : WhisperClient)
    (s : session) (data : list byte) (reply : http_reply) :
  60 <= len data ->
  (length (header_parts data) < 2)%nat ->
  let ab := audio_buffer s in
  let ab' := with_buffer ab (buffer ab ++ drop 60 data) in
  let s1 := receive (count_message s) data in
  let st := handle_message cfg wc s (Binary data) reply in
  parse_header ab data = ab /\
  buffer_audio (parse_header ab data) data = ab' /\
  client_id ab' = client_id ab /\
  language ab' = language ab /\
  handle_message cfg wc s (Binary data) reply
  = process_threshold cfg wc (with_audio (count_message s) ab') reply /\
  ~ In x7c (take 60 data) /\
  buffer (audio_buffer s1) = buffer ab ++ drop 60 data /\
  len (buffer (audio_buffer s1)) = len (buffer ab) + (len data - 60) /\
  client_id (audio_buffer s1) = client_id ab /\
  language (audio_buffer s1) = language ab /\
  sample_rate (audio_buffer s1) = sample_rate ab /\
  st = process_threshold cfg wc s1 reply /\
  client_id (audio_buffer (after st)) = client_id ab /\
  language (audio_buffer (after st)) = language ab /\
  (texts st = [] ->
   buffer (audio_buffer (after st)) = buffer ab ++ drop 60 data) /\
  Forall (fun q => drop 44 (req_file q) = buffer ab ++ drop 60 data) (calls st) /\
  Forall (fun r => field "participant_id" r = Some (of_client_id (client_id ab)))
    (sent st).
Proof.
  intros Hlen Hparts ab ab' s1 st.
  assert (Hbar : ~ In x7c (take 60 data)).
  { rewrite <- header_splits. lia. }
  assert (Hsame : parse_header ab data = ab).
  { apply parse_header_malformed. exact Hparts. }
  assert (Happ : buffer_audio (parse_header ab data) data = ab').
  { rewrite Hsame. apply buffer_audio_appends. }
  assert (Hst : st = process_threshold cfg wc s1 reply).
  { subst st s1. apply handle_binary_long. exact Hlen. }
  pose proof (receive_fields (count_message s) data) as (Hrate & Hbuf & Hold & _).
  cbn zeta in Hrate, Hbuf, Hold. cbn [count_message audio_buffer] in Hrate, Hbuf, Hold.
  fold ab s1 in Hrate, Hbuf, Hold. destruct (Hold Hparts) as [Hid Hlang].
  pose proof (process_threshold_client cfg wc s1 reply) as [Hkeep Hsent].
  pose proof (process_threshold_keeps cfg wc s1 reply) as (Hl & _ & Hquiet & _).
  pose proof (process_threshold_requests cfg wc s1 reply) as Hcalls.
  cbn zeta in Hkeep, Hsent, Hl, Hquiet. rewrite <- Hst in Hkeep, Hsent, Hl, Hquiet, Hcalls.
  split; [exact Hsame |]. split; [exact Happ |].
  split; [reflexivity |]. split; [reflexivity |]. split.
  { rewrite handle_binary_long by assumption.
    unfold receive. cbn [count_message audio_buffer]. fold ab. rewrite Happ.
    reflexivity. }
  split; [exact Hbar |]. split; [exact Hbuf |]. split.
  { rewrite Hbuf, len_app. rewrite (len_drop 60) by (simpl; lia). simpl. lia. }
  split; [exact Hid |]. split; [exact Hlang |]. split; [exact Hrate |].
  split; [exact Hst |].
  split; [rewrite Hkeep; exact Hid |].
  split; [rewrite Hl; exact Hlang |].
  split; [intros Hnone; rewrite (Hquiet Hnone); exact Hbuf |].
  split.
  - rewrite <- Hbuf. exact Hcalls.
  - eapply Forall_impl; [exact Hsent |]. intros r Hr. cbn beta in Hr.
    rewrite Hid in Hr. destruct Hr as [-> | [t ->]]; reflexivity.
Qed.


Lemma handle_message_no_participant (cfg : Config) (wc : WhisperClient)
    (s : session) (m : message) (reply : http_reply) :
  sets_no_participant m ->
  client_id (audio_buffer s) = None ->
  let st := handle_message cfg wc s m reply in
  client_id (audio_buffer (after st)) = None
  /\ Forall (fun r => r = partial_response None \/ exists t, r = final_response None t)
       (sent st).
Proof.
  intros Hm Hnone st.
  destruct (handle_message_cases cfg wc s m reply)
    as [Hst | (data & -> & Hlen & Hst)]; fold st in Hst; rewrite Hst.
  - split; [exact Hnone | constructor].
  - inversion Hm as [| d Hshort | d Hparts]; subst; [lia |].
    pose proof (process_threshold_client cfg wc
                  (receive (count_message s) data) reply) as Hpt.
    cbn zeta in Hpt.
    assert (Hc : client_id (audio_buffer (receive (count_message s) data)) = None).
    { unfold receive. cbn [with_audio audio_buffer count_message].
      rewrite parse_header_malformed by assumption.
      rewrite buffer_audio_appends. exact Hnone. }
    rewrite Hc in Hpt. exact Hpt.
Qed.

Lemma run_session_no_participant (cfg : Config) (wc : WhisperClient)
    (events : list (message * http_reply)) :
  forall s : session,
  Forall (fun ev => sets_no_participant ev.1) events ->
  client_id (audio_buffer s) = None ->
  let st := run_session cfg wc s events in
  client_id (audio_buffer (after st)) = None
  /\ Forall (fun r => r = partial_response None \/ exists t, r = final_response None t)
       (sent st).
Proof.
  induction events as [| [m reply] rest IH]; intros s Hall Hnone; simpl.
  - split; [exact Hnone | constructor].
  - inversion Hall as [| ev evs Hm Hrest]; subst. simpl in Hm.
    pose proof (handle_message_no_participant cfg wc s m reply Hm Hnone)
      as [Hid Hsent].
    cbn zeta in Hid, Hsent.
    destruct (raised (handle_message cfg wc s m reply)).
    + split; assumption.
    + destruct (IH _ Hrest Hid) as [Hid' Hsent']. cbn.
      split; [exact Hid' |]. apply Forall_app. split; assumption.
Qed.

Lemma sets_participant_false (m : message) :
  sets_participant m = false <-> sets_no_participant m.
Proof.
  split.
  - destruct m as [data | t]; [| intros _; apply text_frame].
    cbn [sets_participant]. intros Hno.
    apply andb_false_iff in Hno as [Hshort | Hparts].
    + apply short_frame. apply Z.leb_gt in Hshort. exact Hshort.
    + apply malformed_header. apply Z.leb_gt in Hparts. lia.
  - intros [t | data Hshort | data Hparts]; cbn [sets_participant].
    + reflexivity.
    + apply andb_false_iff. left. apply Z.leb_gt. exact Hshort.
    + apply andb_false_iff. right. apply Z.leb_gt. lia.
Qed.

(** C10. Until a binary frame of at least 60 bytes whose header splits into
    two fields has been handled, the participant id is unset: the session
    starts without one; text frames, frames with a malformed header and
    frames shorter than 60 bytes, whatever those hold (a vertical bar
    included), leave it unset; and every response sent so far, final or
    partial, carries [participant_id] None, which [json.dumps] writes as
    null. *)
Theorem participant_id_null_until_header (cfg : Config) (wc : WhisperClient)
    (events : list (message * http_reply)) :
  Forall (fun ev => sets_participant ev.1 = false) events ->
  let st := run_session cfg wc (session_init cfg) events in
  client_id (audio_buffer (session_init cfg)) = None /\
  client_id (audio_buffer (after st)) = None /\
  Forall (fun r => (r = partial_response None \/ exists t, r = final_response None t)
                   /\ field "participant_id" r = Some VNone)
    (sent st) /\
  (forall t, sets_participant (Text t) = false) /\
  (forall data, len data < 60 -> sets_participant (Binary data) = false) /\
  (forall data, ~ In x7c (take 60 data) -> sets_participant (Binary data) = false) /\
  (forall s data reply,
     len data < 60 ->
     audio_buffer (after (handle_message cfg wc s (Binary data) reply))
     = audio_buffer s).
Proof.
  intros Hall st.
  assert (Hall' : Forall (fun ev => sets_no_participant ev.1) events).
  { eapply Forall_impl; [exact Hall |]. intros ev Hev. cbn beta in Hev.
    apply sets_participant_false. exact Hev. }
  destruct (run_session_no_participant cfg wc events (session_init cfg) Hall' eq_refl)
    as [Hid Hsent].
  split; [reflexivity |]. split; [exact Hid |]. split.
  { eapply Forall_impl; [exact Hsent |].
    intros r [-> | [t ->]]; split; auto; [right; eauto]. }
  split; [reflexivity |]. split.
  { intros data Hshort. apply sets_participant_false. apply short_frame.
    exact Hshort. }
  split.
  { intros data Hbar. apply sets_participant_false. apply malformed_header.
    rewrite <- header_splits in Hbar. lia. }
  intros s data reply Hshort. unfold handle_message.
  destruct (Z.ltb_spec (len data) 60); [reflexivity | lia].
Qed.

(** ** Duplicate suppression *)

(** Handling one message either drains nothing and keeps the last accepted
    text, or drains once and answers as [respond] does. *)
Lemma handle_message_last (cfg : Config) (wc : WhisperClient) (s : session)
    (m : message) (reply : http_reply) :
  let st := handle_message cfg wc s m reply in
  let c := client_id (audio_buffer (after st)) in
  (sent st = [] /\ texts st = []
   /\ last_transcript (after st) = last_transcript s)
  \/ (exists text, texts st = [text] /\ raised st = None
      /\ ((sent st = [partial_response c]
           /\ last_transcript (after st) = last_transcript s
           /\ (text = None \/ text = Some [] \/ text = Some (last_transcript s)))
          \/ (exists t, text = Some t /\ t <> [] /\ t <> last_transcript s
              /\ sent st = [final_response c t]
              /\ last_transcript (after st) = t))).
Proof.
  intros st c.
  destruct (handle_message_cases cfg wc s m reply)
    as [Hst | (data & -> & Hlen & Hst)]; fold st in Hst.
  { left. rewrite Hst. auto. }
  destruct (process_threshold_cases cfg wc (receive (count_message s) data) reply)
    as [(e & _ & Hpt) | [(d & _ & _ & Hpt) | (d & _ & _ & Hpt)]];
    cbn zeta in Hpt; rewrite Hpt in Hst.
  - left. rewrite Hst. auto.
  - left. rewrite Hst. auto.
  - right.
    pose proof (drain_facts wc (receive (count_message s) data) reply)
      as (Ht & Hr & _ & Hc & _ & _ & _ & _ & Hs).
    cbn zeta in Ht, Hr, Hc, Hs. rewrite <- Hst in Ht, Hr, Hc, Hs.
    rewrite receive_last in Hs. cbn [count_message last_transcript] in Hs.
    eexists. split; [exact Ht |]. split; [exact Hr |].
    subst c. rewrite Hc.
    destruct Hs as [(Hs & Hl & _ & Hw) | (t & Htx & Hne & Hnew & Hs & Hl & _)].
    + left. auto.
    + right. exists t. auto.
Qed.

Lemma run_session_quiet (cfg : Config) (wc : WhisperClient)
    (events : list (message * http_reply)) :
  forall s : session,
  texts (run_session cfg wc s events) = [] ->
  sent (run_session cfg wc s events) = []
  /\ last_transcript (after (run_session cfg wc s events)) = last_transcript s.
Proof.
  induction events as [| [m reply] rest IH]; intros s Hq; simpl in *.
  - auto.
  - pose proof (handle_message_last cfg wc s m reply) as Hstep. cbn zeta in Hstep.
    destruct (raised (handle_message cfg wc s m reply)) eqn:Hraised.
    + destruct Hstep as [(Hs & _ & Hl) | (text & Ht & _)]; [auto | congruence].
    + cbn in *. apply app_eq_nil in Hq as [Hq1 Hq2].
      destruct Hstep as [(Hs & _ & Hl) | (text & Ht & _)]; [| congruence].
      destruct (IH _ Hq2) as [Hs' Hl']. rewrite Hs, Hs', Hl', Hl. auto.
Qed.

(** In every run, a final response is never followed directly by a final
    response with the same text; and the first response of a run is not a
    final carrying the text accepted last before the run. *)
Lemma run_session_no_repeat (cfg : Config) (wc : WhisperClient)
    (events : list (message * http_reply)) :
  forall s : session,
  no_repeated_final (sent (run_session cfg wc s events)) = true
  /\ forall r, head (sent (run_session cfg wc s events)) = Some r ->
               final_text r <> Some (last_transcript s).
Proof.
  induction events as [| [m reply] rest IH]; intros s; simpl.
  - split; [reflexivity | discriminate].
  - pose proof (handle_message_last cfg wc s m reply) as Hstep. cbn zeta in Hstep.
    set (st := handle_message cfg wc s m reply) in *.
    assert (Hone : sent st = [] /\ last_transcript (after st) = last_transcript s
                   \/ exists r, sent st = [r]
                        /\ final_text r <> Some (last_transcript s)
                        /\ (final_text r = None
                            \/ final_text r = Some (last_transcript (after st)))).
    { destruct Hstep as [(Hs & _ & Hl) | (text & _ & _ & [(Hs & Hl & _) | (t & _ & _ & Hnew & Hs & Hl)])].
      - left. auto.
      - right. eexists. split; [exact Hs |]. rewrite final_text_partial.
        split; [discriminate | left; reflexivity].
      - right. eexists. split; [exact Hs |]. rewrite final_text_final, Hl.
        split; [congruence | right; reflexivity]. }
    destruct (raised st).
    + destruct Hone as [[Hs _] | (r & Hs & Hne & _)]; rewrite Hs; simpl.
      * split; [reflexivity | discriminate].
      * split; [reflexivity |]. intros r' [= <-]. exact Hne.
    + cbn. destruct (IH (after st)) as [Hrest Hhead].
      destruct Hone as [[Hs Hl] | (r & Hs & Hne & Hafter)]; rewrite Hs; simpl.
      * rewrite <- Hl. split; assumption.
      * split; [| intros r' [= <-]; exact Hne].
        rewrite Hrest, andb_true_r.
        destruct (sent (run_session cfg wc (after st) rest)) as [| r2 tl] eqn:Htl;
          [reflexivity |].
        specialize (Hhead r2 eq_refl). unfold same_final.
        destruct Hafter as [Hn | Hsome]; [rewrite Hn; reflexivity |].
        rewrite Hsome. destruct (final_text r2) as [b |]; [| reflexivity].
        simpl. apply negb_true_iff, eqb_false. congruence.
Qed.

(** C3 (amended). Two drains of a session with no drain between them each
    produce the same non-empty accepted text [t]. The second sends a partial
    response: empty text, variance 1.0. The first sends a final response
    with [t] and records it as the last accepted text when [t] differs from
    the text accepted last before it, as it does on the first drain of a
    session; otherwise the first, too, sends a partial response. In no run
    do two final responses with the same text follow one another. *)
Theorem duplicate_suppression (cfg : Config) (wc : WhisperClient) (s : session)
    (m1 m2 : message) (reply1 reply2 : http_reply)
    (between : list (message * http_reply)) (t : pystr) :
  let st1 := handle_message cfg wc s m1 reply1 in
  let mid := run_session cfg wc (after st1) between in
  let st2 := handle_message cfg wc (after mid) m2 reply2 in
  t <> [] ->
  texts st1 = [Some t] ->
  texts mid = [] ->
  texts st2 = [Some t] ->
  sent st2 = [partial_response (client_id (audio_buffer (after st2)))]
  /\ field "text" (partial_response (client_id (audio_buffer (after st2))))
     = Some (VStr [])
  /\ field "variance" (partial_response (client_id (audio_buffer (after st2))))
     = Some (VFloat (float_of_int 1))
  /\ (t <> last_transcript s ->
      sent st1 = [final_response (client_id (audio_buffer (after st1))) t]
      /\ last_transcript (after st1) = t)
  /\ (t = last_transcript s ->
      sent st1 = [partial_response (client_id (audio_buffer (after st1)))])
  /\ no_repeated_final (sent st1 ++ sent mid ++ sent st2) = true
  /\ forall s0 events,
       no_repeated_final (sent (run_session cfg wc s0 events)) = true.
Proof.
  intros st1 mid st2 Hne H1 Hmid H2.
  pose proof (handle_message_last cfg wc s m1 reply1) as Hs1.
  pose proof (handle_message_last cfg wc (after mid) m2 reply2) as Hs2.
  cbn zeta in Hs1, Hs2. fold st1 in Hs1. fold st2 in Hs2.
  destruct (run_session_quiet cfg wc between (after st1) Hmid) as [Hsm Hlm].
  fold mid in Hsm, Hlm.
  assert (Hlast1 : last_transcript (after st1) = t).
  { destruct Hs1 as [(_ & Hq & _) | (text & Ht & _ & [(_ & Hl & Hw) | (t' & Htx & _ & _ & _ & Hl)])].
    - congruence.
    - rewrite Hl. rewrite H1 in Ht. injection Ht as <-.
      destruct Hw as [Hw | [Hw | Hw]]; congruence.
    - congruence. }
  assert (Hsent2 : sent st2 = [partial_response (client_id (audio_buffer (after st2)))]).
  { destruct Hs2 as [(_ & Hq & _) | (text & Ht & _ & [(Hs & _) | (t' & Htx & _ & Hnew & _)])].
    - congruence.
    - exact Hs.
    - exfalso. apply Hnew. rewrite Hlm, Hlast1. congruence. }
  split; [exact Hsent2 |]. split; [reflexivity |]. split; [reflexivity |].
  split; [| split; [| split]].
  - intros Hnew.
    destruct Hs1 as [(_ & Hq & _) | (text & Ht & _ & [(_ & _ & Hw) | (t' & Htx & _ & _ & Hs & Hl)])].
    + congruence.
    + rewrite H1 in Ht. injection Ht as <-.
      destruct Hw as [Hw | [Hw | Hw]]; congruence.
    + assert (t' = t) as -> by congruence. auto.
  - intros Hold.
    destruct Hs1 as [(_ & Hq & _) | (text & Ht & _ & [(Hs & _) | (t' & Htx & _ & Hnew & _)])].
    + congruence.
    + exact Hs.
    + exfalso. apply Hnew. congruence.
  - rewrite Hsm, Hsent2. simpl.
    destruct (sent st1) as [| r [| r' tl]] eqn:Hsent1; simpl.
    + reflexivity.
    + unfold same_final. rewrite final_text_partial.
      destruct (final_text r); reflexivity.
    + destruct Hs1 as [(Hq & _) | (text & _ & _ & [(Hs & _) | (t' & _ & _ & _ & Hs & _)])];
        congruence.
  - intros s0 events. apply run_session_no_repeat.
Qed.

(** ** Backend failures *)

Lemma read_result_failed (wc : WhisperClient) (lang : pystr) (reply : http_reply) :
  backend_failed reply = true ->
  or_none (read_result wc lang (sync_request reply)) = None.
Proof.
  unfold backend_failed, sync_request.
  destruct reply as [e | status_code json]; [reflexivity |].
  destruct (status_code =? 200); simpl; [| reflexivity].
  destruct json as [v |]; [| reflexivity].
  unfold read_result, malformed_payload, dict_get.
  destruct v as [| b | z | f | t | l | d]; try (destruct (py_truthy _); reflexivity).
  destruct (py_truthy (VDict d)); [| reflexivity].
  destruct (dict_lookup (str "text") d) as [[| b | z | f | t | l | d'] |];
    simpl; intros Hbad; (reflexivity || discriminate).
Qed.

Lemma transcribe_failed (wc : WhisperClient) (ab : AudioBuffer) (reply : http_reply) :
  backend_failed reply = true -> (transcribe wc ab reply).1 = None.
Proof.
  intros Hfail. unfold transcribe.
  destruct (py_lt _ _); [reflexivity |].
  destruct (to_wav ab) as [[wav |] | e]; try reflexivity.
  cbn [fst]. apply read_result_failed. exact Hfail.
Qed.

Lemma transcribe_textless (wc : WhisperClient) (ab : AudioBuffer)
    (reply : http_reply) :
  lacks_text reply = true ->
  (transcribe wc ab reply).1 = None \/ (transcribe wc ab reply).1 = Some [].
Proof.
  intros Hless. unfold transcribe.
  destruct (py_lt _ _); [left; reflexivity |].
  destruct (to_wav ab) as [[wav |] | e]; try (left; reflexivity).
  cbn [fst].
  destruct reply as [e | status_code [[| b | z | f | t | l | d] |]]; try discriminate.
  simpl in Hless. apply andb_true_iff in Hless as [Hok Hmissing].
  unfold sync_request. rewrite Hok.
  unfold read_result, dict_get.
  destruct (py_truthy (VDict d)); [| left; reflexivity].
  destruct (dict_lookup (str "text") d); [discriminate |].
  cbn [default]. change (strip []) with (@nil N).
  unfold is_hallucination.
  destruct (filter_enabled (filter wc)); simpl; [left | right]; reflexivity.
Qed.

Lemma transcribe_textless_cases (wc : WhisperClient) (ab : AudioBuffer)
    (reply : http_reply) :
  lacks_text reply = true ->
  (filter_enabled (filter wc) = true -> (transcribe wc ab reply).1 = None)
  /\ (filter_enabled (filter wc) = false ->
      py_lt (get_rms_energy ab) (silence_threshold wc) = false ->
      (exists wav, to_wav ab = Ok (Some wav)) ->
      py_truthy (sync_request reply) = true ->
      (transcribe wc ab reply).1 = Some []).
Proof.
  intros Hless.
  destruct reply as [e | status_code [[| b | z | f | t | l | d] |]]; try discriminate.
  simpl in Hless. apply andb_true_iff in Hless as [Hok Hmissing].
  assert (Hread : forall lang,
            or_none (read_result wc lang (sync_request (Response status_code (Some (VDict d)))))
            = if py_truthy (VDict d)
              then if filter_enabled (filter wc) then None else Some []
              else None).
  { intros lang. unfold sync_request. rewrite Hok.
    unfold read_result, dict_get.
    destruct (py_truthy (VDict d)); [| reflexivity].
    destruct (dict_lookup (str "text") d); [discriminate |].
    cbn [default]. change (strip []) with (@nil N).
    unfold is_hallucination.
    destruct (filter_enabled (filter wc)); reflexivity. }
  split.
  - intros Hon. unfold transcribe.
    destruct (py_lt _ _); [reflexivity |].
    destruct (to_wav ab) as [[wav |] | e]; try reflexivity.
    cbn [fst]. rewrite Hread, Hon. destruct (py_truthy (VDict d)); reflexivity.
  - intros Hoff Hloud [wav Hwav] Htruthy. unfold transcribe.
    rewrite Hloud, Hwav. cbn [fst]. rewrite Hread, Hoff.
    unfold sync_request in Htruthy. rewrite Hok in Htruthy. rewrite Htruthy.
    reflexivity.
Qed.

(** C7 (amended). Whatever goes wrong with the backend request (no
    response, a status other than 200, a body that is not JSON, a payload
    that is not an object or whose text is not a string), [transcribe]
    returns None instead of raising; a drain then sends the partial
    heartbeat, accepts no transcript and raises nothing, and an exception
    that ends the session never comes out of the transcription. One
    malformed payload is read differently: an object that merely lacks its
    text is taken as an empty text, so that None comes back when the filter
    is enabled and the empty string when it is disabled (and the chunk was
    loud enough to be sent and the object is not empty); the drain sends the
    same heartbeat either way. *)
Theorem backend_failure_degrades (cfg : Config) (wc : WhisperClient)
    (s : session) (m : message) (reply : http_reply) :
  backend_failed reply = true ->
  (forall ab, (transcribe wc ab reply).1 = None)
  /\ (let st := drain wc s reply in
      sent st = [partial_response (client_id (audio_buffer s))]
      /\ raised st = None
      /\ last_transcript (after st) = last_transcript s
      /\ transcript_count (after st) = transcript_count s)
  /\ (let st := handle_message cfg wc s m reply in
      (forall r, In r (sent st) ->
                 r = partial_response (client_id (audio_buffer (after st))))
      /\ (raised st = None
          \/ exists e data, m = Binary data
               /\ get_duration_ms (audio_buffer (receive (count_message s) data))
                  = Raise e))
  /\ (forall textless, lacks_text textless = true ->
      let text := (transcribe wc (audio_buffer s) textless).1 in
      backend_failed textless = false
      /\ (text = None \/ text = Some [])
      /\ (filter_enabled (filter wc) = true -> text = None)
      /\ (filter_enabled (filter wc) = false ->
          py_lt (get_rms_energy (audio_buffer s)) (silence_threshold wc) = false ->
          (exists wav, to_wav (audio_buffer s) = Ok (Some wav)) ->
          py_truthy (sync_request textless) = true ->
          text = Some [])
      /\ (let st := drain wc s textless in
          sent st = [partial_response (client_id (audio_buffer s))]
          /\ raised st = None
          /\ last_transcript (after st) = last_transcript s
          /\ transcript_count (after st) = transcript_count s)).
Proof.
  intros Hfail.
  assert (Hdrain : forall s0, let st := drain wc s0 reply in
            sent st = [partial_response (client_id (audio_buffer s0))]
            /\ raised st = None
            /\ last_transcript (after st) = last_transcript s0
            /\ transcript_count (after st) = transcript_count s0
            /\ client_id (audio_buffer (after st)) = client_id (audio_buffer s0)).
  { intros s0.
    pose proof (drain_facts wc s0 reply) as (_ & Hr & _ & Hc & _ & _ & _ & _ & Hs).
    cbn zeta in *. rewrite (transcribe_failed wc _ reply Hfail) in Hs.
    destruct Hs as [(Hs & Hl & Hn & _) | (t & Ht & _)]; [auto | discriminate]. }
  split; [intros ab; apply transcribe_failed; exact Hfail |].
  split; [destruct (Hdrain s) as (? & ? & ? & ? & _); auto |].
  split.
  - intros st.
    destruct (handle_message_cases cfg wc s m reply)
      as [Hst | (data & -> & Hlen & Hst)]; fold st in Hst.
    { rewrite Hst. split; [intros r [] | left; reflexivity]. }
    destruct (process_threshold_cases cfg wc (receive (count_message s) data) reply)
      as [(e & He & Hpt) | [(d & _ & _ & Hpt) | (d & _ & _ & Hpt)]];
      cbn zeta in Hpt; rewrite Hpt in Hst; rewrite Hst.
    + split; [intros r [] | right; eauto].
    + split; [intros r [] | left; reflexivity].
    + destruct (Hdrain (receive (count_message s) data)) as (Hs & Hr & _ & _ & Hc).
      rewrite Hs, Hr, Hc. split; [| left; reflexivity].
      intros r [<- | []]. reflexivity.
  - intros textless Hless text.
    assert (Htext : text = None \/ text = Some []).
    { subst text. apply transcribe_textless. exact Hless. }
    destruct (transcribe_textless_cases wc (audio_buffer s) textless Hless)
      as [Hon Hoff].
    split.
    { destruct textless as [e | status_code [[| b | z | f | t | l | d] |]];
        try discriminate.
      simpl in Hless |- *. apply andb_true_iff in Hless as [Hok Hmissing].
      rewrite Hok. cbn [negb orb].
      destruct (dict_lookup (str "text") d); [discriminate | reflexivity]. }
    split; [exact Htext |]. split; [exact Hon |]. split; [exact Hoff |].
    pose proof (drain_facts wc s textless)
      as (_ & Hr & _ & _ & _ & _ & _ & _ & Hs).
    cbn zeta in Hs, Hr. fold text in Hs.
    destruct Hs as [(Hs & Hl & Hn & _) | (t & Ht & Hne & _)]; [auto |].
    destruct Htext as [Hn | Hn]; rewrite Hn in Ht; [discriminate |].
    injection Ht as <-. contradiction.
Qed.

(** ** Authentication *)

(** C8. With authentication disabled, [verify] answers every token with the
    sentinel payload, the non-empty object whose issuer is no-auth-mode,
    whatever the token check would say, and the handler does not look at the
    request's credentials: no connection is closed as unauthorized. With
    authentication enabled, a request without a bearer token, and one whose
    token the check does not accept (expired, wrong audience, malformed, any
    other failure), is closed with status 1008 before any message is
    read. *)
Theorem authentication_gate (cfg : Config) (auth : JWTAuthenticator)
    (wc : WhisperClient) (conn : connection)
    (events : list (message * http_reply)) :
  (jwt_enabled auth = false ->
     (forall (other : Host) (token : pystr),
        @verify other auth token = Some no_auth_payload
        /\ @verify other auth token
           = Some [(str "iss", VStr (str "no-auth-mode"))]
        /\ exists payload,
             @verify other auth token = Some payload
             /\ payload <> []
             /\ py_truthy (VDict payload) = true
             /\ dict_lookup (str "iss") payload
                = Some (VStr (str "no-auth-mode")))
     /\ authenticate auth conn = None
     /\ handle_client cfg auth wc conn events
        = (if startswith (str "/streaming-whisper/ws/") (path conn)
           then Served (run_session cfg wc (session_init cfg) events)
           else Closed 1008 (str "Invalid path")))
  /\ (jwt_enabled auth = true ->
      let auth_header := default [] (authorization conn) in
      let token := strip (replace_empty (str "Bearer ") auth_header) in
      startswith (str "Bearer ") auth_header = false
      \/ (forall payload, jwt_decode token (public_key auth) (audience auth)
                          <> JwtPayload payload) ->
      (startswith (str "Bearer ") auth_header = true -> verify auth token = None)
      /\ exists reason,
           handle_client cfg auth wc conn events = Closed 1008 reason).
Proof.
  split.
  - intros Hoff. split; [| split].
    + intros other token.
      assert (Hverify : @verify other auth token = Some no_auth_payload).
      { unfold verify. rewrite Hoff. reflexivity. }
      split; [exact Hverify |]. split; [exact Hverify |].
      exists no_auth_payload. split; [exact Hverify |].
      split; [discriminate |]. split; reflexivity.
    + unfold authenticate. rewrite Hoff. reflexivity.
    + unfold handle_client, authenticate. rewrite Hoff.
      destruct (startswith (str "/streaming-whisper/ws/") (path conn));
        reflexivity.
  - intros Hon auth_header token Hcause.
    assert (Hverify : (forall payload,
                jwt_decode token (public_key auth) (audience auth)
                <> JwtPayload payload) -> verify auth token = None).
    { intros Hbad. unfold verify. rewrite Hon. simpl.
      destruct (jwt_decode token (public_key auth) (audience auth)) as [payload | | | |];
        [exfalso; eapply Hbad; reflexivity | reflexivity ..]. }
    split.
    + intros Hbearer. destruct Hcause as [Hmissing | Hbad]; [congruence | auto].
    + unfold handle_client, authenticate. rewrite Hon.
      fold auth_header.
      destruct (startswith (str "Bearer ") auth_header) eqn:Hbearer; simpl.
      * fold token. destruct Hcause as [Hmissing | Hbad]; [discriminate |].
        rewrite (Hverify Hbad). eauto.
      * eauto.
Qed.

(** ** Energy and the silence gate *)

Lemma pairs_ind (P : list byte -> Prop) :
  P [] -> (forall a, P [a]) -> (forall a b r, P r -> P (a :: b :: r)) ->
  forall l, P l.
Proof.
  intros Hnil Hone Hstep l.
  enough (Hboth : P l /\ forall a, P (a :: l)) by apply Hboth.
  induction l as [| b r [IHr IHcons]]; split; auto.
Qed.

Lemma unpack_pairs_length (data : list byte) :
  Z.of_nat (length (unpack_pairs data)) = len data / 2.
Proof.
  induction data as [| a | a b r IH] using pairs_ind; try reflexivity.
  unfold len in *. cbn [unpack_pairs length].
  replace (Z.of_nat (S (S (length r)))) with (Z.of_nat (length r) + 1 * 2) by lia.
  rewrite Z.div_add by lia. lia.
Qed.

Lemma unpack_pairs_silence (data : list byte) :
  Forall (eq x00) data -> sum_of_squares (unpack_pairs data) = 0.
Proof.
  induction data as [| a | a b r IH] using pairs_ind; intros Hz; try reflexivity.
  inversion Hz as [| ? ? <- Hz']; subst. inversion Hz' as [| ? ? <- Hz'']; subst.
  cbn [unpack_pairs sum_of_squares fold_right]. fold (sum_of_squares (unpack_pairs r)).
  rewrite (IH Hz''). reflexivity.
Qed.

Lemma int16_le_bound (lo hi : byte) : -32768 <= int16_le lo hi <= 32767.
Proof.
  unfold int16_le.
  assert (Hlo : Z.of_N (Byte.to_N lo) < 256).
  { pose proof (Byte.to_N_bounded lo). lia. }
  assert (Hhi : Z.of_N (Byte.to_N hi) < 256).
  { pose proof (Byte.to_N_bounded hi). lia. }
  destruct (Z.ltb_spec (Z.of_N (Byte.to_N lo) + 256 * Z.of_N (Byte.to_N hi)) 32768); lia.
Qed.

Lemma sum_of_squares_bound (data : list byte) :
  0 <= sum_of_squares (unpack_pairs data)
       <= Z.of_nat (length (unpack_pairs data)) * 2 ^ 30.
Proof.
  induction data as [| a | a b r IH] using pairs_ind; try (simpl; lia).
  cbn [unpack_pairs sum_of_squares fold_right length].
  fold (sum_of_squares (unpack_pairs r)).
  pose proof (int16_le_bound a b).
  change (2 ^ 30) with 1073741824 in *. nia.
Qed.

(** How [get_rms_energy] answers, by the length of the buffer. *)
Lemma rms_energy_cases (ab : AudioBuffer) :
  let n := len (buffer ab) in
  (n < 2 -> get_rms_energy ab = PyInt 0)
  /\ (Z.odd n = true -> get_rms_energy ab = PyInt 0)
  /\ (2 <= n -> Z.even n = true ->
      get_rms_energy ab
      = match int_true_div (sum_of_squares (unpack_pairs (buffer ab))) (n / 2) with
        | Ok mean => PyFloat (float_pow_half mean)
        | Raise _ => PyInt 0
        end).
Proof.
  intros n. unfold get_rms_energy. fold n. split; [| split].
  - intros Hn. destruct (Z.ltb_spec n 2); [reflexivity | lia].
  - intros Hodd. destruct (n <? 2); [reflexivity |].
    unfold struct_unpack_h. fold n.
    destruct (Z.eqb_spec n (2 * (n / 2))) as [Heq | Hneq]; [| reflexivity].
    rewrite Heq, Z.odd_mul in Hodd. discriminate.
  - intros Hn Heven. destruct (Z.ltb_spec n 2); [lia |].
    unfold struct_unpack_h. fold n.
    destruct (Z.eqb_spec n (2 * (n / 2))) as [Heq | Hneq].
    + cbn [res_bind]. rewrite unpack_pairs_length. fold n.
      destruct (int_true_div _ _); reflexivity.
    + exfalso. apply Hneq. apply Zeven_bool_iff, Zeven_div2 in Heven.
      rewrite Z.div2_div in Heven. exact Heven.
Qed.

(** A buffer of zero bytes has no energy. *)
Lemma rms_energy_of_silence (ab : AudioBuffer) :
  Forall (eq x00) (buffer ab) ->
  dyadic_of (get_rms_energy ab) = DFin 0 0.
Proof.
  intros Hz. unfold get_rms_energy.
  destruct (len (buffer ab) <? 2); [reflexivity |].
  unfold struct_unpack_h.
  destruct (len (buffer ab) =? 2 * (len (buffer ab) / 2)); [| reflexivity].
  cbn [res_bind]. rewrite (unpack_pairs_silence _ Hz).
  unfold int_true_div.
  destruct (Z.of_nat (length (unpack_pairs (buffer ab)))); reflexivity.
Qed.

Lemma py_lt_same_value (x y t : pynum) :
  dyadic_of x = dyadic_of y -> py_lt x t = py_lt y t.
Proof. intros Heq. unfold py_lt, py_compare. rewrite Heq. reflexivity. Qed.

Lemma transcribe_silent (wc : WhisperClient) (ab : AudioBuffer) (reply : http_reply) :
  py_lt (get_rms_energy ab) (silence_threshold wc) = true ->
  transcribe wc ab reply = (None, []).
Proof. intros Hsilent. unfold transcribe. rewrite Hsilent. reflexivity. Qed.

(** C4. A chunk whose energy is below the silence threshold, and so every
    chunk of zero bytes when the threshold is positive, makes [transcribe]
    return None without a backend request; a second call on the same chunk,
    whatever the backend would answer, does the same. *)
Theorem silence_gate (wc : WhisperClient) (ab : AudioBuffer)
    (reply1 reply2 : http_reply) :
  py_lt (get_rms_energy ab) (silence_threshold wc) = true
  \/ (Forall (eq x00) (buffer ab)
      /\ py_lt (PyInt 0) (silence_threshold wc) = true) ->
  py_lt (get_rms_energy ab) (silence_threshold wc) = true
  /\ transcribe wc ab reply1 = (None, [])
  /\ transcribe wc ab reply2 = (None, []).
Proof.
  intros Hcause.
  assert (Hsilent : py_lt (get_rms_energy ab) (silence_threshold wc) = true).
  { destruct Hcause as [Hlow | [Hz Hpos]]; [exact Hlow |].
    rewrite <- Hpos. apply py_lt_same_value.
    apply rms_energy_of_silence. exact Hz. }
  split; [exact Hsilent |].
  split; apply transcribe_silent; exact Hsilent.
Qed.

Lemma int16_le_value (lo hi : byte) : int16_le lo hi = sample_value lo hi.
Proof.
  unfold int16_le, sample_value. cbv zeta.
  assert (Hlo : 0 <= Z.of_N (Byte.to_N lo) < 256).
  { pose proof (Byte.to_N_bounded lo). lia. }
  assert (Hhi : 0 <= Z.of_N (Byte.to_N hi) < 256).
  { pose proof (Byte.to_N_bounded hi). lia. }
  set (word := Z.of_N (Byte.to_N lo) + 256 * Z.of_N (Byte.to_N hi)).
  assert (Hword : 0 <= word < 65536) by (subst word; lia).
  destruct (Z.ltb_spec word 32768) as [Hsmall | Hbig].
  - assert (Hbit : Z.testbit word 15 = false).
    { apply Z.testbit_false; [lia |].
      change (2 ^ 15) with 32768. rewrite Z.div_small by lia. reflexivity. }
    rewrite Hbit. reflexivity.
  - assert (Hbit : Z.testbit word 15 = true).
    { apply Z.testbit_true; [lia |].
      change (2 ^ 15) with 32768.
      assert (Hq : word / 32768 = 1).
      { symmetry. apply (Z.div_unique word 32768 1 (word - 32768)); lia. }
      rewrite Hq. reflexivity. }
    rewrite Hbit. reflexivity.
Qed.

Lemma unpack_pairs_samples (data : list byte) :
  unpack_pairs data = complete_samples data.
Proof.
  induction data as [| a | a b r IH] using pairs_ind; try reflexivity.
  cbn [unpack_pairs complete_samples]. rewrite IH, int16_le_value. reflexivity.
Qed.

Lemma sum_of_squares_sum (samples : list Z) :
  sum_of_squares samples = square_sum samples.
Proof.
  unfold sum_of_squares, square_sum.
  enough (Hacc : forall total,
            fold_left (fun total v => total + v * v) samples total
            = total + fold_right (fun s acc => s * s + acc) 0 samples).
  { rewrite Hacc. lia. }
  induction samples as [| v r IH]; intros total; cbn [fold_left fold_right];
    [lia |].
  rewrite IH. lia.
Qed.

(** C9. [get_rms_energy] returns a number for every buffer and never
    raises: 0 when the buffer holds fewer than two bytes, 0 when it holds an
    odd number of bytes (the unpacking error is swallowed), and otherwise
    the square root of the mean of the squares of its complete samples, the
    16-bit words of the buffer read low byte first in two's complement: the
    samples the code unpacks and the sum it forms are those of the
    specification, each sample within the 16-bit range, and the mean is a
    division that cannot fail. *)
Theorem rms_energy_total (ab : AudioBuffer) :
  let n := len (buffer ab) in
  let samples := complete_samples (buffer ab) in
  unpack_pairs (buffer ab) = samples
  /\ sum_of_squares (unpack_pairs (buffer ab)) = square_sum samples
  /\ Forall (fun v => -32768 <= v <= 32767) samples
  /\ if (n <? 2) || Z.odd n then get_rms_energy ab = PyInt 0
     else
       Z.of_nat (length samples) = n / 2
       /\ 0 < Z.of_nat (length samples)
       /\ 0 <= square_sum samples <= Z.of_nat (length samples) * 2 ^ 30
       /\ exists mean,
            int_true_div (square_sum samples) (Z.of_nat (length samples))
            = Ok mean
            /\ get_rms_energy ab = PyFloat (float_pow_half mean).
Proof.
  intros n samples.
  assert (Hsamples : unpack_pairs (buffer ab) = samples)
    by apply unpack_pairs_samples.
  assert (Hsum : sum_of_squares (unpack_pairs (buffer ab)) = square_sum samples).
  { rewrite Hsamples. apply sum_of_squares_sum. }
  split; [exact Hsamples |]. split; [exact Hsum |]. split.
  { subst samples. clear.
    induction (buffer ab) as [| a | a b r IH] using pairs_ind;
      cbn [complete_samples]; try constructor; [| exact IH].
    rewrite <- int16_le_value. apply int16_le_bound. }
  destruct (rms_energy_cases ab) as (Hshort & Hodd & Heven). fold n in Hshort, Hodd, Heven.
  destruct (Z.ltb_spec n 2) as [Hlt | Hge]; simpl; [auto |].
  destruct (Z.odd n) eqn:Ho; [auto |].
  assert (He : Z.even n = true) by (rewrite <- Z.negb_odd, Ho; reflexivity).
  pose proof (unpack_pairs_length (buffer ab)) as Hlen. fold n in Hlen.
  pose proof (sum_of_squares_bound (buffer ab)) as Hbound.
  rewrite Hsum, Hsamples in Hbound. rewrite Hsamples in Hlen.
  assert (Hdiv : 1 <= n / 2) by (apply Z.div_le_lower_bound; lia).
  split; [exact Hlen |]. split; [lia |]. split; [exact Hbound |].
  destruct (int_true_div_ok (square_sum samples) (Z.of_nat (length samples)))
    as [mean Hmean].
  - lia.
  - lia.
  - assert (2 ^ 30 < 2 ^ 1023) by (apply Z.pow_lt_mono_r; lia). nia.
  - exists mean. split; [exact Hmean |].
    rewrite (Heven Hge He), Hsum, <- Hlen, Hmean. reflexivity.
Qed.

(** ** The hallucination filter *)

Lemma lstrip_by_nil (p : N -> bool) (s : pystr) :
  lstrip_by p s = [] <-> forallb p s = true.
Proof.
  induction s as [| c r IH]; simpl; [tauto |].
  destruct (p c); simpl; [exact IH | split; discriminate].
Qed.

Lemma lstrip_by_head (p : N -> bool) (s : pystr) :
  lstrip_by p s = [] \/ exists c r, lstrip_by p s = c :: r /\ p c = false.
Proof.
  induction s as [| c r IH]; simpl; [left; reflexivity |].
  destruct (p c) eqn:Hp; [exact IH | right; eauto].
Qed.

Lemma forallb_rev (p : N -> bool) (s : pystr) :
  forallb p (rev s) = forallb p s.
Proof.
  induction s as [| c r IH]; simpl; [reflexivity |].
  rewrite forallb_app, IH. simpl. rewrite andb_true_r. apply andb_comm.
Qed.

(** Stripping leaves nothing exactly when every character is white space. *)
Lemma strip_nil (s : pystr) : strip s = [] <-> forallb isspace s = true.
Proof.
  unfold strip, rstrip_by. split.
  - intros Hnil.
    assert (Hrev : lstrip_by isspace (rev (lstrip_by isspace s)) = []).
    { destruct (lstrip_by isspace (rev (lstrip_by isspace s))); [reflexivity |].
      simpl in Hnil. destruct (rev l); discriminate. }
    apply lstrip_by_nil in Hrev. rewrite forallb_rev in Hrev.
    destruct (lstrip_by_head isspace s) as [Hall | (c & r & Hcr & Hc)].
    + apply lstrip_by_nil. exact Hall.
    + rewrite Hcr in Hrev. simpl in Hrev. rewrite Hc in Hrev. discriminate.
  - intros Hall. apply lstrip_by_nil in Hall. rewrite Hall. reflexivity.
Qed.

Lemma any_match_in (patterns : list pystr) (text_lower : pystr) :
  any_match patterns text_lower = true
  <-> exists pattern, In pattern patterns /\ re_match pattern text_lower = true.
Proof. unfold any_match. apply existsb_exists. Qed.

(** C6. [is_hallucination] answers a string language without raising. It
    says true exactly when the filter is enabled and the text is empty or
    all white space, or its lower-cased, stripped form is shorter than the
    minimum length, or that form is matched by a pattern registered for the
    language code cut at its first hyphen or by a pattern registered as
    common. A disabled filter says false to everything. *)
Theorem is_hallucination_iff (f : HallucinationFilter) (text lang : pystr) :
  let text_lower := strip (str_lower text) in
  let lang_code := hd [] (split 45 lang) in
  exists b, is_hallucination f text (VStr lang) = Ok b
  /\ (b = true <->
      filter_enabled f = true
      /\ (forallb isspace text = true
          \/ Z.of_nat (length text_lower) < min_length f
          \/ exists pattern,
               (In pattern (registered f lang_code)
                \/ In pattern (registered f (str "common")))
               /\ re_match pattern text_lower = true))
  /\ (filter_enabled f = false -> b = false).
Proof.
  intros text_lower lang_code. unfold is_hallucination.
  destruct (filter_enabled f) eqn:Hen; simpl.
  2:{ exists false. split; [reflexivity |]. split; [| reflexivity].
      split; [discriminate | intros [Hfalse _]; discriminate]. }
  assert (Hblank : negb (truthy text) || (Z.of_nat (length (strip text)) =? 0) = true
                   <-> forallb isspace text = true).
  { rewrite <- strip_nil. destruct text as [| c r]; simpl; [tauto |].
    rewrite Z.eqb_eq. split.
    - intros Hlen. destruct (strip (c :: r)); [reflexivity | simpl in Hlen; lia].
    - intros ->. reflexivity. }
  destruct (negb (truthy text) || (Z.of_nat (length (strip text)) =? 0)) eqn:Hb.
  { exists true. split; [reflexivity |]. split; [| discriminate].
    split; [| reflexivity]. intros _. split; [reflexivity |].
    left. apply Hblank. reflexivity. }
  assert (Hnot_blank : forallb isspace text <> true).
  { intros Hall. apply Hblank in Hall. discriminate. }
  fold text_lower.
  destruct (Z.ltb_spec (Z.of_nat (length text_lower)) (min_length f)) as [Hshort | Hlong].
  { exists true. split; [reflexivity |]. split; [| discriminate].
    split; [| reflexivity]. intros _. split; [reflexivity |]. right. left. exact Hshort. }
  fold lang_code.
  assert (Hlang : match compiled_patterns f !! lang_code with
                  | Some patterns => any_match patterns text_lower
                  | None => false
                  end = any_match (registered f lang_code) text_lower).
  { unfold registered. destruct (compiled_patterns f !! lang_code); reflexivity. }
  rewrite Hlang.
  destruct (any_match (registered f lang_code) text_lower) eqn:Hl.
  { exists true. split; [reflexivity |]. split; [| discriminate].
    split; [| reflexivity]. intros _. split; [reflexivity |]. right. right.
    apply any_match_in in Hl as (pattern & Hin & Hm). exists pattern. auto. }
  exists (any_match (registered f (str "common")) text_lower).
  split.
  { unfold registered. destruct (compiled_patterns f !! str "common"); reflexivity. }
  split; [| discriminate].
  split.
  - intros Hc. split; [reflexivity |]. right. right.
    apply any_match_in in Hc as (pattern & Hin & Hm). exists pattern. auto.
  - intros [_ [Hall | [Hshort | (pattern & [Hin | Hin] & Hm)]]].
    + contradiction.
    + lia.
    + assert (Hyes : any_match (registered f lang_code) text_lower = true)
        by (apply any_match_in; eauto).
      congruence.
    + apply any_match_in. eauto.
Qed.

End Properties.

(** * More properties of the bridge *)

Section MoreProperties.

Context `{Host}.

(** ** What a message does to the session *)

Lemma receive_keeps (s : session) (data : list byte) :
  sample_rate (audio_buffer (receive s data)) = sample_rate (audio_buffer s)
  /\ message_count (receive s data) = message_count s
  /\ transcript_count (receive s data) = transcript_count s
  /\ (client_id (audio_buffer s) <> None ->
      client_id (audio_buffer (receive s data)) <> None).
Proof.
  unfold receive. cbn [with_audio audio_buffer message_count transcript_count].
  rewrite buffer_audio_appends. cbn [with_buffer sample_rate client_id].
  unfold parse_header. destruct (2 <=? _); cbn; repeat split; auto; intros; discriminate.
Qed.

Lemma finals_partial (c : option pystr) : finals [partial_response c] = 0.
Proof. reflexivity. Qed.

Lemma finals_final (c : option pystr) (t : pystr) : finals [final_response c t] = 1.
Proof. reflexivity. Qed.

Lemma finals_app (a b : list pyval) : finals (a ++ b) = finals a + finals b.
Proof. unfold finals. rewrite List.filter_app, length_app. lia. Qed.

(** Everything one turn of the loop does to the counters and the buffer. *)
Lemma handle_message_accounts (cfg : Config) (wc : WhisperClient) (s : session)
    (m : message) (reply : http_reply) :
  let st := handle_message cfg wc s m reply in
  sample_rate (audio_buffer (after st)) = sample_rate (audio_buffer s)
  /\ message_count (after st) = message_count s + 1
  /\ transcript_count (after st) = transcript_count s + finals (sent st)
  /\ (client_id (audio_buffer s) <> None ->
      client_id (audio_buffer (after st)) <> None)
  /\ len (buffer (audio_buffer (after st))) <= len (buffer (audio_buffer s)) + payload m
  /\ length (sent st) = length (texts st)
  /\ (length (calls st) <= length (texts st))%nat
  /\ (length (texts st) <= 1)%nat
  /\ (raised st = None ->
      buffer (audio_buffer s) = [] \/ chunk_ready cfg (audio_buffer s) = false ->
      buffer (audio_buffer (after st)) = []
      \/ chunk_ready cfg (audio_buffer (after st)) = false).
Proof.
  intros st.
  destruct (handle_message_cases cfg wc s m reply)
    as [Hst | (data & -> & Hlen & Hst)]; fold st in Hst; rewrite Hst.
  { cbn. pose proof (Zle_0_nat (length (buffer (audio_buffer s)))).
    assert (0 <= payload m).
    { destruct m; simpl; unfold len; lia. }
    unfold finals, len in *. simpl. repeat split; auto; lia. }
  set (s' := receive (count_message s) data) in *.
  destruct (receive_keeps (count_message s) data) as (Hrate & Hmc & Htc & Hid).
  fold s' in Hrate, Hmc, Htc, Hid.
  cbn [count_message audio_buffer message_count transcript_count] in Hrate, Hmc, Htc, Hid.
  assert (Hbuf : len (buffer (audio_buffer s'))
                 = len (buffer (audio_buffer s)) + payload (Binary data)).
  { subst s'. rewrite receive_buffer. cbn [count_message audio_buffer payload].
    apply len_app. }
  assert (Hpos : 0 <= len (buffer (audio_buffer s'))) by (unfold len; lia).
  destruct (process_threshold_cases cfg wc s' reply)
    as [(e & He & Hpt) | [(d & Hd & Hge & Hpt) | (d & Hd & Hge & Hpt)]];
    cbn zeta in Hpt; rewrite Hpt.
  - unfold failed. cbn [after sent texts calls raised length].
    change (finals []) with 0.
    split; [exact Hrate |]. split; [exact Hmc |]. split; [lia |].
    split; [exact Hid |]. split; [lia |]. split; [reflexivity |].
    split; [lia |]. split; [lia | intros Hr; discriminate].
  - unfold quiet. cbn [after sent texts calls raised length].
    change (finals []) with 0.
    split; [exact Hrate |]. split; [exact Hmc |]. split; [lia |].
    split; [exact Hid |]. split; [lia |]. split; [reflexivity |].
    split; [lia |]. split; [lia |].
    intros _ _. right. unfold chunk_ready. rewrite Hd. exact Hge.
  - pose proof (drain_facts wc s' reply)
      as (Ht & Hr & Hb & Hc & _ & Hsr & Hm & Hcalls & Hs).
    cbn zeta in Ht, Hr, Hb, Hc, Hsr, Hm, Hcalls, Hs.
    rewrite Ht, Hb, Hc, Hsr, Hm. cbn [length]. 
    split; [exact Hrate |]. split; [exact Hmc |].
    assert (Hsent : transcript_count (after (drain wc s' reply))
                    = transcript_count s + finals (sent (drain wc s' reply))
                    /\ length (sent (drain wc s' reply)) = 1%nat).
    { destruct Hs as [(Hs & _ & Hn & _) | (t & _ & _ & _ & Hs & _ & Hn)];
        rewrite Hs, Hn.
      - rewrite finals_partial. split; [lia | reflexivity].
      - rewrite finals_final. split; [lia | reflexivity]. }
    destruct Hsent as [Hcount Hone].
    split; [exact Hcount |]. split; [exact Hid |].
    split; [change (len []) with 0; lia |].
    split; [exact Hone |]. split; [exact Hcalls |]. split; [lia |].
    intros _ _. left. reflexivity.
Qed.

Lemma run_session_step (cfg : Config) (wc : WhisperClient) (s : session)
    (m : message) (reply : http_reply) (rest : list (message * http_reply)) :
  let st := handle_message cfg wc s m reply in
  let run := run_session cfg wc s ((m, reply) :: rest) in
  (raised st <> None /\ run = st)
  \/ (raised st = None
      /\ after run = after (run_session cfg wc (after st) rest)
      /\ sent run = sent st ++ sent (run_session cfg wc (after st) rest)
      /\ texts run = texts st ++ texts (run_session cfg wc (after st) rest)
      /\ calls run = calls st ++ calls (run_session cfg wc (after st) rest)
      /\ raised run = raised (run_session cfg wc (after st) rest)).
Proof.
  cbn zeta. cbn [run_session].
  destruct (raised (handle_message cfg wc s m reply)) eqn:Hr.
  - left. split; [discriminate | reflexivity].
  - right. cbn. repeat split; reflexivity.
Qed.

(** ** Session totals *)

(** X1. Over any run of messages the counters tell the truth: the transcript
    count grows by the number of final responses sent, every transcription
    produced exactly one response and at most one backend request, no
    message is transcribed twice, and, unless an exception ended the loop,
    the message count grows by one per message of whatever kind. *)
Theorem session_totals (cfg : Config) (wc : WhisperClient)
    (events : list (message * http_reply)) (s : session) :
  let st := run_session cfg wc s events in
  transcript_count (after st) = transcript_count s + finals (sent st)
  /\ length (sent st) = length (texts st)
  /\ (length (calls st) <= length (texts st))%nat
  /\ Z.of_nat (length (texts st)) <= message_count (after st) - message_count s
  /\ message_count (after st) <= message_count s + Z.of_nat (length events)
  /\ (raised st = None ->
      message_count (after st) = message_count s + Z.of_nat (length events)).
Proof.
  revert s. induction events as [| [m reply] rest IH]; intros s.
  { cbn. change (finals []) with 0. repeat split; lia. }
  pose proof (handle_message_accounts cfg wc s m reply)
    as (_ & Hmc & Htc & _ & _ & Hst & Hcalls & Hone & _).
  cbn zeta in Hmc, Htc, Hst, Hcalls, Hone.
  destruct (run_session_step cfg wc s m reply rest)
    as [[Hr Hrun] | (Hr & Ha & Hs & Ht & Hc & Hraised)]; cbn zeta in *.
  - rewrite Hrun. cbn [length].
    split; [exact Htc |]. split; [exact Hst |]. split; [exact Hcalls |].
    split; [lia |]. split; [lia |]. intros Hnone. contradiction.
  - specialize (IH (after (handle_message cfg wc s m reply))).
    cbn zeta in IH. destruct IH as (IHt & IHs & IHc & IHm & IHle & IHeq).
    rewrite Ha, Hs, Ht, Hc, Hraised, finals_app, !length_app. cbn [length].
    split; [lia |]. split; [lia |]. split; [lia |].
    split; [lia |]. split; [lia |]. intros Hnone. specialize (IHeq Hnone). lia.
Qed.

(** X2. Between messages the buffer never holds a full chunk: after any run
    that no exception ended, the buffer is empty or its computed duration is
    below the threshold, as it was before the run. *)
Theorem buffer_stays_below_threshold (cfg : Config) (wc : WhisperClient)
    (events : list (message * http_reply)) (s : session) :
  let st := run_session cfg wc s events in
  raised st = None ->
  buffer (audio_buffer s) = [] \/ chunk_ready cfg (audio_buffer s) = false ->
  buffer (audio_buffer (after st)) = []
  \/ chunk_ready cfg (audio_buffer (after st)) = false.
Proof.
  revert s. induction events as [| [m reply] rest IH]; intros s; [cbn; auto |].
  intros st Hnone Hbelow. subst st.
  pose proof (handle_message_accounts cfg wc s m reply)
    as (_ & _ & _ & _ & _ & _ & _ & _ & Hinv).
  cbn zeta in Hinv.
  destruct (run_session_step cfg wc s m reply rest)
    as [[Hr Hrun] | (Hr & Ha & _ & _ & _ & Hraised)]; cbn zeta in *.
  - rewrite Hrun in Hnone. contradiction.
  - rewrite Ha. rewrite Hraised in Hnone.
    apply IH; [exact Hnone | apply Hinv; assumption].
Qed.

(** X3. The sample rate of a session never changes, and a participant, once
    named by a header, stays named: no message unsets it. *)
Theorem session_keeps_rate_and_participant (cfg : Config) (wc : WhisperClient)
    (events : list (message * http_reply)) (s : session) :
  let st := run_session cfg wc s events in
  sample_rate (audio_buffer (after st)) = sample_rate (audio_buffer s)
  /\ (client_id (audio_buffer s) <> None ->
      client_id (audio_buffer (after st)) <> None).
Proof.
  revert s. induction events as [| [m reply] rest IH]; intros s; [cbn; auto |].
  pose proof (handle_message_accounts cfg wc s m reply) as (Hrate & _ & _ & Hid & _).
  cbn zeta in Hrate, Hid.
  destruct (run_session_step cfg wc s m reply rest)
    as [[Hr Hrun] | (Hr & Ha & _)]; cbn zeta in *.
  - rewrite Hrun. auto.
  - rewrite Ha. destruct (IH (after (handle_message cfg wc s m reply))) as [IHr IHid].
    split; [congruence | auto].
Qed.

(** ** Exceptions in the loop *)

Lemma get_duration_ms_ok (ab : AudioBuffer) :
  0 < sample_rate ab -> len (buffer ab) < 2 ^ 1024 ->
  exists d, get_duration_ms ab = Ok d.
Proof.
  intros Hrate Hlen. unfold get_duration_ms.
  assert (Hn : 0 <= len (buffer ab)) by (unfold len; lia).
  assert (Hhalf : len (buffer ab) / 2 < 2 ^ 1023).
  { apply Z.div_lt_upper_bound; [lia |].
    change (2 ^ 1024) with (2 * 2 ^ 1023) in Hlen. exact Hlen. }
  assert (Hpow : 0 < 2 ^ 1023) by (apply Z.pow_pos_nonneg; lia).
  destruct (int_true_div_ok (len (buffer ab) / 2) (sample_rate ab)) as [q Hq].
  - apply Z.div_pos; lia.
  - exact Hrate.
  - nia.
  - rewrite Hq. cbn [res_bind]. eexists. reflexivity.
Qed.

(** X4. For a session with a positive sample rate (an integer, and a
    numeric threshold, as [Config] holds them) nothing the handler itself
    computes on a message raises: the header and the payload are taken in,
    the duration is computed and compared, the chunk is transcribed and the
    response chosen, whatever the frames hold and whatever the backend
    answers or fails with. So every message of a run is counted and every
    transcription gets as far as handing its response to [websocket.send].
    What the send does is not part of this: the handler re-raises a send
    that fails, and a run as modelled here ends at such a send. The bound on
    the bytes received only keeps the duration within the range of a
    float. *)
Theorem turns_reach_the_send (cfg : Config) (wc : WhisperClient)
    (events : list (message * http_reply)) (s : session) :
  0 < sample_rate (audio_buffer s) ->
  len (buffer (audio_buffer s)) + received events < 2 ^ 1024 ->
  let st := run_session cfg wc s events in
  raised st = None
  /\ message_count (after st) = message_count s + Z.of_nat (length events)
  /\ length (sent st) = length (texts st).
Proof.
  revert s. induction events as [| [m reply] rest IH]; intros s Hrate Hlen.
  { cbn. split; [reflexivity |]. split; [lia | reflexivity]. }
  cbn [received fold_right fst] in Hlen. fold (received rest) in Hlen.
  pose proof (handle_message_accounts cfg wc s m reply)
    as (Hsr & Hmc & _ & _ & Hbuf & Hone & _).
  cbn zeta in Hsr, Hmc, Hbuf, Hone.
  assert (Hrest : 0 <= received rest).
  { clear. induction rest as [| [m r] rest IHr]; [cbn; lia |].
    cbn [received fold_right fst]. fold (received rest).
    assert (0 <= payload m) by (destruct m; simpl; unfold len; lia). lia. }
  assert (Hstep : raised (handle_message cfg wc s m reply) = None).
  { destruct (handle_message_cases cfg wc s m reply)
      as [Hst | (data & -> & Hl & Hst)]; cbn zeta in Hst; rewrite Hst;
      [reflexivity |].
    destruct (process_threshold_cases cfg wc (receive (count_message s) data) reply)
      as [(e & He & Hpt) | [(d & _ & _ & Hpt) | (d & _ & _ & Hpt)]];
      cbn zeta in Hpt; rewrite Hpt.
    - exfalso.
      destruct (get_duration_ms_ok (audio_buffer (receive (count_message s) data)))
        as [d Hd].
      + destruct (receive_keeps (count_message s) data) as (Hk & _). rewrite Hk.
        exact Hrate.
      + rewrite receive_buffer, len_app. cbn [count_message audio_buffer].
        cbn [payload] in Hlen. lia.
      + congruence.
    - reflexivity.
    - pose proof (drain_facts wc (receive (count_message s) data) reply)
        as (_ & Hr & _). exact Hr. }
  destruct (run_session_step cfg wc s m reply rest)
    as [[Hr Hrun] | (_ & Ha & Hs & Ht & _ & Hraised)]; cbn zeta in *;
    [contradiction |].
  destruct (IH (after (handle_message cfg wc s m reply)))
    as (IHr & IHm & IHs); [rewrite Hsr; exact Hrate | lia |].
  cbn zeta in IHr, IHm, IHs.
  rewrite Hraised, Ha, Hs, Ht, !length_app, IHm, Hmc, IHs, Hone.
  split; [exact IHr |]. split; [cbn [length]; lia | reflexivity].
Qed.

(** X5. A session whose sample rate is 0 answers nothing: the first frame
    of 60 bytes or more ends it with a division by zero, before any
    transcription, response or backend request. *)
Theorem zero_sample_rate_ends_session (cfg : Config) (wc : WhisperClient)
    (events : list (message * http_reply)) (s : session) :
  sample_rate (audio_buffer s) = 0 ->
  (forall data reply, 60 <= len data ->
     handle_message cfg wc s (Binary data) reply
     = failed (receive (count_message s) data) ZeroDivisionError)
  /\ sent (run_session cfg wc s events) = []
  /\ texts (run_session cfg wc s events) = []
  /\ calls (run_session cfg wc s events) = [].
Proof.
  intros Hzero.
  assert (Hframe : forall s0 data reply,
            sample_rate (audio_buffer s0) = 0 -> 60 <= len data ->
            handle_message cfg wc s0 (Binary data) reply
            = failed (receive (count_message s0) data) ZeroDivisionError).
  { intros s0 data reply Hz Hl. rewrite handle_binary_long by exact Hl.
    unfold process_threshold, get_duration_ms.
    destruct (receive_keeps (count_message s0) data) as (Hk & _).
    rewrite Hk. cbn [count_message audio_buffer]. rewrite Hz. reflexivity. }
  split; [intros data reply Hl; apply Hframe; assumption |].
  revert s Hzero. induction events as [| [m reply] rest IH]; intros s Hzero;
    [cbn; auto |].
  pose proof (handle_message_accounts cfg wc s m reply) as (Hsr & _).
  cbn zeta in Hsr.
  assert (Hquiet : sent (handle_message cfg wc s m reply) = []
                   /\ texts (handle_message cfg wc s m reply) = []
                   /\ calls (handle_message cfg wc s m reply) = []).
  { destruct (handle_message_cases cfg wc s m reply)
      as [Hst | (data & -> & Hl & _)]; cbn zeta in *.
    - rewrite Hst. auto.
    - rewrite (Hframe s data reply Hzero Hl). auto. }
  destruct Hquiet as (Hs0 & Ht0 & Hc0).
  destruct (run_session_step cfg wc s m reply rest)
    as [[Hr Hrun] | (_ & _ & Hs & Ht & Hc & _)]; cbn zeta in *.
  - rewrite Hrun. auto.
  - rewrite Hs, Ht, Hc, Hs0, Ht0, Hc0. cbn [app].
    apply IH. rewrite Hsr. exact Hzero.
Qed.

(** ** What is sent *)

Lemma last_final_app (a b : list pyval) :
  last_final (a ++ b)
  = match last_final b with
    | Some t => Some t
    | None => last_final a
    end.
Proof.
  unfold last_final. rewrite fold_left_app.
  generalize (fold_left (fun found r => match final_text r with
                                        | Some t => Some t
                                        | None => found
                                        end) a None).
  induction b as [| r b IH]; intros acc; [reflexivity |].
  cbn [fold_left]. rewrite IH. symmetry. rewrite IH.
  destruct (fold_left _ b None); [reflexivity |].
  destruct (final_text r); reflexivity.
Qed.

(** X6. Every response a session sends is a partial response or a final
    response with a non-empty text, and the text kept for duplicate
    suppression is always the text of the most recent final response (or,
    before the first one, what it was at the start). *)
Theorem responses_and_last_transcript (cfg : Config) (wc : WhisperClient)
    (events : list (message * http_reply)) (s : session) :
  let st := run_session cfg wc s events in
  Forall (fun r => (exists c, r = partial_response c)
                   \/ (exists c t, r = final_response c t /\ t <> []))
    (sent st)
  /\ last_transcript (after st)
     = default (last_transcript s) (last_final (sent st)).
Proof.
  revert s. induction events as [| [m reply] rest IH]; intros s.
  { cbn. split; [constructor | reflexivity]. }
  pose proof (handle_message_last cfg wc s m reply) as Hstep.
  cbn zeta in Hstep.
  set (st := handle_message cfg wc s m reply) in *.
  assert (Hone : Forall (fun r => (exists c, r = partial_response c)
                                  \/ (exists c t, r = final_response c t /\ t <> []))
                   (sent st)
                 /\ last_transcript (after st)
                    = default (last_transcript s) (last_final (sent st))).
  { destruct Hstep as [(Hs & _ & Hl) | (text & _ & _ & [(Hs & Hl & _) | (t & _ & Hne & _ & Hs & Hl)])];
      rewrite Hs, Hl.
    - split; [constructor | reflexivity].
    - split; [| reflexivity]. constructor; [left; eauto | constructor].
    - split; [| reflexivity]. constructor; [right; eauto | constructor]. }
  destruct Hone as [Hshape Hlast].
  destruct (run_session_step cfg wc s m reply rest)
    as [[Hr Hrun] | (_ & Ha & Hs & _)]; cbn zeta in *.
  - fold st in Hrun. rewrite Hrun. split; assumption.
  - fold st in Ha, Hs. specialize (IH (after st)). cbn zeta in IH. destruct IH as [IHshape IHlast].
    rewrite Ha, Hs. split; [apply Forall_app; split; assumption |].
    rewrite IHlast, Hlast, last_final_app.
    destruct (last_final (sent (run_session cfg wc (after st) rest))); reflexivity.
Qed.

(** ** Transcription *)

Lemma split_fields_no_separator (sep : N) (s : pystr) :
  Forall (fun w => ~ In sep w) (split sep s).
Proof.
  induction s as [| c r IH]; simpl.
  - constructor; [simpl; tauto | constructor].
  - destruct (N.eqb_spec c sep) as [-> | Hc].
    + constructor; [simpl; tauto | exact IH].
    + destruct (split sep r) as [| w ws].
      * constructor; [simpl; intuition congruence | constructor].
      * inversion IH as [| w' ws' Hw Hws]; subst.
        constructor; [simpl; intuition congruence | exact Hws].
Qed.

Lemma first_field_no_separator (sep : N) (s : pystr) :
  ~ In sep (hd [] (split sep s)).
Proof.
  pose proof (split_fields_no_separator sep s) as Hall.
  destruct (split sep s) as [| w ws]; simpl; [tauto |].
  inversion Hall; assumption.
Qed.

Lemma strip_keeps (x : N) (s : pystr) : In x (strip s) -> In x s.
Proof.
  unfold strip, rstrip_by. rewrite <- in_rev.
  assert (Hsub : forall p l, In x (lstrip_by p l) -> In x l).
  { intros p l. induction l as [| c r IH]; simpl; [tauto |].
    destruct (p c); [auto | simpl; tauto]. }
  intros Hin. apply Hsub in Hin. rewrite <- in_rev in Hin.
  apply Hsub in Hin. exact Hin.
Qed.

(** X7. Where an accepted text comes from. If [transcribe] returns a text,
    the chunk was not silent, held audio and went to the backend in exactly
    one request carrying its WAV form; the backend answered 200 with a
    non-empty JSON object whose text is a string; the text returned is that
    string stripped, and the hallucination filter, asked with the language
    the backend reported (or, failing that, the language the request was
    made for), said no. *)
Theorem accepted_text_provenance (wc : WhisperClient) (ab : AudioBuffer)
    (reply : http_reply) (t : pystr) :
  (transcribe wc ab reply).1 = Some t ->
  exists d raw wav r,
    reply = Response 200 (Some (VDict d))
    /\ d <> []
    /\ dict_get (str "text") d (VStr []) = VStr raw
    /\ t = strip raw
    /\ is_hallucination (filter wc) t
         (dict_get (str "language") d (VStr (resolved_language wc ab)))
       = Ok false
    /\ py_lt (get_rms_energy ab) (silence_threshold wc) = false
    /\ buffer ab <> []
    /\ to_wav ab = Ok (Some wav)
    /\ (transcribe wc ab reply).2 = [r]
    /\ req_file r = wav.
Proof.
  unfold transcribe. fold (resolved_language wc ab).
  destruct (py_lt (get_rms_energy ab) (silence_threshold wc)) eqn:Hquiet;
    [discriminate |].
  destruct (to_wav ab) as [[wav |] | e] eqn:Hwav; try discriminate.
  cbn [fst snd]. intros Htext.
  assert (Hbuf : buffer ab <> []).
  { intros Hnil. unfold to_wav in Hwav. rewrite Hnil in Hwav. discriminate. }
  destruct reply as [e | status_code json]; [discriminate |].
  unfold sync_request in Htext.
  destruct (Z.eqb_spec status_code 200) as [-> | _]; [| discriminate].
  destruct json as [v |]; [| discriminate].
  unfold read_result in Htext.
  destruct (py_truthy v) eqn:Htruthy; [| discriminate].
  destruct v as [| b | z | f | s | l | d]; try discriminate.
  destruct (dict_get (str "text") d (VStr [])) as [| b | z | f | raw | l | d']
    eqn:Hget; try discriminate.
  cbn zeta in Htext.
  destruct (is_hallucination (filter wc) (strip raw)
              (dict_get (str "language") d (VStr (resolved_language wc ab))))
    as [[|] | e] eqn:Hfilter; try discriminate.
  cbn in Htext. injection Htext as <-.
  exists d, raw, wav. eexists.
  split; [reflexivity |].
  split; [intros ->; discriminate |].
  split; [exact Hget |].
  split; [reflexivity |].
  split; [exact Hfilter |].
  split; [reflexivity |].
  split; [exact Hbuf |].
  split; [reflexivity |].
  split; reflexivity.
Qed.

(** X8. What the backend is asked. The requests [transcribe] makes do not
    depend on the answer; a request goes to the configured URL with the
    configured timeout and carries the WAV form of the chunk; the form has a
    language entry exactly when the language in force is non-empty and is
    not the auto-detect code, and then the entry is that language. The
    language in force is the participant's language cut at its first hyphen
    (so it holds no hyphen) or, when the participant's language is empty,
    the default language as configured. *)
Theorem request_language (wc : WhisperClient) (ab : AudioBuffer)
    (reply other : http_reply) :
  (transcribe wc ab reply).2 = (transcribe wc ab other).2
  /\ Forall (fun r =>
       req_url r = url wc /\ req_timeout r = timeout wc
       /\ to_wav ab = Ok (Some (req_file r))
       /\ In (str "temperature", str "0.0") (req_data r)
       /\ In (str "response-format", str "json") (req_data r)
       /\ (forall l, In (str "language", l) (req_data r)
                     <-> l = resolved_language wc ab /\ l <> []
                         /\ l <> auto_detect_code wc))
      (transcribe wc ab reply).2
  /\ (language ab <> [] -> ~ In 45%N (resolved_language wc ab))
  /\ (language ab = [] -> resolved_language wc ab = default_language wc).
Proof.
  split; [| split; [| split]].
  - unfold transcribe. destruct (py_lt _ _); [reflexivity |].
    destruct (to_wav ab) as [[wav |] | e]; reflexivity.
  - unfold transcribe. fold (resolved_language wc ab).
    destruct (py_lt _ _); [constructor |].
    destruct (to_wav ab) as [[wav |] | e]; try constructor; [| constructor].
    cbn [req_url req_timeout req_file req_data].
    split; [reflexivity |]. split; [reflexivity |]. split; [reflexivity |].
    unfold form_data. split; [left; reflexivity |].
    split; [right; left; reflexivity |].
    intros l. generalize (resolved_language wc ab). intros code.
    destruct (eqb code (auto_detect_code wc)) eqn:Hauto.
    + apply eqb_true in Hauto. split.
      * intros [Hin | [Hin | []]]; discriminate.
      * intros (-> & _ & Hne). contradiction.
    + apply eqb_false in Hauto.
      destruct code as [| c code']; cbn [truthy app].
      * split.
        -- intros [Hin | [Hin | []]]; discriminate.
        -- intros (-> & Hne & _). congruence.
      * split.
        -- intros [Hin | [Hin | [Hin | []]]]; try discriminate.
           injection Hin as <-. repeat split; [discriminate | exact Hauto].
        -- intros (-> & _). right; right; left. reflexivity.
  - intros Hset. unfold resolved_language.
    destruct (language ab); [contradiction |]. cbn [truthy].
    apply first_field_no_separator.
  - intros Hempty. unfold resolved_language. rewrite Hempty. reflexivity.
Qed.

(** X9. With the filter enabled, an answer of the backend whose language
    entry is present but not a string (a JSON null, say) never yields a
    text: the filter either calls the text a hallucination or fails on the
    language, and [transcribe] turns the failure into None. With the filter
    disabled the language is not looked at. *)
Theorem non_string_language_drops_text (wc : WhisperClient) (ab : AudioBuffer)
    (status_code : Z) (d : pydict) (v : pyval) :
  dict_lookup (str "language") d = Some v ->
  (forall l, v <> VStr l) ->
  (filter_enabled (filter wc) = true ->
   (transcribe wc ab (Response status_code (Some (VDict d)))).1 = None)
  /\ (filter_enabled (filter wc) = false ->
      forall raw, dict_lookup (str "text") d = Some (VStr raw) ->
      forall wav, to_wav ab = Ok (Some wav) ->
      py_lt (get_rms_energy ab) (silence_threshold wc) = false ->
      (transcribe wc ab (Response 200 (Some (VDict d)))).1 = Some (strip raw)).
Proof.
  intros Hlang Hnot. split.
  - intros Hon. unfold transcribe.
    destruct (py_lt _ _); [reflexivity |].
    destruct (to_wav ab) as [[wav |] | e]; try reflexivity.
    cbn [fst]. unfold sync_request.
    destruct (status_code =? 200); [| reflexivity].
    unfold read_result.
    destruct (py_truthy (VDict d)); [| reflexivity].
    destruct (dict_get (str "text") d (VStr [])) as [| b | z | f | raw | l | d'];
      try reflexivity.
    cbn zeta. unfold is_hallucination, dict_get. rewrite Hon, Hlang.
    cbn [negb default].
    destruct (negb (truthy (strip raw)) || _); [reflexivity |].
    destruct (_ <? min_length (filter wc)); [reflexivity |].
    destruct v as [| b | z | f | l | l | d']; try reflexivity.
    exfalso. exact (Hnot l eq_refl).
  - intros Hoff raw Htext wav Hwav Hloud. unfold transcribe.
    rewrite Hloud, Hwav. cbn [fst]. unfold sync_request. cbn [Z.eqb Pos.eqb].
    unfold read_result.
    assert (Hd : py_truthy (VDict d) = true).
    { destruct d; [discriminate | reflexivity]. }
    rewrite Hd. unfold dict_get at 1. rewrite Htext. cbn [default]. cbn zeta.
    unfold is_hallucination. rewrite Hoff. reflexivity.
Qed.

(** ** Headers *)

(** X10. A well-formed header takes effect on the frame that carries it: if
    that frame brings the buffer to the threshold, the response names the
    participant of this very header and the backend request is made for
    this header's language. Neither field can hold a '|', and the
    participant is a string even when the field is empty. *)
Theorem header_applies_to_its_frame (cfg : Config) (wc : WhisperClient)
    (s : session) (data : list byte) (reply : http_reply) :
  60 <= len data ->
  In x7c (take 60 data) ->
  let st := handle_message cfg wc s (Binary data) reply in
  let p := strip (nth 0 (header_parts data) []) in
  let l := strip (nth 1 (header_parts data) []) in
  let code := if truthy l then hd [] (split 45 l) else default_language wc in
  client_id (audio_buffer (after st)) = Some p
  /\ language (audio_buffer (after st)) = l
  /\ Forall (fun r => field "participant_id" r = Some (VStr p)) (sent st)
  /\ Forall (fun q => req_data q
                      = form_data (if eqb code (auto_detect_code wc)
                                   then None else Some code)) (calls st)
  /\ ~ In 124%N p /\ ~ In 124%N l.
Proof.
  intros Hlen Hbar st p l code.
  assert (Hparts : (2 <= length (header_parts data))%nat)
    by (apply header_splits; exact Hbar).
  set (s1 := receive (count_message s) data).
  assert (Hid : client_id (audio_buffer s1) = Some p
                /\ language (audio_buffer s1) = l).
  { subst s1. unfold receive, buffer_audio, parse_header.
    cbn [count_message audio_buffer with_audio].
    destruct (Z.leb_spec 2 (Z.of_nat (length (header_parts data)))); [| lia].
    destruct (0 <? len (drop 60 data)); split; reflexivity. }
  destruct Hid as [Hp Hl].
  assert (Hst : st = process_threshold cfg wc s1 reply).
  { subst st s1. apply handle_binary_long. exact Hlen. }
  pose proof (process_threshold_client cfg wc s1 reply) as [Hkeep Hsent].
  cbn zeta in Hkeep, Hsent. rewrite <- Hst in Hkeep, Hsent.
  split; [rewrite Hkeep; exact Hp |].
  split.
  { destruct (process_threshold_cases cfg wc s1 reply)
      as [(e & _ & Hpt) | [(d & _ & _ & Hpt) | (d & _ & _ & Hpt)]];
      cbn zeta in Hpt; rewrite <- Hst in Hpt; rewrite Hpt.
    - exact Hl.
    - exact Hl.
    - pose proof (drain_facts wc s1 reply) as (_ & _ & _ & _ & Hlang & _).
      cbn zeta in Hlang. rewrite Hlang. exact Hl. }
  split.
  { eapply Forall_impl; [exact Hsent |]. intros r Hr. cbn beta in Hr.
    rewrite Hp in Hr. destruct Hr as [-> | [t ->]]; reflexivity. }
  split.
  { destruct (process_threshold_cases cfg wc s1 reply)
      as [(e & _ & Hpt) | [(d & _ & _ & Hpt) | (d & _ & _ & Hpt)]];
      cbn zeta in Hpt; rewrite <- Hst in Hpt; rewrite Hpt;
      try (cbn; constructor).
    unfold drain, transcribe. rewrite Hl. fold code.
    destruct (py_lt _ _).
    - destruct (respond s1 None). cbn. constructor.
    - destruct (to_wav (audio_buffer s1)) as [[wav |] | e].
      + destruct (respond s1 _). cbn [calls]. constructor; [| constructor].
        reflexivity.
      + destruct (respond s1 None). cbn. constructor.
      + destruct (respond s1 None). cbn. constructor. }
  assert (Hfields : Forall (fun w => ~ In 124%N w) (header_parts data))
    by apply split_fields_no_separator.
  assert (Hnth : forall i, ~ In 124%N (nth i (header_parts data) [])).
  { intros i Hin. destruct (lt_dec i (length (header_parts data))) as [Hi | Hi].
    - exact (proj1 (List.Forall_forall _ _) Hfields _ (nth_In _ _ Hi) Hin).
    - rewrite nth_overflow in Hin by lia. exact Hin. }
  split; intros Hin; apply strip_keeps in Hin; exact (Hnth _ Hin).
Qed.

End MoreProperties.

(** * Properties of the configuration *)

Section Configuration.

Lemma dict_lookup_set_same (key : pystr) (value : pyval) (d : pydict) :
  dict_lookup key (dict_set key value d) = Some value.
Proof.
  induction d as [| [k v] r IH]; simpl.
  - unfold eqb. rewrite bool_decide_eq_true_2 by reflexivity. reflexivity.
  - destruct (eqb k key) eqn:Hk; simpl; rewrite Hk; [reflexivity | exact IH].
Qed.

Lemma dict_lookup_set_other (key other : pystr) (value : pyval) (d : pydict) :
  other <> key ->
  dict_lookup other (dict_set key value d) = dict_lookup other d.
Proof.
  intros Hne. induction d as [| [k v] r IH]; simpl.
  - destruct (eqb key other) eqn:Hk; [| reflexivity].
    apply eqb_true in Hk. congruence.
  - destruct (eqb k key) eqn:Hk; simpl.
    + apply eqb_true in Hk. subst k.
      destruct (eqb key other) eqn:Hko; [| reflexivity].
      apply eqb_true in Hko. congruence.
    + rewrite IH. reflexivity.
Qed.

Lemma dict_set_keys (key : pystr) (value : pyval) (d : pydict) :
  map fst (dict_set key value d)
  = if contains key d then map fst d else map fst d ++ [key].
Proof.
  unfold contains. induction d as [| [k v] r IH]; simpl; [reflexivity |].
  destruct (eqb k key) eqn:Hk; simpl.
  - apply eqb_true in Hk. subst k. reflexivity.
  - rewrite IH. destruct (dict_lookup key r); reflexivity.
Qed.

Lemma dict_lookup_absent (key : pystr) (d : pydict) :
  dict_lookup key d = None <-> ~ In key (map fst d).
Proof.
  induction d as [| [k v] r IH]; simpl; [tauto |].
  destruct (eqb k key) eqn:Hk.
  - apply eqb_true in Hk. split; [discriminate | tauto].
  - apply eqb_false in Hk. rewrite IH. tauto.
Qed.

Lemma dict_lookup_present (key : pystr) (d : pydict) (value : pyval) :
  dict_lookup key d = Some value -> In key (map fst d).
Proof.
  induction d as [| [k v] r IH]; simpl; [discriminate |].
  destruct (eqb k key) eqn:Hk; [apply eqb_true in Hk; auto | auto].
Qed.

Lemma deep_merge_nil (base : pydict) : deep_merge base [] = base.
Proof. reflexivity. Qed.

Lemma deep_merge_cons (base : pydict) (key : pystr) (value : pyval)
    (rest : pydict) :
  deep_merge base ((key, value) :: rest)
  = deep_merge (merge_entry base key value) rest.
Proof.
  unfold deep_merge, merge_entry. cbn [merge_into].
  destruct (dict_lookup key base) as [[| b | z | f | t | l | sub] |];
    try reflexivity.
  destruct value; reflexivity.
Qed.

Lemma merge_entry_same (base : pydict) (key : pystr) (value : pyval) :
  dict_lookup key (merge_entry base key value)
  = Some match dict_lookup key base, value with
         | Some (VDict sub), VDict u => VDict (deep_merge sub u)
         | _, _ => value
         end.
Proof.
  unfold merge_entry.
  destruct (dict_lookup key base) as [[| b | z | f | t | l | sub] |];
    try apply dict_lookup_set_same.
  destruct value; apply dict_lookup_set_same.
Qed.

Lemma merge_entry_other (base : pydict) (key other : pystr) (value : pyval) :
  other <> key ->
  dict_lookup other (merge_entry base key value) = dict_lookup other base.
Proof.
  intros Hne. unfold merge_entry.
  destruct (dict_lookup key base) as [[| b | z | f | t | l | sub] |];
    try (apply dict_lookup_set_other; exact Hne).
  destruct value; apply dict_lookup_set_other; exact Hne.
Qed.

Lemma merge_entry_keys (base : pydict) (key : pystr) (value : pyval) :
  map fst (merge_entry base key value)
  = if contains key base then map fst base else map fst base ++ [key].
Proof.
  unfold merge_entry.
  destruct (dict_lookup key base) as [[| b | z | f | t | l | sub] |] eqn:Hk;
    try apply dict_set_keys.
  destruct value; apply dict_set_keys.
Qed.

(** ** Reading a setting *)

Lemma split_plain (sep : N) (s : pystr) : ~ In sep s -> split sep s = [s].
Proof.
  induction s as [| c r IH]; simpl; [reflexivity |].
  intros Hno. destruct (N.eqb_spec c sep) as [-> | Hc]; [tauto |].
  rewrite IH by tauto. reflexivity.
Qed.

Lemma split_at_separator (sep : N) (a b : pystr) :
  ~ In sep a -> split sep (a ++ sep :: b) = a :: split sep b.
Proof.
  induction a as [| c r IH]; simpl.
  - intros _. rewrite N.eqb_refl. reflexivity.
  - intros Hno. destruct (N.eqb_spec c sep) as [-> | Hc]; [tauto |].
    rewrite IH by tauto. reflexivity.
Qed.

Lemma walk_default_or_value (keys : list pystr) (value dflt : pyval) :
  keys <> [] ->
  walk keys value dflt = dflt \/ walk keys value dflt <> VNone.
Proof.
  revert value. induction keys as [| key rest IH]; intros value Hne;
    [contradiction |].
  cbn [walk]. destruct value as [| b | z | f | t | l | d]; auto.
  destruct (dict_get key d VNone) as [| b | z | f | t | l | d'] eqn:Hget; auto;
    (destruct rest as [| k rest']; [right; cbn; discriminate |
                                    apply IH; discriminate]).
Qed.

(** X11. [Config.get] reads a setting along a dotted path. The answer is
    the default or a value other than None: a setting stored as null reads
    as the default, while one stored as false, 0 or the empty string reads
    as itself. A path without a dot is a lookup in the top level; a path
    [section.rest] reads [rest] in the section when the section is a
    mapping, and is the default when the section is missing, null or not a
    mapping. *)
Theorem config_get_reads (data : pydict) (dflt : pyval) :
  (forall path, Config_get data path dflt = dflt
                \/ Config_get data path dflt <> VNone)
  /\ (forall key, ~ In 46%N key ->
        Config_get data key dflt
        = match dict_lookup key data with
          | Some VNone | None => dflt
          | Some found => found
          end)
  /\ (forall section rest, ~ In 46%N section ->
        Config_get data (section ++ 46%N :: rest) dflt
        = match dict_lookup section data with
          | Some (VDict d) => Config_get d rest dflt
          | _ => dflt
          end).
Proof.
  split; [| split].
  - intros path. unfold Config_get. apply walk_default_or_value.
    apply split_nonempty.
  - intros key Hkey. unfold Config_get. rewrite split_plain by exact Hkey.
    cbn [walk]. unfold dict_get.
    destruct (dict_lookup key data) as [[| b | z | f | t | l | d] |];
      reflexivity.
  - intros section rest Hsection. unfold Config_get.
    rewrite split_at_separator by exact Hsection.
    cbn [walk]. unfold dict_get.
    destruct (dict_lookup section data) as [[| b | z | f | t | l | d] |];
      cbn [default]; try reflexivity;
      pose proof (split_nonempty 46 rest) as Hne;
      destruct (split 46 rest) as [| k ks]; try contradiction; reflexivity.
Qed.

(** ** Merging a user file *)

Lemma deep_merge_lookup (update : pydict) :
  forall base key,
  NoDup (map fst update) ->
  dict_lookup key (deep_merge base update)
  = match dict_lookup key update with
    | None => dict_lookup key base
    | Some value =>
        Some match dict_lookup key base, value with
             | Some (VDict sub), VDict u => VDict (deep_merge sub u)
             | _, _ => value
             end
    end.
Proof.
  induction update as [| [k v] rest IH]; intros base key Hnodup;
    [reflexivity |].
  rewrite deep_merge_cons. cbn [map fst] in Hnodup.
  apply NoDup_cons in Hnodup as [Hfresh Hrest].
  rewrite IH by exact Hrest. cbn [dict_lookup].
  destruct (eqb k key) eqn:Hk.
  - apply eqb_true in Hk. subst k.
    assert (Hnone : dict_lookup key rest = None).
    { apply dict_lookup_absent. intros Hin. apply Hfresh.
      apply list_elem_of_In. exact Hin. }
    rewrite Hnone. apply merge_entry_same.
  - apply eqb_false in Hk.
    rewrite (merge_entry_other base k key v) by congruence.
    reflexivity.
Qed.

(** X12. [_deep_merge] on anything but a mapping raises AttributeError
    before the base is touched. On a mapping, whose keys are distinct as
    those of a [dict] are, it leaves under each key: the base's value if the
    update lacks the key; the merge of the two if both hold mappings; and
    otherwise the update's value, be it null, a scalar put in place of a
    mapping or a mapping put in place of a scalar. *)
Theorem deep_merge_entries (base : pydict) (update : pyval) (key : pystr) :
  match _deep_merge base update with
  | Ok merged =>
      exists items,
        update = VDict items
        /\ (NoDup (map fst items) ->
            dict_lookup key merged
            = match dict_lookup key items with
              | None => dict_lookup key base
              | Some value =>
                  Some match dict_lookup key base, value with
                       | Some (VDict sub), VDict u => VDict (deep_merge sub u)
                       | _, _ => value
                       end
              end)
  | Raise e => e = AttributeError /\ forall items, update <> VDict items
  end.
Proof.
  destruct update as [| b | z | f | t | l | items]; cbn [_deep_merge];
    try (split; [reflexivity | discriminate]).
  exists items. split; [reflexivity |].
  intros Hnodup. apply deep_merge_lookup. exact Hnodup.
Qed.

Lemma deep_merge_keys (update : pydict) :
  forall base,
  exists added, map fst (deep_merge base update) = map fst base ++ added.
Proof.
  induction update as [| [k v] rest IH]; intros base.
  - exists []. rewrite deep_merge_nil, app_nil_r. reflexivity.
  - rewrite deep_merge_cons.
    destruct (IH (merge_entry base k v)) as [added Hadded].
    rewrite Hadded, merge_entry_keys.
    destruct (contains k base); [eauto |].
    exists (k :: added). rewrite <- app_assoc. reflexivity.
Qed.

(** X13. [_deep_merge] never removes or reorders what the base has: the
    keys of the base stay, in their order, and the keys the update brings
    come after them. *)
Theorem deep_merge_keeps_keys (base update : pydict) :
  (exists added, map fst (deep_merge base update) = map fst base ++ added)
  /\ (forall key, contains key base = true
                  -> contains key (deep_merge base update) = true)
  /\ (length base <= length (deep_merge base update))%nat.
Proof.
  destruct (deep_merge_keys update base) as [added Hadded].
  split; [eauto |]. split.
  - intros key. unfold contains.
    destruct (dict_lookup key base) eqn:Hbase; [intros _ | discriminate].
    destruct (dict_lookup key (deep_merge base update)) eqn:Hmerged;
      [reflexivity |].
    apply dict_lookup_absent in Hmerged. exfalso. apply Hmerged.
    rewrite Hadded. apply in_or_app. left.
    eapply dict_lookup_present. exact Hbase.
  - apply (f_equal (@length _)) in Hadded.
    rewrite length_app, !length_map in Hadded. lia.
Qed.

Lemma config_get_setting (data : pydict) (section key : pystr) (dflt : pyval) :
  ~ In 46%N section -> ~ In 46%N key ->
  Config_get data (section ++ 46%N :: key) dflt
  = match setting data section key with
    | Some VNone | None => dflt
    | Some found => found
    end.
Proof.
  intros Hsection Hkey. unfold Config_get, setting.
  rewrite split_at_separator, split_plain by assumption.
  cbn [walk]. unfold dict_get.
  destruct (dict_lookup section data) as [[| b | z | f | t | l | d] |];
    try reflexivity.
  cbn.
  destruct (dict_lookup key d) as [[| b | z | f | t | l | d'] |]; reflexivity.
Qed.

(** X14. Reading [section.key] after a user file was merged in. A section
    the file does not name reads as before. A section the file gives as
    anything but a mapping (null, a scalar, a list) loses every setting:
    each reads as the caller's default. In a section both have as mappings,
    a key the file does not name reads as before, and a key the file gives
    a value other than a mapping reads as the file has it (null reading as
    the default). *)
Theorem merged_setting (base update : pydict) (section key : pystr)
    (dflt : pyval) :
  NoDup (map fst update) ->
  ~ In 46%N section -> ~ In 46%N key ->
  let path := section ++ 46%N :: key in
  let merged := deep_merge base update in
  (dict_lookup section update = None ->
   Config_get merged path dflt = Config_get base path dflt)
  /\ (forall v, dict_lookup section update = Some v ->
        (forall u, v <> VDict u) ->
        Config_get merged path dflt = dflt)
  /\ (forall b u, dict_lookup section base = Some (VDict b) ->
        dict_lookup section update = Some (VDict u) ->
        NoDup (map fst u) ->
        (dict_lookup key u = None ->
         Config_get merged path dflt = Config_get base path dflt)
        /\ (forall v, dict_lookup key u = Some v ->
              (forall d, v <> VDict d) ->
              Config_get merged path dflt
              = match v with VNone => dflt | _ => v end)).
Proof.
  intros Hnodup Hsection Hkey path merged. subst path merged.
  rewrite !config_get_setting by assumption. unfold setting.
  rewrite (deep_merge_lookup update base section Hnodup).
  split; [| split].
  - intros ->. reflexivity.
  - intros v -> Hnot.
    destruct (dict_lookup section base) as [[| b | z | f | t | l | sub] |];
      destruct v as [| b' | z' | f' | t' | l' | u]; try reflexivity;
      exfalso; eapply Hnot; reflexivity.
  - intros b u -> -> Hu. rewrite (deep_merge_lookup u b key Hu). split.
    + intros ->. reflexivity.
    + intros v -> Hnot.
      destruct (dict_lookup key b) as [[| b' | z | f | t | l | sub] |];
        destruct v as [| b'' | z' | f' | t' | l' | d]; try reflexivity;
        exfalso; eapply Hnot; reflexivity.
Qed.

(** ** Loading *)

(** X15. [load_config] gives the defaults, untouched, unless a non-empty
    path names a file that parses to a mapping; then it gives the defaults
    with that mapping merged in. A missing or unreadable file, an empty
    document (null), a list or a scalar all give the defaults. In every
    case each of the five default sections is still a key of the result. *)
Theorem load_config_cases (files : pystr -> config_file)
    (config_path : option pystr) :
  let loaded := load_config files config_path in
  (loaded = DEFAULT_CONFIG
   \/ exists p u, config_path = Some p /\ p <> []
                  /\ files p = Document (VDict u)
                  /\ loaded = deep_merge DEFAULT_CONFIG u)
  /\ (forall p, config_path = Some p ->
        files p = NoSuchFile \/ files p = Unreadable
        \/ (exists v, files p = Document v /\ forall u, v <> VDict u) ->
        loaded = DEFAULT_CONFIG)
  /\ (forall p u, config_path = Some p -> p <> [] ->
        files p = Document (VDict u) ->
        loaded = deep_merge DEFAULT_CONFIG u)
  /\ Forall (fun section => contains (str section) loaded = true)
       ["server"; "whisper"; "jwt"; "language"; "hallucination_filter"]%string.
Proof.
  intros loaded.
  assert (Hcases : loaded = DEFAULT_CONFIG
                   \/ exists p u, config_path = Some p /\ p <> []
                                  /\ files p = Document (VDict u)
                                  /\ loaded = deep_merge DEFAULT_CONFIG u).
  { subst loaded. unfold load_config.
    destruct config_path as [p |]; [| left; reflexivity].
    destruct p as [| c p']; [left; reflexivity |]. cbn [truthy].
    destruct (files (c :: p')) as [| | v] eqn:Hfile; try (left; reflexivity).
    destruct v as [| b | z | f | t | l | u]; try (left; reflexivity).
    right. exists (c :: p'), u. repeat split; [discriminate | exact Hfile]. }
  split; [exact Hcases |]. split; [| split].
  - intros p -> Hfile. subst loaded. unfold load_config.
    destruct (truthy p); [| reflexivity].
    destruct Hfile as [-> | [-> | (v & -> & Hnot)]]; try reflexivity.
    destruct v as [| b | z | f | t | l | u]; try reflexivity.
    exfalso. eapply Hnot. reflexivity.
  - intros p u -> Hp Hfile. subst loaded. unfold load_config.
    destruct p; [contradiction |]. cbn [truthy]. rewrite Hfile. reflexivity.
  - assert (Hkeep : forall key, contains key DEFAULT_CONFIG = true
                                -> contains key loaded = true).
    { intros key Hkey.
      destruct Hcases as [-> | (p & u & _ & _ & _ & ->)]; [exact Hkey |].
      destruct (deep_merge_keys u DEFAULT_CONFIG) as [added Hadded].
      unfold contains in *.
      destruct (dict_lookup key DEFAULT_CONFIG) eqn:Hbase; [| discriminate].
      destruct (dict_lookup key (deep_merge DEFAULT_CONFIG u)) eqn:Hmerged;
        [reflexivity |].
      apply dict_lookup_absent in Hmerged. exfalso. apply Hmerged.
      rewrite Hadded. apply in_or_app. left.
      eapply dict_lookup_present. exact Hbase. }
    repeat (constructor; [apply Hkeep; reflexivity |]). constructor.
Qed.

Lemma load_config_sections (files : pystr -> config_file)
    (config_path : option pystr) :
  let loaded := load_config files config_path in
  contains (str "server") loaded = true
  /\ contains (str "whisper") loaded = true
  /\ contains (str "jwt") loaded = true.
Proof.
  intros loaded.
  assert (Hkeep : forall key, contains key DEFAULT_CONFIG = true
                              -> contains key loaded = true).
  { intros key Hkey.
    assert (Hcases : loaded = DEFAULT_CONFIG
                     \/ exists u, loaded = deep_merge DEFAULT_CONFIG u).
    { subst loaded. unfold load_config.
      destruct config_path as [p |]; [| left; reflexivity].
      destruct (truthy p); [| left; reflexivity].
      destruct (files p) as [| | v]; try (left; reflexivity).
      destruct v as [| b | z | f | t | l | u]; try (left; reflexivity).
      right. exists u. reflexivity. }
    destruct Hcases as [-> | (u & ->)]; [exact Hkey |].
    destruct (deep_merge_keys u DEFAULT_CONFIG) as [added Hadded].
    unfold contains in *.
    destruct (dict_lookup key DEFAULT_CONFIG) eqn:Hbase; [| discriminate].
    destruct (dict_lookup key (deep_merge DEFAULT_CONFIG u)) eqn:Hmerged;
      [reflexivity |].
    apply dict_lookup_absent in Hmerged. exfalso. apply Hmerged.
    rewrite Hadded. apply in_or_app. left.
    eapply dict_lookup_present. exact Hbase. }
  repeat split; apply Hkeep; reflexivity.
Qed.

(** ** Command-line overrides *)

Lemma set_item_cases (data : pydict) (section key : pystr) (value : pyval) :
  (dict_lookup section data = None
   /\ set_item data section key value = inr KeyError)
  \/ (exists sub, dict_lookup section data = Some (VDict sub)
      /\ set_item data section key value
         = inl (dict_set section (VDict (dict_set key value sub)) data))
  \/ (exists v, dict_lookup section data = Some v /\ (forall d, v <> VDict d)
      /\ set_item data section key value = inr TypeError).
Proof.
  unfold set_item.
  destruct (dict_lookup section data) as [[| b | z | f | t | l | sub] |];
    [right; right | right; right | right; right | right; right | right; right
     | right; right | right; left | left];
    try (eexists; split; [reflexivity |]; split; [discriminate | reflexivity]).
  - exists sub. split; reflexivity.
  - split; reflexivity.
Qed.

Lemma set_item_contains (data data' : pydict) (section key : pystr)
    (value : pyval) (other : pystr) :
  set_item data section key value = inl data' ->
  contains other data' = contains other data.
Proof.
  destruct (set_item_cases data section key value)
    as [[_ ->] | [(sub & Hsub & ->) | (v & _ & _ & ->)]]; try discriminate.
  intros [= <-]. unfold contains.
  destruct (decide (other = section)) as [-> | Hne].
  - rewrite dict_lookup_set_same, Hsub. reflexivity.
  - rewrite dict_lookup_set_other by exact Hne. reflexivity.
Qed.

Lemma set_item_setting (data data' : pydict) (section key : pystr)
    (value : pyval) :
  set_item data section key value = inl data' ->
  setting data' section key = Some value
  /\ (forall s k, (s, k) <> (section, key) ->
        setting data' s k = setting data s k).
Proof.
  destruct (set_item_cases data section key value)
    as [[_ ->] | [(sub & Hsub & ->) | (v & _ & _ & ->)]]; try discriminate.
  intros [= <-]. unfold setting. split.
  - rewrite dict_lookup_set_same. apply dict_lookup_set_same.
  - intros s k Hne. destruct (decide (s = section)) as [-> | Hs].
    + rewrite dict_lookup_set_same, Hsub.
      apply dict_lookup_set_other. congruence.
    + rewrite dict_lookup_set_other by exact Hs. reflexivity.
Qed.

Lemma override_cases (given : bool) (section key : pystr) (value : pyval)
    (data : pydict + startup_error) (data' : pydict) :
  override given section key value data = inl data' ->
  exists d, data = inl d
            /\ ((given = false /\ data' = d)
                \/ (given = true /\ set_item d section key value = inl data')).
Proof.
  destruct data as [d | e]; [| discriminate]. cbn [override].
  destruct given; intros Hset; exists d; split; try reflexivity.
  - right. split; [reflexivity | exact Hset].
  - left. injection Hset as <-. split; reflexivity.
Qed.

Lemma override_only_type_error (given : bool) (section key : pystr)
    (value : pyval) (data : pydict + startup_error) :
  (forall e, data = inr e -> e = TypeError) ->
  (forall d, data = inl d -> contains section d = true) ->
  forall e, override given section key value data = inr e -> e = TypeError.
Proof.
  intros Hdata Hhas e. destruct data as [d | e']; [| exact (Hdata e)].
  cbn [override]. destruct given; [| discriminate].
  specialize (Hhas d eq_refl). unfold contains in Hhas.
  destruct (set_item_cases d section key value)
    as [[Hnone _] | [(sub & _ & ->) | (v & _ & _ & ->)]];
    [rewrite Hnone in Hhas; discriminate | discriminate |].
  intros [= <-]. reflexivity.
Qed.

Lemma override_contains (given : bool) (section key : pystr) (value : pyval)
    (data : pydict + startup_error) (other : pystr) :
  (forall d, data = inl d -> contains other d = true) ->
  forall d', override given section key value data = inl d' ->
             contains other d' = true.
Proof.
  intros Hhas d' Hset.
  apply override_cases in Hset as (d & -> & [[_ ->] | [_ Hset]]);
    [apply Hhas; reflexivity |].
  rewrite (set_item_contains _ _ _ _ _ other Hset). apply Hhas. reflexivity.
Qed.

(** X16. The overrides [main] applies after loading. They never fail for
    want of a section (a merge cannot remove one): the one exception they
    can raise is TypeError, on a section that is not a mapping. Without
    flags the loaded configuration is used as it is, and [--port 0] and an
    empty [--host] or [--whisper-url] count as no flag; when the overrides
    succeed, each flag given is what its setting then reads, [--no-jwt]
    turning [jwt.enabled] to false. *)
Theorem overrides_take_effect (files : pystr -> config_file)
    (args : arguments) :
  let loaded := load_config files (Some (arg_config args)) in
  let host := default [] (arg_host args) in
  let port := default 0 (arg_port args) in
  let whisper_url := default [] (arg_whisper_url args) in
  (forall e, main_config files args = inr e -> e = TypeError)
  /\ (host = [] -> port = 0 -> whisper_url = [] -> arg_no_jwt args = false ->
      main_config files args = inl loaded)
  /\ (forall d, main_config files args = inl d ->
        (host <> [] -> setting d (str "server") (str "host") = Some (VStr host))
        /\ (port <> 0 -> setting d (str "server") (str "port") = Some (VInt port))
        /\ (whisper_url <> [] ->
            setting d (str "whisper") (str "url") = Some (VStr whisper_url))
        /\ (arg_no_jwt args = true ->
            Config_get d (str "jwt.enabled") (VBool true) = VBool false)
        /\ (arg_no_jwt args = false ->
            setting d (str "jwt") (str "enabled")
            = setting loaded (str "jwt") (str "enabled"))).
Proof.
  intros loaded host port whisper_url.
  unfold main_config, apply_overrides. fold loaded host port whisper_url.
  pose proof (load_config_sections files (Some (arg_config args))) as Hsections.
  fold loaded in Hsections.
  destruct Hsections as (Hserver & Hwhisper & Hjwt).
  set (o1 := override (truthy host) (str "server") (str "host") (VStr host)
               (inl loaded)).
  set (o2 := override (negb (port =? 0)) (str "server") (str "port") (VInt port) o1).
  set (o3 := override (truthy whisper_url) (str "whisper") (str "url")
               (VStr whisper_url) o2).
  assert (H1 : forall other, contains other loaded = true ->
                 forall d, o1 = inl d -> contains other d = true).
  { intros other Hother d Hd. eapply override_contains; [| exact Hd].
    intros d0 [= <-]. exact Hother. }
  assert (H2 : forall other, contains other loaded = true ->
                 forall d, o2 = inl d -> contains other d = true).
  { intros other Hother d Hd. eapply override_contains; [| exact Hd].
    apply H1. exact Hother. }
  assert (H3 : forall other, contains other loaded = true ->
                 forall d, o3 = inl d -> contains other d = true).
  { intros other Hother d Hd. eapply override_contains; [| exact Hd].
    apply H2. exact Hother. }
  split; [| split].
  - apply override_only_type_error; [| apply H3; exact Hjwt].
    apply override_only_type_error; [| apply H2; exact Hwhisper].
    apply override_only_type_error; [| apply H1; exact Hserver].
    apply override_only_type_error; [discriminate |].
    intros d [= <-]. exact Hserver.
  - intros Hhost Hport Hurl Hno. subst o3 o2 o1.
    rewrite Hhost, Hport, Hurl, Hno. reflexivity.
  - intros d Hd.
    apply override_cases in Hd as (d3 & Hd3 & Hstep4).
    pose proof Hd3 as Hd3'. unfold o3 in Hd3'.
    apply override_cases in Hd3' as (d2 & Hd2 & Hstep3).
    pose proof Hd2 as Hd2'. unfold o2 in Hd2'.
    apply override_cases in Hd2' as (d1 & Hd1 & Hstep2).
    pose proof Hd1 as Hd1'. unfold o1 in Hd1'.
    apply override_cases in Hd1' as (d0 & [= <-] & Hstep1).
    assert (Hhost1 : host <> [] ->
              setting d1 (str "server") (str "host") = Some (VStr host)).
    { intros Hhost. destruct Hstep1 as [[Hgiven _] | [_ Hset]].
      - apply truthy_true in Hhost. congruence.
      - apply set_item_setting in Hset as [Hset _]. exact Hset. }
    assert (Hkeep2 : forall s k, (s, k) <> (str "server", str "port") ->
              setting d2 s k = setting d1 s k).
    { intros s k Hne. destruct Hstep2 as [[_ ->] | [_ Hset]]; [reflexivity |].
      apply set_item_setting in Hset as [_ Hset]. apply Hset. exact Hne. }
    assert (Hport2 : port <> 0 ->
              setting d2 (str "server") (str "port") = Some (VInt port)).
    { intros Hport. destruct Hstep2 as [[Hgiven _] | [_ Hset]].
      - apply negb_false_iff in Hgiven. apply Z.eqb_eq in Hgiven. contradiction.
      - apply set_item_setting in Hset as [Hset _]. exact Hset. }
    assert (Hkeep3 : forall s k, (s, k) <> (str "whisper", str "url") ->
              setting d3 s k = setting d2 s k).
    { intros s k Hne. destruct Hstep3 as [[_ ->] | [_ Hset]]; [reflexivity |].
      apply set_item_setting in Hset as [_ Hset]. apply Hset. exact Hne. }
    assert (Hurl3 : whisper_url <> [] ->
              setting d3 (str "whisper") (str "url") = Some (VStr whisper_url)).
    { intros Hurl. destruct Hstep3 as [[Hgiven _] | [_ Hset]].
      - apply truthy_true in Hurl. congruence.
      - apply set_item_setting in Hset as [Hset _]. exact Hset. }
    assert (Hkeep4 : forall s k, (s, k) <> (str "jwt", str "enabled") ->
              setting d s k = setting d3 s k).
    { intros s k Hne. destruct Hstep4 as [[_ ->] | [_ Hset]]; [reflexivity |].
      apply set_item_setting in Hset as [_ Hset]. apply Hset. exact Hne. }
    assert (Hkeep1 : forall s k, (s, k) <> (str "server", str "host") ->
              setting d1 s k = setting loaded s k).
    { intros s k Hne. destruct Hstep1 as [[_ ->] | [_ Hset]]; [reflexivity |].
      apply set_item_setting in Hset as [_ Hset]. apply Hset. exact Hne. }
    split; [| split; [| split; [| split]]].
    + intros Hhost. rewrite Hkeep4, Hkeep3, Hkeep2 by discriminate. auto.
    + intros Hport. rewrite Hkeep4, Hkeep3 by discriminate. auto.
    + intros Hurl. rewrite Hkeep4 by discriminate. auto.
    + intros Hno. destruct Hstep4 as [[Hgiven _] | [_ Hset]]; [congruence |].
      apply set_item_setting in Hset as [Hset _].
      change (str "jwt.enabled") with (str "jwt" ++ 46%N :: str "enabled").
      rewrite config_get_setting, Hset; [reflexivity | |];
        vm_compute; intuition discriminate.
    + intros Hno. destruct Hstep4 as [[_ ->] | [Hgiven _]]; [| congruence].
      rewrite Hkeep3, Hkeep2, Hkeep1 by discriminate. reflexivity.
Qed.

Lemma no_jwt_setting (files : pystr -> config_file) (args : arguments)
    (d : pydict) :
  main_config files args = inl d -> arg_no_jwt args = true ->
  Config_get d (str "jwt.enabled") (VBool true) = VBool false.
Proof.
  unfold main_config, apply_overrides. intros Hd Hno.
  apply override_cases in Hd as (d3 & _ & [[Hgiven _] | [_ Hset]]);
    [congruence |].
  apply set_item_setting in Hset as [Hset _].
  change (str "jwt.enabled") with (str "jwt" ++ 46%N :: str "enabled").
  rewrite config_get_setting, Hset; [reflexivity | |];
    vm_compute; intuition discriminate.
Qed.

(** ** Starting the authenticator *)

(** X23. [JWTAuthenticator.__init__] either gives an authenticator or
    raises. An enabled authenticator always holds the text of the key file
    the configuration names; a disabled one holds no key and no file was
    asked for. It raises only when enabled: ValueError when the key path is
    missing, null or empty, and otherwise exactly what opening or reading
    the file raised, of whatever class. A setting [jwt.enabled] that is
    absent or null counts as enabled. *)
Theorem authenticator_start (config : pydict) (open_key : pyval -> key_file) :
  let enabled := Config_get config (str "jwt.enabled") (VBool true) in
  let key_path := Config_get config (str "jwt.public_key_path") VNone in
  match JWTAuthenticator_init config open_key with
  | inl a =>
      auth_enabled a = enabled
      /\ (py_truthy enabled = true ->
          py_truthy key_path = true
          /\ exists text, open_key key_path = KeyText text
                          /\ auth_public_key a = Some text)
      /\ (py_truthy enabled = false ->
          auth_public_key a = None
          /\ forall other, JWTAuthenticator_init config other = inl a)
  | inr e =>
      py_truthy enabled = true
      /\ ((py_truthy key_path = false /\ e = ValueError)
          \/ (py_truthy key_path = true /\ open_key key_path = KeyRaises e))
  end
  /\ (py_truthy enabled = true -> py_truthy key_path = false ->
      JWTAuthenticator_init config open_key = inr ValueError)
  /\ (forall e, py_truthy enabled = true -> py_truthy key_path = true ->
        open_key key_path = KeyRaises e ->
        JWTAuthenticator_init config open_key = inr e)
  /\ (setting config (str "jwt") (str "enabled") = None
      \/ setting config (str "jwt") (str "enabled") = Some VNone ->
      py_truthy enabled = true).
Proof.
  intros enabled key_path. split; [| split; [| split]].
  - unfold JWTAuthenticator_init. cbv zeta.
    change (Config_get config (str "jwt.enabled") (VBool true)) with enabled.
    change (Config_get config (str "jwt.public_key_path") VNone) with key_path.
    clearbody enabled key_path.
    destruct (py_truthy enabled) eqn:Hon.
    + destruct (py_truthy key_path) eqn:Hpath; cbn [negb].
      * destruct (open_key key_path) as [e | text] eqn:Hopen.
        -- split; [reflexivity |]. right. split; reflexivity.
        -- cbn [auth_enabled auth_public_key]. split; [reflexivity |].
           split; [intros _; split; [reflexivity | eauto] | discriminate].
      * split; [reflexivity |]. left. split; reflexivity.
    + cbn [auth_enabled auth_public_key]. split; [reflexivity |].
      split; [discriminate |]. intros _. split; [reflexivity |].
      intros other. reflexivity.
  - intros Hon Hpath. unfold JWTAuthenticator_init. cbv zeta.
    fold enabled key_path. rewrite Hon, Hpath. reflexivity.
  - intros e Hon Hpath Hopen. unfold JWTAuthenticator_init. cbv zeta.
    fold enabled key_path. rewrite Hon, Hpath. cbn [negb]. rewrite Hopen.
    reflexivity.
  - intros Hunset. subst enabled.
    change (str "jwt.enabled") with (str "jwt" ++ 46%N :: str "enabled").
    rewrite config_get_setting by (vm_compute; intuition discriminate).
    destruct Hunset as [-> | ->]; reflexivity.
Qed.

End Configuration.

(** * Properties of the connection, the filter and the WAV form *)

Section Surroundings.

Context `{Host}.

(** X17. How a connection ends up. It is served, from a fresh session, only
    on a path under [/streaming-whisper/ws/] and only with authentication
    disabled or a bearer token whose decoded payload is not empty. It is
    closed, always with code 1008, for one of three reasons: no bearer
    token; a token that is rejected or decodes to an empty payload; a path
    elsewhere, which is looked at only once the credentials have passed and
    also when authentication is disabled. *)
Theorem connection_outcomes (cfg : Config) (auth : JWTAuthenticator)
    (wc : WhisperClient) (conn : connection)
    (events : list (message * http_reply)) :
  let auth_header := default [] (authorization conn) in
  let token := strip (replace_empty (str "Bearer ") auth_header) in
  match handle_client cfg auth wc conn events with
  | Served log =>
      log = run_session cfg wc (session_init cfg) events
      /\ startswith (str "/streaming-whisper/ws/") (path conn) = true
      /\ (jwt_enabled auth = false
          \/ (startswith (str "Bearer ") auth_header = true
              /\ exists claim claims,
                   jwt_decode token (public_key auth) (audience auth)
                   = JwtPayload (claim :: claims)))
  | Closed code reason =>
      code = 1008
      /\ ((reason = str "Unauthorized - Missing Bearer token"
           /\ jwt_enabled auth = true
           /\ startswith (str "Bearer ") auth_header = false)
          \/ (reason = str "Unauthorized - Invalid token"
              /\ jwt_enabled auth = true
              /\ startswith (str "Bearer ") auth_header = true
              /\ forall claim claims,
                   jwt_decode token (public_key auth) (audience auth)
                   <> JwtPayload (claim :: claims))
          \/ (reason = str "Invalid path"
              /\ startswith (str "/streaming-whisper/ws/") (path conn) = false
              /\ authenticate auth conn = None))
  end.
Proof.
  intros auth_header token. unfold handle_client.
  destruct (authenticate auth conn) as [closed |] eqn:Hauth.
  - unfold authenticate in Hauth. fold auth_header in Hauth.
    destruct (jwt_enabled auth) eqn:Hon; [| discriminate].
    destruct (startswith (str "Bearer ") auth_header) eqn:Hbearer;
      cbn [negb] in Hauth.
    + fold token in Hauth. unfold verify in Hauth. rewrite Hon in Hauth.
      cbn [negb] in Hauth.
      destruct (jwt_decode token (public_key auth) (audience auth))
        as [[| claim claims] | | | |] eqn:Hdecode;
        try discriminate; injection Hauth as <-;
        (split; [reflexivity |]); right; left;
        (split; [reflexivity |]); (split; [reflexivity |]);
        (split; [reflexivity |]); intros claim' claims'; discriminate.
    + injection Hauth as <-. split; [reflexivity |]. left. auto.
  - destruct (startswith (str "/streaming-whisper/ws/") (path conn)) eqn:Hpath;
      cbn [negb].
    + split; [reflexivity |]. split; [reflexivity |].
      unfold authenticate in Hauth. fold auth_header in Hauth.
      destruct (jwt_enabled auth) eqn:Hon; [| left; reflexivity].
      right.
      destruct (startswith (str "Bearer ") auth_header) eqn:Hbearer;
        cbn [negb] in Hauth; [| discriminate].
      split; [reflexivity |].
      fold token in Hauth. unfold verify in Hauth. rewrite Hon in Hauth.
      cbn [negb] in Hauth.
      destruct (jwt_decode token (public_key auth) (audience auth))
        as [[| claim claims] | | | |]; try discriminate. eauto.
    + split; [reflexivity |]. right; right. auto.
Qed.

(** X18. The filter looks at the language up to its first hyphen only: a
    language with a region ([en-US], [en-GB]) is judged as the bare
    language. *)
Theorem filter_ignores_region (f : HallucinationFilter) (text code region : pystr) :
  ~ In 45%N code ->
  is_hallucination f text (VStr (code ++ 45%N :: region))
  = is_hallucination f text (VStr code).
Proof.
  intros Hcode. unfold is_hallucination.
  rewrite split_at_separator by exact Hcode.
  rewrite (split_plain 45 code) by exact Hcode. reflexivity.
Qed.

(** ** The WAV form of a chunk *)

Lemma byte_of_value (z : Z) : Z.of_N (Byte.to_N (byte_of z)) = z mod 256.
Proof.
  unfold byte_of.
  assert (Hrange : 0 <= z mod 256 < 256) by (apply Z.mod_pos_bound; lia).
  destruct (Byte.of_N (Z.to_N (z mod 256))) as [b |] eqn:Hb.
  - apply Byte.to_of_N in Hb. cbn. rewrite Hb. lia.
  - apply Byte.of_N_None_iff in Hb. lia.
Qed.

Lemma int_from_bytes_le32 (z : Z) :
  0 <= z < 4294967296 -> int_from_bytes (le32 z) = z.
Proof.
  intros Hz. unfold le32, int_from_bytes. cbn [fold_right].
  rewrite !byte_of_value.
  pose proof (Z.div_mod z 256 ltac:(lia)) as H0.
  pose proof (Z.div_mod (z / 256) 256 ltac:(lia)) as H1.
  pose proof (Z.div_mod (z / 256 / 256) 256 ltac:(lia)) as H2.
  replace (z / 65536) with (z / 256 / 256)
    by (rewrite Z.div_div by lia; reflexivity).
  replace (z / 16777216) with (z / 256 / 256 / 256)
    by (rewrite !Z.div_div by lia; reflexivity).
  assert (H3 : (z / 256 / 256 / 256) mod 256 = z / 256 / 256 / 256).
  { apply Z.mod_small. split.
    - repeat (apply Z.div_pos; [| lia]). lia.
    - repeat (apply Z.div_lt_upper_bound; [lia |]). lia. }
  lia.
Qed.

(** X19. [to_wav] in full: an empty buffer has no WAV form; with a sample
    rate of 0 or less the writer fails, and [transcribe] then returns None
    without a request; otherwise, within the 32-bit sizes of the format, the
    result is a 44-byte RIFF header followed by the buffer itself, and the
    header's length, rate and byte-rate fields read back as the numbers
    they were written from. *)
Theorem to_wav_container (ab : AudioBuffer) :
  (buffer ab = [] -> to_wav ab = Ok None)
  /\ (buffer ab <> [] -> sample_rate ab <= 0 ->
      to_wav ab = Raise WaveError
      /\ forall wc reply, transcribe wc ab reply = (None, []))
  /\ (buffer ab <> [] -> 0 < sample_rate ab ->
      2 * sample_rate ab <= 4294967295 ->
      36 + len (buffer ab) <= 4294967295 ->
      exists wav,
        to_wav ab = Ok (Some wav)
        /\ len wav = 44 + len (buffer ab)
        /\ drop 44 wav = buffer ab
        /\ take 4 wav = bytes_lit "RIFF"
        /\ int_from_bytes (take 4 (drop 4 wav)) = 36 + len (buffer ab)
        /\ int_from_bytes (take 4 (drop 24 wav)) = sample_rate ab
        /\ int_from_bytes (take 4 (drop 28 wav)) = 2 * sample_rate ab
        /\ int_from_bytes (take 4 (drop 40 wav)) = len (buffer ab)).
Proof.
  assert (Hlen : buffer ab <> [] -> (len (buffer ab) =? 0) = false).
  { intros Hne. apply Z.eqb_neq. unfold len.
    destruct (buffer ab); [contradiction | simpl; lia]. }
  split; [| split].
  - intros Hnil. unfold to_wav. rewrite Hnil. reflexivity.
  - intros Hne Hrate.
    assert (Hwav : to_wav ab = Raise WaveError).
    { unfold to_wav, wave_write. rewrite (Hlen Hne).
      destruct (Z.leb_spec (sample_rate ab) 0); [reflexivity | lia]. }
    split; [exact Hwav |]. intros wc reply. unfold transcribe.
    rewrite Hwav. destruct (py_lt _ _); reflexivity.
  - intros Hne Hrate Hbyte Hsize. unfold to_wav, wave_write.
    rewrite (Hlen Hne).
    destruct (Z.leb_spec (sample_rate ab) 0); [lia |].
    destruct (Z.ltb_spec 4294967295 (2 * sample_rate ab)); [lia |].
    destruct (Z.ltb_spec 4294967295 (36 + len (buffer ab))); [lia |].
    cbn [orb res_bind]. eexists. split; [reflexivity |].
    assert (Hn : 0 <= len (buffer ab)) by (unfold len; lia).
    split; [| split; [| split; [| split; [| split; [| split]]]]].
    + unfold len. rewrite !length_app. cbn [bytes_lit le32 le16 length].
      change (length (bytes_lit "RIFF")) with 4%nat.
      change (length (bytes_lit "WAVEfmt ")) with 8%nat.
      change (length (bytes_lit "data")) with 4%nat.
      lia.
    + reflexivity.
    + reflexivity.
    + change (int_from_bytes (le32 (36 + len (buffer ab)))
              = 36 + len (buffer ab)).
      apply int_from_bytes_le32. lia.
    + change (int_from_bytes (le32 (sample_rate ab)) = sample_rate ab).
      apply int_from_bytes_le32. lia.
    + change (int_from_bytes (le32 (2 * sample_rate ab)) = 2 * sample_rate ab).
      apply int_from_bytes_le32. lia.
    + change (int_from_bytes (le32 (len (buffer ab))) = len (buffer ab)).
      apply int_from_bytes_le32. lia.
Qed.

(** X20. No audio is sent twice and none is sent in part. A backend
    request made while a message is handled carries, after the 44-byte
    header, exactly what the buffer held plus the payload of that message;
    whenever a transcription was attempted, with or without a request (a
    silent chunk), the buffer is empty afterwards; and when none was
    attempted the buffer holds the old bytes followed by the payload. *)
Theorem request_carries_whole_buffer (cfg : Config) (wc : WhisperClient)
    (s : session) (m : message) (reply : http_reply) :
  let st := handle_message cfg wc s m reply in
  let chunk := buffer (audio_buffer s)
               ++ match m with
                  | Binary data => drop 60 data
                  | Text _ => []
                  end in
  Forall (fun q => drop 44 (req_file q) = chunk
                   /\ len (req_file q) = 44 + len chunk) (calls st)
  /\ (texts st <> [] -> buffer (audio_buffer (after st)) = [])
  /\ (texts st = [] -> buffer (audio_buffer (after st)) = chunk).
Proof.
  intros st chunk.
  assert (Hquiet : st = quiet (count_message s) ->
            chunk = buffer (audio_buffer s) ->
            Forall (fun q => drop 44 (req_file q) = chunk
                             /\ len (req_file q) = 44 + len chunk) (calls st)
            /\ (texts st <> [] -> buffer (audio_buffer (after st)) = [])
            /\ (texts st = [] -> buffer (audio_buffer (after st)) = chunk)).
  { intros -> ->. cbn [quiet calls texts after count_message audio_buffer].
    split; [constructor |]. split; [contradiction | reflexivity]. }
  destruct m as [data | t];
    [| apply Hquiet; [reflexivity | subst chunk; apply app_nil_r]].
  destruct (Z.ltb_spec (len data) 60) as [Hshort | Hlong].
  { apply Hquiet.
    - subst st. unfold handle_message.
      destruct (Z.ltb_spec (len data) 60); [reflexivity | lia].
    - subst chunk. rewrite drop_ge by (unfold len in Hshort; lia).
      apply app_nil_r. }
  clear Hquiet.
  assert (Hst : st = process_threshold cfg wc (receive (count_message s) data) reply)
    by (apply handle_binary_long; exact Hlong).
  set (s1 := receive (count_message s) data) in *.
  assert (Hbuf : buffer (audio_buffer s1) = chunk).
  { subst s1 chunk. rewrite receive_buffer. reflexivity. }
  destruct (process_threshold_cases cfg wc s1 reply)
    as [(e & _ & Hpt) | [(d & _ & _ & Hpt) | (d & _ & _ & Hpt)]];
    cbn zeta in Hpt; rewrite Hpt in Hst; rewrite Hst.
  - cbn [failed calls texts after]. split; [constructor |].
    split; [contradiction | intros _; exact Hbuf].
  - cbn [quiet calls texts after]. split; [constructor |].
    split; [contradiction | intros _; exact Hbuf].
  - pose proof (drain_facts wc s1 reply) as (Ht & _ & Hempty & _).
    cbn zeta in Ht, Hempty. split; [| split].
    + assert (Hcalls : calls (drain wc s1 reply)
                       = (transcribe wc (audio_buffer s1) reply).2).
      { unfold drain. destruct (transcribe wc (audio_buffer s1) reply).
        destruct (respond s1 o). reflexivity. }
      rewrite Hcalls.
      eapply Forall_impl; [apply transcribe_request_file |].
      intros q Hq. cbn beta in Hq. apply to_wav_payload in Hq.
      rewrite Hbuf in Hq. exact Hq.
    + intros _. exact Hempty.
    + rewrite Ht. discriminate.
Qed.

(** ** Round trips *)

Lemma decode_ignore_ascii (bs : list byte) :
  Forall (fun b => (Byte.to_N b < 128)%N) bs ->
  Utf8.decode_ignore bs = map Byte.to_N bs.
Proof.
  induction 1 as [| b r Hb _ IH]; [reflexivity |].
  cbn [Utf8.decode_ignore map].
  destruct (N.ltb_spec (Byte.to_N b) 128); [| lia]. rewrite IH. reflexivity.
Qed.

Lemma lstrip_by_stop (p : N -> bool) (x y : pystr) (c : N) :
  p c = false -> lstrip_by p (x ++ c :: y) = lstrip_by p x ++ c :: y.
Proof.
  intros Hc. induction x as [| a x IH]; cbn [app lstrip_by].
  - rewrite Hc. reflexivity.
  - destruct (p a); [exact IH | reflexivity].
Qed.

Lemma lstrip_by_all (p : N -> bool) (x y : pystr) :
  forallb p x = true -> lstrip_by p (x ++ y) = lstrip_by p y.
Proof.
  induction x as [| a x IH]; cbn [app lstrip_by forallb]; [reflexivity |].
  intros Hall. apply andb_true_iff in Hall as [-> Hall]. auto.
Qed.

Lemma lstrip_by_clean (p : N -> bool) (s : pystr) :
  forallb (fun c => negb (p c)) s = true -> lstrip_by p s = s.
Proof.
  destruct s as [| c r]; cbn [lstrip_by forallb]; [reflexivity |].
  intros Hall. apply andb_true_iff in Hall as [Hc _].
  apply negb_true_iff in Hc. rewrite Hc. reflexivity.
Qed.

Lemma rstrip_by_stop (p : N -> bool) (a b : pystr) (c : N) :
  p c = false -> rstrip_by p (a ++ c :: b) = a ++ c :: rstrip_by p b.
Proof.
  intros Hc. unfold rstrip_by.
  replace (rev (a ++ c :: b)) with (rev b ++ c :: rev a).
  - rewrite lstrip_by_stop by exact Hc.
    rewrite rev_app_distr. cbn [rev]. rewrite rev_involutive, <- app_assoc.
    reflexivity.
  - rewrite rev_app_distr. cbn [rev]. rewrite <- app_assoc. reflexivity.
Qed.

Lemma rstrip_by_all (p : N -> bool) (b z : pystr) :
  forallb p z = true -> rstrip_by p (b ++ z) = rstrip_by p b.
Proof.
  intros Hall. unfold rstrip_by. rewrite rev_app_distr.
  rewrite lstrip_by_all; [reflexivity |].
  clear b. induction z as [| c z IH]; [reflexivity |].
  cbn [forallb rev] in *. apply andb_true_iff in Hall as [Hc Hall].
  rewrite forallb_app, IH by exact Hall. cbn. rewrite Hc. reflexivity.
Qed.

Lemma rstrip_by_clean (p : N -> bool) (s : pystr) :
  forallb (fun c => negb (p c)) s = true -> rstrip_by p s = s.
Proof.
  intros Hall. unfold rstrip_by. rewrite lstrip_by_clean.
  - apply rev_involutive.
  - clear -Hall. induction s as [| c s IH]; [reflexivity |].
    cbn [forallb rev] in *. apply andb_true_iff in Hall as [Hc Hall].
    rewrite forallb_app, IH by exact Hall. cbn. rewrite Hc. reflexivity.
Qed.

Lemma rstrip_by_sub (p : N -> bool) (x : N) (s : pystr) :
  In x (rstrip_by p s) -> In x s.
Proof.
  unfold rstrip_by. rewrite <- in_rev.
  assert (Hsub : forall l, In x (lstrip_by p l) -> In x l).
  { intros l. induction l as [| c r IH]; simpl; [tauto |].
    destruct (p c); [auto | simpl; tauto]. }
  intros Hin. apply Hsub in Hin. rewrite <- in_rev in Hin. exact Hin.
Qed.

(** X21. The header format round-trips. A frame that starts with an ASCII
    participant id, a '|', an ASCII language and NUL padding up to 60 bytes
    (neither field holding a '|') sets the participant to the id and the
    language to the language, each without surrounding white space and the
    language without trailing NULs or spaces; fields that hold no white
    space and no NUL come out exactly as they went in. *)
Theorem header_round_trip (ab : AudioBuffer) (id lang audio : list byte)
    (pad : nat) :
  Forall (fun b => (Byte.to_N b < 128)%N) (id ++ lang) ->
  ~ In x7c id -> ~ In x7c lang ->
  (length id + 1 + length lang + pad = 60)%nat ->
  let data := id ++ x7c :: lang ++ repeat x00 pad ++ audio in
  let cid := map Byte.to_N id in
  let clang := map Byte.to_N lang in
  parse_header ab data
  = {| sample_rate := sample_rate ab; buffer := buffer ab;
       client_id := Some (strip cid);
       language := strip (rstrip_chars [0%N; 32%N] clang) |}
  /\ drop 60 data = audio
  /\ (forallb (fun c => negb (isspace c) && negb (c =? 0)%N) (cid ++ clang)
      = true ->
      parse_header ab data
      = {| sample_rate := sample_rate ab; buffer := buffer ab;
           client_id := Some cid; language := clang |}).
Proof.
  intros Hascii Hid Hlang Hlen data cid clang.
  apply Forall_app in Hascii as [Hascii_id Hascii_lang].
  set (p := fun c : N => existsb (N.eqb c) [0%N; 32%N]).
  assert (Hhead : take 60 data = id ++ x7c :: lang ++ repeat x00 pad).
  { subst data.
    replace (id ++ x7c :: lang ++ repeat x00 pad ++ audio)
      with ((id ++ x7c :: lang ++ repeat x00 pad) ++ audio)
      by (rewrite <- !app_assoc; cbn [app]; rewrite <- !app_assoc; reflexivity).
    apply take_app_length'.
    rewrite length_app. cbn [length]. rewrite length_app, repeat_length. lia. }
  assert (Hdecoded : Utf8.decode_ignore (take 60 data)
                     = cid ++ 124%N :: clang ++ repeat 0%N pad).
  { rewrite Hhead, decode_ignore_ascii.
    - rewrite map_app. cbn [map]. rewrite map_app.
      replace (map Byte.to_N (repeat x00 pad)) with (repeat 0%N pad)
        by (clear; induction pad; cbn; congruence).
      reflexivity.
    - apply Forall_app. split; [exact Hascii_id |].
      constructor; [vm_compute; reflexivity |].
      apply Forall_app. split; [exact Hascii_lang |].
      clear. induction pad; constructor; [vm_compute; reflexivity | assumption]. }
  assert (Hcid : ~ In 124%N cid).
  { subst cid. rewrite <- decode_ignore_ascii by exact Hascii_id.
    rewrite decode_ignore_pipe. exact Hid. }
  assert (Hclang : ~ In 124%N clang).
  { subst clang. rewrite <- decode_ignore_ascii by exact Hascii_lang.
    rewrite decode_ignore_pipe. exact Hlang. }
  assert (Hparts : header_parts data = [cid; rstrip_chars [0%N; 32%N] clang]).
  { unfold header_parts. cbn zeta. rewrite Hdecoded.
    unfold rstrip_chars. fold p.
    rewrite rstrip_by_stop by reflexivity.
    rewrite rstrip_by_all
      by (clear; induction pad; [reflexivity | cbn [repeat forallb]; auto]).
    rewrite split_at_separator by exact Hcid.
    rewrite split_plain; [reflexivity |].
    intros Hin. apply Hclang. eapply rstrip_by_sub. exact Hin. }
  assert (Hparsed : parse_header ab data
            = {| sample_rate := sample_rate ab; buffer := buffer ab;
                 client_id := Some (strip cid);
                 language := strip (rstrip_chars [0%N; 32%N] clang) |}).
  { unfold parse_header. rewrite Hparts. reflexivity. }
  split; [exact Hparsed |]. split.
  - subst data.
    replace (id ++ x7c :: lang ++ repeat x00 pad ++ audio)
      with ((id ++ x7c :: lang ++ repeat x00 pad) ++ audio)
      by (rewrite <- !app_assoc; cbn [app]; rewrite <- !app_assoc; reflexivity).
    apply drop_app_length'.
    rewrite length_app. cbn [length]. rewrite length_app, repeat_length. lia.
  - intros Hclean. rewrite Hparsed.
    rewrite forallb_app in Hclean. apply andb_true_iff in Hclean as [Hc1 Hc2].
    assert (Hws : forall s, forallb (fun c => negb (isspace c) && negb (c =? 0)%N) s = true
                   -> forallb (fun c => negb (isspace c)) s = true
                      /\ forallb (fun c => negb (p c)) s = true).
    { clear. intros s. induction s as [| c s IH]; [split; reflexivity |].
      cbn [forallb]. intros Hall. apply andb_true_iff in Hall as [Hc Hall].
      apply andb_true_iff in Hc as [Hsp Hnul].
      destruct (IH Hall) as [IH1 IH2]. rewrite IH1, IH2, Hsp.
      split; [reflexivity |]. rewrite andb_true_r.
      subst p. cbn [existsb]. apply negb_true_iff in Hnul. rewrite Hnul.
      cbn [orb]. rewrite orb_false_r.
      destruct (N.eqb_spec c 32) as [-> | _]; [discriminate | reflexivity]. }
    destruct (Hws cid Hc1) as [Hid_ws _].
    destruct (Hws clang Hc2) as [Hlang_ws Hlang_nul].
    unfold rstrip_chars. fold p. rewrite (rstrip_by_clean p clang Hlang_nul).
    unfold strip.
    rewrite !lstrip_by_clean, !rstrip_by_clean by assumption.
    reflexivity.
Qed.

Lemma startswith_prefix (prefix s : pystr) :
  startswith prefix s = true -> s = prefix ++ drop (length prefix) s.
Proof.
  revert s. induction prefix as [| a prefix IH]; intros s; [reflexivity |].
  destruct s as [| c s]; cbn [startswith]; [discriminate |].
  intros Hstart. apply andb_true_iff in Hstart as [Hac Hrest].
  apply N.eqb_eq in Hac. subst c. cbn [length drop app].
  rewrite <- (IH s Hrest). reflexivity.
Qed.

Lemma remove_all_absent (old s : pystr) (x : N) (fuel : nat) :
  In x old -> ~ In x s -> (length s <= fuel)%nat -> remove_all old s fuel = s.
Proof.
  intros Hold. revert s. induction fuel as [| fuel IH]; intros s Hout Hfuel.
  - destruct s; [reflexivity | simpl in Hfuel; lia].
  - destruct s as [| c s]; [reflexivity |]. cbn [remove_all].
    destruct (startswith old (c :: s)) eqn:Hstart.
    + exfalso. apply startswith_prefix in Hstart. apply Hout.
      rewrite Hstart. apply in_or_app. left. exact Hold.
    + rewrite IH; [reflexivity | simpl in Hout; tauto | simpl in Hfuel; lia].
Qed.

Lemma startswith_app (old s : pystr) : startswith old (old ++ s) = true.
Proof.
  induction old as [| a old IH]; [reflexivity |].
  cbn [app startswith]. rewrite N.eqb_refl. exact IH.
Qed.

Lemma remove_all_prefix (old s : pystr) (fuel : nat) :
  old <> [] ->
  remove_all old (old ++ s) (S fuel) = remove_all old s fuel.
Proof.
  intros Hold. destruct old as [| a old]; [contradiction |].
  change (remove_all (a :: old) ((a :: old) ++ s) (S fuel))
    with (if startswith (a :: old) ((a :: old) ++ s)
          then remove_all (a :: old)
                 (drop (length (a :: old)) ((a :: old) ++ s)) fuel
          else a :: remove_all (a :: old) (old ++ s) fuel).
  rewrite startswith_app, drop_app_length. reflexivity.
Qed.

(** X22. The bearer token round-trips: for a token without white space (as
    a JWT is), the header [Bearer <token>] passes the prefix test and the
    token handed to [verify] is exactly that token, so the connection is
    turned away or not as [verify] decides for it. *)
Theorem bearer_token_round_trip (auth : JWTAuthenticator) (token : pystr) :
  forallb (fun c => negb (isspace c)) token = true ->
  let header := str "Bearer " ++ token in
  startswith (str "Bearer ") header = true
  /\ strip (replace_empty (str "Bearer ") header) = token
  /\ (jwt_enabled auth = true ->
      authenticate auth {| authorization := Some header; path := [] |}
      = match verify auth token with
        | Some (_ :: _) => None
        | _ => Some (Closed 1008 (str "Unauthorized - Invalid token"))
        end).
Proof.
  intros Hclean header.
  assert (Hstart : startswith (str "Bearer ") header = true)
    by apply startswith_app.
  assert (Hspace : ~ In 32%N token).
  { intros Hin. rewrite forallb_forall in Hclean.
    specialize (Hclean 32%N Hin). discriminate. }
  assert (Htoken : strip (replace_empty (str "Bearer ") header) = token).
  { unfold replace_empty. subst header. rewrite length_app.
    change (length (str "Bearer ") + length token)%nat
      with (S (6 + length token)).
    rewrite remove_all_prefix by discriminate.
    rewrite (remove_all_absent (str "Bearer ") token 32%N);
      [| vm_compute; tauto | exact Hspace | lia].
    unfold strip. rewrite lstrip_by_clean, rstrip_by_clean by exact Hclean.
    reflexivity. }
  split; [exact Hstart |]. split; [exact Htoken |].
  intros Hon. unfold authenticate. rewrite Hon.
  cbn [authorization]. change (default [] (Some header)) with header.
  cbn zeta. rewrite Hstart. cbn [negb]. rewrite Htoken.
  destruct (verify auth token) as [[| claim claims] |]; reflexivity.
Qed.

(** X24. With [--no-jwt], whatever the configuration file holds, the
    authenticator starts disabled without a key file being opened, and as
    the handler uses it, it turns no connection away. *)
Theorem no_jwt_flag_disables (files : pystr -> config_file) (args : arguments)
    (d : pydict) (open_key : pyval -> key_file) :
  arg_no_jwt args = true ->
  main_config files args = inl d ->
  exists a,
    JWTAuthenticator_init d open_key = inl a
    /\ py_truthy (auth_enabled a) = false
    /\ auth_public_key a = None
    /\ forall auth conn token,
         as_JWTAuthenticator a = Some auth ->
         authenticate auth conn = None
         /\ verify auth token = Some no_auth_payload.
Proof.
  intros Hno Hd.
  pose proof (no_jwt_setting files args d Hd Hno) as Hoff.
  unfold JWTAuthenticator_init. rewrite Hoff. cbn [py_truthy].
  eexists. split; [reflexivity |]. cbn [auth_enabled auth_public_key py_truthy].
  split; [reflexivity |]. split; [reflexivity |].
  intros auth conn token Hauth. unfold as_JWTAuthenticator in Hauth.
  cbn [auth_audience auth_enabled auth_public_key py_truthy] in Hauth.
  destruct (Config_get d (str "jwt.audience") (VStr (str "whisper-service")));
    try discriminate.
  injection Hauth as <-. split; reflexivity.
Qed.

End Surroundings.

(** * The bridge on the sample host *)

#[local] Existing Instance SampleHost.host.

Ltac run := vm_compute; first [reflexivity | discriminate | lia | tauto].

Ltac conjuncts := repeat match goal with |- _ /\ _ => split end.

(** ** The examples of the specification *)

Example empty_text_filtered :
  is_hallucination default_filter (str "") (VStr (str "en")) = Ok true.
Proof. reflexivity. Qed.

Example short_text_filtered :
  is_hallucination default_filter (str "ok") (VStr (str "en")) = Ok true.
Proof. run. Qed.

Example okay_kept :
  is_hallucination default_filter (str "okay") (VStr (str "en")) = Ok false.
Proof. run. Qed.

Example thanks_filtered :
  is_hallucination default_filter (str " Thank you. ") (VStr (str "en-US")) = Ok true.
Proof. run. Qed.

Example thanks_kept_in_german :
  is_hallucination default_filter (str "Thank you.") (VStr (str "de")) = Ok false.
Proof. run. Qed.

Example music_filtered_everywhere :
  is_hallucination default_filter (str "[Music]") (VStr (str "fr")) = Ok true.
Proof. run. Qed.

Example substantive_text_kept :
  is_hallucination default_filter (str "The meeting will start at 3pm")
    (VStr (str "en")) = Ok false.
Proof. run. Qed.

Example alice_header :
  header_parts (header_of "alice|en-US" ++ tone 4) = [str "alice"; str "en-US"].
Proof. run. Qed.

Example one_second_hello :
  sent (run_session second_config default_whisper (session_init second_config)
          [(alice_frame 16000, hello)])
  = [final_response (Some (str "alice")) (str "hello world")].
Proof. run. Qed.

Example one_second_thank_you :
  sent (run_session second_config default_whisper (session_init second_config)
          [(alice_frame 16000, answer "thank you" "en")])
  = [partial_response (Some (str "alice"))].
Proof. run. Qed.

Example default_threshold_reached :
  length (sent (handle_message default_config default_whisper
                  (session_init default_config) (alice_frame 48000) hello)) = 1%nat.
Proof. run. Qed.

Example default_threshold_one_short :
  sent (handle_message default_config default_whisper
          (session_init default_config) (alice_frame 47999) hello) = [].
Proof. run. Qed.

Example three_four_five :
  get_rms_energy (with_buffer (AudioBuffer_init 16000) [x03; x00; x04; x00])
  = PyFloat (S754_finite false 7961314590657216 (-51)).
Proof. run. Qed.

(** ** The theorems at concrete inputs *)

Lemma malformed_header_keeps_audio_witness :
  let data := header_of "no separator here" ++ tone 4 in
  let s := session_init default_config in
  let st := handle_message default_config default_whisper s (Binary data) hello in
  60 <= len data
  /\ (length (header_parts data) < 2)%nat
  /\ buffer (audio_buffer (after st)) = tone 4
  /\ client_id (audio_buffer (after st)) = None
  /\ language (audio_buffer (after st)) = str "en".
Proof.
  intros data s st.
  assert (Hlen : 60 <= len data) by run.
  assert (Hparts : (length (header_parts data) < 2)%nat) by run.
  split; [exact Hlen |]. split; [exact Hparts |].
  pose proof (malformed_header_keeps_audio default_config default_whisper s
                data hello Hlen Hparts)
    as (_ & _ & _ & _ & _ & _ & _ & _ & _ & _ & _ & _ & Hid & Hlang & Hbuf & _).
  cbn zeta in Hid, Hlang, Hbuf. fold st in Hid, Hlang, Hbuf.
  assert (Hquiet : texts st = []) by run.
  split; [rewrite (Hbuf Hquiet); run |].
  split; [rewrite Hid; reflexivity | rewrite Hlang; reflexivity].
Defined.


Lemma drain_at_threshold_witness :
  let data := header_of "alice|en-US" ++ tone 16000 in
  let s := session_init second_config in
  let st := handle_message second_config default_whisper s (Binary data) hello in
  60 <= len data
  /\ st = drain default_whisper (receive (count_message s) data) hello
  /\ length (sent st) = 1%nat
  /\ buffer (audio_buffer (after st)) = [].
Proof.
  intros data s st.
  assert (Hlen : 60 <= len data) by run.
  split; [exact Hlen |].
  pose proof (drain_at_threshold second_config default_whisper s data hello Hlen)
    as (_ & _ & Hdrain).
  cbn zeta in Hdrain.
  assert (Hd : get_duration_ms (audio_buffer (receive (count_message s) data))
               = Ok (float_of_int 1000)) by run.
  rewrite Hd in Hdrain.
  assert (Hc : py_compare (PyFloat (float_of_int 1000))
                 (whisper_chunk_duration_ms second_config) = Some Eq) by run.
  rewrite Hc in Hdrain.
  destruct Hdrain as (Hst & _ & Hsent & _ & Hbuf).
  split; [exact Hst |]. split; [exact Hsent | exact Hbuf].
Defined.

(** C2. At the exact threshold the handler misses the drain. At 16 kHz with
    a threshold of 1001 ms, a buffer of 16016 complete samples lasts exactly
    1001 ms (16016 * 1000 = 1001 * 16000), yet the handler computes
    16016 / 16000 * 1000 in binary64 as 1000.9999999999999, finds it below
    1001 and does not drain: nothing is transcribed or sent and the 32032
    bytes stay in the buffer. A further odd byte changes nothing, as it
    completes no sample; one further sample drains. At the default
    threshold of 3000 ms the boundary is hit: 48000 samples drain. *)
Theorem exact_threshold_missed :
  let data := header_of "alice|en-US" ++ tone 16016 in
  let s := session_init odd_config in
  let st := handle_message odd_config default_whisper s (Binary data) hello in
  let samples := len (buffer (audio_buffer (receive (count_message s) data))) / 2 in
  let odd := handle_message odd_config default_whisper s
               (Binary (data ++ [x00])) hello in
  let next := handle_message odd_config default_whisper s
                (Binary (header_of "alice|en-US" ++ tone 16017)) hello in
  60 <= len data
  /\ whisper_chunk_duration_ms odd_config = PyInt 1001
  /\ sample_rate (audio_buffer s) = 16000
  /\ samples = 16016
  /\ samples * 1000 = 1001 * sample_rate (audio_buffer s)
  /\ get_duration_ms (audio_buffer (receive (count_message s) data))
     = Ok (S754_finite false 8804889115230207 (-43))
  /\ py_lt (PyFloat (S754_finite false 8804889115230207 (-43))) (PyInt 1001)
     = true
  /\ texts st = [] /\ sent st = [] /\ calls st = []
  /\ len (buffer (audio_buffer (after st))) = 32032
  /\ get_duration_ms (audio_buffer (receive (count_message s) (data ++ [x00])))
     = Ok (S754_finite false 8804889115230207 (-43))
  /\ texts odd = []
  /\ length (texts next) = 1%nat /\ length (sent next) = 1%nat
  /\ buffer (audio_buffer (after next)) = []
  /\ length (sent (handle_message default_config default_whisper
                     (session_init default_config) (alice_frame 48000) hello))
     = 1%nat.
Proof. intros; conjuncts; run. Qed.

Lemma duplicate_suppression_witness :
  let s := session_init second_config in
  let between := [(Text (str "ping"), hello); (Binary (tone 8), hello)] in
  let t := str "hello world" in
  let st1 := handle_message second_config default_whisper s (alice_frame 16000) hello in
  let mid := run_session second_config default_whisper (after st1) between in
  let st2 := handle_message second_config default_whisper (after mid)
               (alice_frame 16000) hello in
  t <> [] /\ texts st1 = [Some t] /\ texts mid = [] /\ texts st2 = [Some t]
  /\ sent st2 = [partial_response (client_id (audio_buffer (after st2)))]
  /\ sent st1 = [final_response (client_id (audio_buffer (after st1))) t].
Proof.
  cbv zeta.
  match goal with
  | |- ?A /\ ?B /\ ?C /\ ?D /\ _ =>
      assert (Hne : A) by discriminate;
      assert (H1 : B) by run;
      assert (Hmid : C) by run;
      assert (H2 : D) by run
  end.
  split; [exact Hne |]. split; [exact H1 |].
  split; [exact Hmid |]. split; [exact H2 |].
  pose proof (duplicate_suppression second_config default_whisper
                (session_init second_config)
                (alice_frame 16000) (alice_frame 16000) hello hello
                [(Text (str "ping"), hello); (Binary (tone 8), hello)]
                (str "hello world") Hne H1 Hmid H2)
    as (Hsecond & _ & _ & Hfirst & _).
  split; [exact Hsecond |].
  apply Hfirst. discriminate.
Defined.

(** C3, as stated, fails: of three drains that each produce "hello world",
    the second and the third are two drains in a row with the same accepted
    text, and the first of the two sends a partial response, not a final
    one. *)
Lemma repeated_text_counterexample :
  let s := session_init second_config in
  let st1 := handle_message second_config default_whisper s (alice_frame 16000) hello in
  let st2 := handle_message second_config default_whisper (after st1)
               (alice_frame 16000) hello in
  let st3 := handle_message second_config default_whisper (after st2)
               (alice_frame 16000) hello in
  texts st2 = [Some (str "hello world")]
  /\ texts st3 = [Some (str "hello world")]
  /\ sent st1 = [final_response (Some (str "alice")) (str "hello world")]
  /\ sent st2 = [partial_response (Some (str "alice"))]
  /\ sent st3 = [partial_response (Some (str "alice"))]
  /\ sent st2 <> [final_response (Some (str "alice")) (str "hello world")].
Proof. intros; conjuncts; run. Qed.

Lemma silence_gate_witness :
  let ab := silence 6 in
  (py_lt (get_rms_energy ab) (silence_threshold default_whisper) = true
   \/ (Forall (eq x00) (buffer ab)
       /\ py_lt (PyInt 0) (silence_threshold default_whisper) = true))
  /\ transcribe default_whisper ab hello = (None, [])
  /\ transcribe default_whisper ab (PostRaised RequestTimeout) = (None, []).
Proof.
  intros ab.
  assert (Hcause : py_lt (get_rms_energy ab) (silence_threshold default_whisper) = true
                   \/ (Forall (eq x00) (buffer ab)
                       /\ py_lt (PyInt 0) (silence_threshold default_whisper) = true)).
  { right. split; [repeat constructor | reflexivity]. }
  split; [exact Hcause |].
  pose proof (silence_gate default_whisper ab hello (PostRaised RequestTimeout) Hcause)
    as (_ & Hfirst & Hsecond).
  split; [exact Hfirst | exact Hsecond].
Defined.

Lemma is_hallucination_iff_witness :
  exists b,
    is_hallucination default_filter (str "Thank you.") (VStr (str "en-US")) = Ok b
    /\ b = true.
Proof.
  destruct (is_hallucination_iff default_filter (str "Thank you.") (str "en-US"))
    as (b & Hb & Hiff & _).
  exists b. split; [exact Hb |].
  apply Hiff. split; [reflexivity |]. right. right.
  exists (str "^thank you[\s!.]*$"). split; [left; left; reflexivity | reflexivity].
Defined.

Lemma backend_failure_degrades_witness :
  let s := with_audio (session_init second_config) loud in
  let reply := Response 503 None in
  backend_failed reply = true
  /\ py_lt (get_rms_energy (audio_buffer s)) (silence_threshold default_whisper)
     = false
  /\ length (calls (drain default_whisper s reply)) = 1%nat
  /\ (forall ab, (transcribe default_whisper ab reply).1 = None)
  /\ sent (drain default_whisper s reply) = [partial_response None]
  /\ raised (drain default_whisper s reply) = None.
Proof.
  intros s reply.
  assert (Hfail : backend_failed reply = true) by reflexivity.
  split; [exact Hfail |]. split; [run |]. split; [run |].
  pose proof (backend_failure_degrades second_config default_whisper s
                (alice_frame 16000) reply Hfail)
    as (Hnone & (Hsent & Hraised & _) & _).
  split; [exact Hnone |]. split; [exact Hsent | exact Hraised].
Defined.

(** C7, as stated, fails: with the filter disabled, a 200 answer that is a
    JSON object without a text, a malformed payload, makes [transcribe]
    return the empty string, not None. *)
Lemma textless_answer_counterexample :
  lacks_text no_text_answer = true
  /\ py_truthy (sync_request no_text_answer) = true
  /\ filter_enabled (filter unfiltered_whisper) = false
  /\ length (transcribe unfiltered_whisper loud no_text_answer).2 = 1%nat
  /\ (transcribe unfiltered_whisper loud no_text_answer).1 = Some []
  /\ (transcribe unfiltered_whisper loud no_text_answer).1 <> None.
Proof. conjuncts; run. Qed.

Lemma rms_energy_total_witness :
  let ab := with_buffer (AudioBuffer_init 16000) (tone 4) in
  complete_samples (buffer ab) = [4096; 4096; 4096; 4096]
  /\ square_sum (complete_samples (buffer ab)) = 4 * (4096 * 4096)
  /\ get_rms_energy ab = PyFloat (float_of_int 4096).
Proof.
  cbv zeta. split; [run |]. split; [run |].
  pose proof (rms_energy_total (with_buffer (AudioBuffer_init 16000) (tone 4)))
    as (_ & _ & _ & Henergy).
  change ((len (buffer (with_buffer (AudioBuffer_init 16000) (tone 4))) <? 2)
          || Z.odd (len (buffer (with_buffer (AudioBuffer_init 16000) (tone 4)))))
    with false in Henergy.
  destruct Henergy as (_ & _ & _ & mean & Hmean & Henergy).
  rewrite Henergy. vm_compute in Hmean. injection Hmean as <-. run.
Defined.

Lemma authentication_gate_witness :
  (jwt_enabled no_auth = false
   /\ verify no_auth (str "anything")
      = Some [(str "iss", VStr (str "no-auth-mode"))]
   /\ exists log,
        handle_client second_config no_auth default_whisper
          {| authorization := None; path := str "/streaming-whisper/ws/m1" |}
          [(Text (str "ping"), hello)]
        = Served log)
  /\ (jwt_enabled default_jwt = true
      /\ exists reason,
           handle_client second_config default_jwt default_whisper
             (bearer "expired-token") [(alice_frame 16000, hello)]
           = Closed 1008 reason).
Proof.
  split.
  - split; [reflexivity |].
    destruct (authentication_gate second_config no_auth default_whisper
                {| authorization := None; path := str "/streaming-whisper/ws/m1" |}
                [(Text (str "ping"), hello)]) as [Hoff _].
    destruct (Hoff eq_refl) as (Hverify & _ & Hserved).
    split; [apply Hverify |].
    rewrite Hserved. eexists. reflexivity.
  - split; [reflexivity |].
    destruct (authentication_gate second_config default_jwt default_whisper
                (bearer "expired-token") [(alice_frame 16000, hello)]) as [_ Hon].
    destruct (Hon eq_refl) as [_ Hclosed]; [| exact Hclosed].
    right. intros payload. run.
Defined.

Lemma participant_id_null_until_header_witness :
  let events := [(Text (str "ping"), hello);
                 (Binary (bytes_lit "bob|de"), hello);
                 (Binary (tone 8), hello);
                 (nameless_frame 16000, hello)] in
  let st := run_session second_config default_whisper
              (session_init second_config) events in
  Forall (fun ev => sets_participant ev.1 = false) events
  /\ In x7c (bytes_lit "bob|de")
  /\ client_id (audio_buffer (after st)) = None
  /\ sent st = [final_response None (str "hello world")]
  /\ Forall (fun r => (r = partial_response None
                       \/ exists t, r = final_response None t)
                      /\ field "participant_id" r = Some VNone) (sent st).
Proof.
  intros events st.
  assert (Hall : Forall (fun ev => sets_participant ev.1 = false) events).
  { subst events. unfold nameless_frame.
    constructor; [reflexivity |].
    constructor; [reflexivity |].
    constructor; [reflexivity |].
    constructor; [run | constructor]. }
  split; [exact Hall |]. split; [run |].
  pose proof (participant_id_null_until_header second_config default_whisper
                events Hall) as (_ & Hid & Hsent & _).
  split; [exact Hid |]. split; [run | exact Hsent].
Defined.

Example nameless_drain :
  sent (run_session second_config default_whisper (session_init second_config)
          [(Text (str "ping"), hello); (Binary (tone 8), hello);
           (nameless_frame 16000, hello)])
  = [final_response None (str "hello world")].
Proof. run. Qed.

(** ** More theorems at concrete inputs *)

Ltac distinct :=
  repeat (apply NoDup_cons_2;
          [rewrite list_elem_of_In; vm_compute; intuition discriminate |]);
  apply NoDup_nil_2.

Lemma buffer_stays_below_threshold_witness :
  let cfg := {| whisper_sample_rate := 16000;
                whisper_chunk_duration_ms := PyInt 1 |} in
  let s := session_init cfg in
  let events := [(alice_frame 8, hello); (Text (str "ping"), hello);
                 (alice_frame 8, hello); (alice_frame 4, hello)] in
  let st := run_session cfg default_whisper s events in
  raised st = None
  /\ (buffer (audio_buffer s) = []
      \/ chunk_ready cfg (audio_buffer s) = false)
  /\ (buffer (audio_buffer (after st)) = []
      \/ chunk_ready cfg (audio_buffer (after st)) = false).
Proof.
  cbv zeta.
  match goal with
  | |- ?A /\ ?B /\ _ =>
      assert (Hr : A) by run;
      assert (Hb : B) by (left; reflexivity)
  end.
  split; [exact Hr |]. split; [exact Hb |].
  exact (buffer_stays_below_threshold _ _ _ _ Hr Hb).
Defined.

Lemma turns_reach_the_send_witness :
  let s := session_init second_config in
  let events := [(alice_frame 8, hello); (Binary [x00], hello);
                 (Text (str "ping"), PostRaised ConnectionFailure);
                 (alice_frame 16000, Response 503 None)] in
  let st := run_session second_config default_whisper s events in
  0 < sample_rate (audio_buffer s)
  /\ len (buffer (audio_buffer s)) + received events < 2 ^ 1024
  /\ raised st = None
  /\ message_count (after st) = 4
  /\ length (sent st) = 1%nat.
Proof.
  cbv zeta.
  match goal with
  | |- ?A /\ ?B /\ _ =>
      assert (Hrate : A) by run;
      assert (Hsize : B) by run
  end.
  split; [exact Hrate |]. split; [exact Hsize |].
  pose proof (turns_reach_the_send second_config default_whisper
                [(alice_frame 8, hello); (Binary [x00], hello);
                 (Text (str "ping"), PostRaised ConnectionFailure);
                 (alice_frame 16000, Response 503 None)]
                (session_init second_config) Hrate Hsize)
    as (Hnone & Hcount & Hsent).
  cbv zeta in Hnone, Hcount, Hsent.
  split; [exact Hnone |]. split; [exact Hcount | rewrite Hsent; run].
Defined.

Lemma zero_sample_rate_ends_session_witness :
  let cfg := {| whisper_sample_rate := 0;
                whisper_chunk_duration_ms := PyInt 1000 |} in
  let s := session_init cfg in
  let events := [(Text (str "ping"), hello); (alice_frame 8, hello);
                 (alice_frame 16, hello)] in
  sample_rate (audio_buffer s) = 0
  /\ sent (run_session cfg default_whisper s events) = []
  /\ calls (run_session cfg default_whisper s events) = [].
Proof.
  cbv zeta.
  match goal with
  | |- ?A /\ _ => assert (Hzero : A) by reflexivity
  end.
  split; [exact Hzero |].
  pose proof (zero_sample_rate_ends_session
                {| whisper_sample_rate := 0;
                   whisper_chunk_duration_ms := PyInt 1000 |}
                default_whisper
                [(Text (str "ping"), hello); (alice_frame 8, hello);
                 (alice_frame 16, hello)] _ Hzero)
    as (_ & Hsent & _ & Hcalls).
  split; [exact Hsent | exact Hcalls].
Defined.

Lemma accepted_text_provenance_witness :
  let ab := {| sample_rate := 16000; buffer := tone 4;
               client_id := None; language := str "en-US" |} in
  (transcribe default_whisper ab hello).1 = Some (str "hello world")
  /\ exists d raw, hello = Response 200 (Some (VDict d))
                   /\ dict_get (str "text") d (VStr []) = VStr raw
                   /\ str "hello world" = strip raw.
Proof.
  cbv zeta.
  match goal with
  | |- ?A /\ _ => assert (Htext : A) by run
  end.
  split; [exact Htext |].
  destruct (accepted_text_provenance _ _ _ _ Htext)
    as (d & raw & wav & r & Hreply & _ & Hraw & Hstrip & _).
  exists d, raw. split; [exact Hreply |]. split; [exact Hraw | exact Hstrip].
Defined.

Lemma non_string_language_drops_text_witness :
  let d := [(str "text", VStr (str "hello world")); (str "language", VNone)] in
  let ab := {| sample_rate := 16000; buffer := tone 4;
               client_id := None; language := str "en-US" |} in
  dict_lookup (str "language") d = Some VNone
  /\ (forall l, VNone <> VStr l)
  /\ (transcribe default_whisper ab (Response 200 (Some (VDict d)))).1 = None.
Proof.
  cbv zeta.
  match goal with
  | |- ?A /\ ?B /\ _ =>
      assert (Hlang : A) by reflexivity;
      assert (Hnot : B) by (intros l; discriminate)
  end.
  split; [exact Hlang |]. split; [exact Hnot |].
  apply (non_string_language_drops_text default_whisper _ 200 _ VNone Hlang Hnot).
  reflexivity.
Defined.

Lemma header_applies_to_its_frame_witness :
  let data := header_of "alice|en-US" ++ tone 16 in
  let cfg := {| whisper_sample_rate := 16000;
                whisper_chunk_duration_ms := PyInt 1 |} in
  let st := handle_message cfg default_whisper (session_init cfg)
              (Binary data) hello in
  60 <= len data
  /\ In x7c (take 60 data)
  /\ client_id (audio_buffer (after st)) = Some (str "alice")
  /\ Forall (fun r => field "participant_id" r = Some (VStr (str "alice")))
       (sent st).
Proof.
  cbv zeta.
  match goal with
  | |- ?A /\ ?B /\ _ =>
      assert (Hlen : A) by run;
      assert (Hbar : B) by (apply header_splits; run)
  end.
  split; [exact Hlen |]. split; [exact Hbar |].
  pose proof (header_applies_to_its_frame
                {| whisper_sample_rate := 16000;
                   whisper_chunk_duration_ms := PyInt 1 |}
                default_whisper
                (session_init {| whisper_sample_rate := 16000;
                                 whisper_chunk_duration_ms := PyInt 1 |})
                _ hello Hlen Hbar) as (Hid & _ & Hsent & _).
  split; [exact Hid | exact Hsent].
Defined.

Lemma deep_merge_entries_witness :
  let update := [(str "whisper", VDict [(str "url", VStr (str "http://gpu/inference"))]);
                 (str "jwt", VNone)] in
  NoDup (map fst update)
  /\ exists merged,
       _deep_merge DEFAULT_CONFIG (VDict update) = Ok merged
       /\ dict_lookup (str "jwt") merged = Some VNone.
Proof.
  cbv zeta.
  match goal with
  | |- ?A /\ _ => assert (Hnodup : A) by (cbn [map fst]; distinct)
  end.
  split; [exact Hnodup |].
  match goal with
  | |- exists merged, _deep_merge ?base ?update = _ /\ _ =>
      pose proof (deep_merge_entries base update (str "jwt")) as Hmerged
  end.
  cbn [_deep_merge] in Hmerged. destruct Hmerged as (items & Hitems & Hlookup).
  injection Hitems as <-.
  eexists. split; [reflexivity |].
  rewrite (Hlookup Hnodup). reflexivity.
Defined.

Lemma merged_setting_witness :
  let update := [(str "whisper", VDict [(str "url", VStr (str "http://gpu/inference"))]);
                 (str "jwt", VNone)] in
  NoDup (map fst update)
  /\ ~ In 46%N (str "whisper") /\ ~ In 46%N (str "sample_rate")
  /\ Config_get (deep_merge DEFAULT_CONFIG update) (str "whisper.sample_rate") VNone
     = VInt 16000.
Proof.
  cbv zeta.
  match goal with
  | |- ?A /\ ?B /\ ?C /\ _ =>
      assert (Hnodup : A) by (cbn [map fst]; distinct);
      assert (Hsection : B) by (vm_compute; intuition discriminate);
      assert (Hkey : C) by (vm_compute; intuition discriminate)
  end.
  split; [exact Hnodup |]. split; [exact Hsection |]. split; [exact Hkey |].
  pose proof (merged_setting DEFAULT_CONFIG _ _ _ VNone Hnodup Hsection Hkey)
    as (_ & _ & Hboth).
  destruct (Hboth _ _ eq_refl eq_refl) as [Hkeep _].
  - cbn [map fst]. distinct.
  - exact (Hkeep eq_refl).
Defined.

Lemma filter_ignores_region_witness :
  ~ In 45%N (str "en")
  /\ is_hallucination default_filter (str "Thank you.") (VStr (str "en-US"))
     = is_hallucination default_filter (str "Thank you.") (VStr (str "en")).
Proof.
  assert (Hcode : ~ In 45%N (str "en")) by (vm_compute; intuition discriminate).
  split; [exact Hcode |].
  exact (filter_ignores_region default_filter (str "Thank you.") (str "en")
           (str "US") Hcode).
Defined.

Lemma header_round_trip_witness :
  let id := bytes_lit "alice" in
  let lang := bytes_lit "en-US" in
  let ab := AudioBuffer_init 16000 in
  Forall (fun b => (Byte.to_N b < 128)%N) (id ++ lang)
  /\ ~ In x7c id /\ ~ In x7c lang
  /\ (length id + 1 + length lang + 49 = 60)%nat
  /\ parse_header ab (id ++ x7c :: lang ++ repeat x00 49 ++ tone 4)
     = {| sample_rate := 16000; buffer := [];
          client_id := Some (str "alice"); language := str "en-US" |}.
Proof.
  cbv zeta.
  match goal with
  | |- ?A /\ ?B /\ ?C /\ ?D /\ _ =>
      assert (Hascii : A) by (repeat (constructor; [reflexivity |]); constructor);
      assert (Hid : B) by (vm_compute; intuition discriminate);
      assert (Hlang : C) by (vm_compute; intuition discriminate);
      assert (Hlen : D) by reflexivity
  end.
  split; [exact Hascii |]. split; [exact Hid |]. split; [exact Hlang |].
  split; [exact Hlen |].
  pose proof (header_round_trip (AudioBuffer_init 16000) _ _ (tone 4) 49
                Hascii Hid Hlang Hlen) as (_ & _ & Hclean).
  apply Hclean. reflexivity.
Defined.

Lemma bearer_token_round_trip_witness :
  forallb (fun c => negb (isspace c)) (str "valid-token") = true
  /\ strip (replace_empty (str "Bearer ") (str "Bearer " ++ str "valid-token"))
     = str "valid-token".
Proof.
  assert (Hclean : forallb (fun c => negb (isspace c)) (str "valid-token") = true)
    by reflexivity.
  split; [exact Hclean |].
  pose proof (bearer_token_round_trip default_jwt (str "valid-token") Hclean)
    as (_ & Htoken & _).
  exact Htoken.
Defined.

Lemma no_jwt_flag_disables_witness :
  let files := fun _ : pystr => NoSuchFile in
  let args := {| arg_config := str "/etc/whisper-bridge/config.yaml";
                 arg_host := None; arg_port := Some 9443;
                 arg_whisper_url := None; arg_no_jwt := true |} in
  let open_key := fun _ : pyval => KeyRaises FileNotFoundError in
  arg_no_jwt args = true
  /\ exists d, main_config files args = inl d
               /\ exists a, JWTAuthenticator_init d open_key = inl a
                            /\ auth_public_key a = None.
Proof.
  cbv zeta. split; [reflexivity |].
  eexists. split; [reflexivity |].
  match goal with
  | |- exists a, JWTAuthenticator_init ?d ?k = _ /\ _ =>
      destruct (no_jwt_flag_disables (fun _ : pystr => NoSuchFile)
                  {| arg_config := str "/etc/whisper-bridge/config.yaml";
                     arg_host := None; arg_port := Some 9443;
                     arg_whisper_url := None; arg_no_jwt := true |}
                  d k eq_refl eq_refl)
        as (a & Hinit & _ & Hkey & _)
  end.
  exists a. split; [exact Hinit | exact Hkey].
Defined.
